(** * aws_auth: the credentials-file routines of [aws_auth_utils/aws_auth.py]

    A shallow embedding of the support functions of the command line tool
    ([read_ini_file_to_dict], [write_dict_to_ini_file],
    [save_session_credentials], [copy_profile], [get_session],
    [auto_detect_mfa_device]) together with the two commands that call them.

    The functions lean on the standard [configparser.ConfigParser] class, so
    the part of that class they exercise is embedded first (module
    [configparser], after CPython 3.11 [Lib/configparser.py]): the line
    oriented reader [_read], [items] with [BasicInterpolation], [read_dict],
    [set] and [write].

    Conventions.
    - A Python [str] is a list of characters; a character is a code point
      below 256.
    - A Python [dict] is an association list kept in insertion order with
      unique keys: assigning an existing key keeps its position, a new key
      goes last.
    - A raised exception is the [Raise] result; functions that touch the
      credentials file or the log thread a [world]. *)

From Stdlib Require Import List Ascii Bool Arith Lia.
From Stdlib Require String.
Import ListNotations String.StringSyntax.

Set Implicit Arguments.

(** ** Python strings *)

Definition str := list ascii.

Definition L (s : String.string) : str := String.list_ascii_of_string s.
Arguments L s%_string_scope.

Definition str_eqb (a b : str) : bool :=
  if list_eq_dec ascii_dec a b then true else false.
Arguments str_eqb : simpl never.

Module Py.

Definition LF : ascii := ascii_of_nat 10.
Definition CR : ascii := ascii_of_nat 13.
Definition TAB : ascii := ascii_of_nat 9.

Definition chr_eqb (a b : ascii) : bool := Ascii.eqb a b.
#[global] Arguments chr_eqb : simpl never.

(** [str.isspace] on one code point below 256. *)
Definition isspace (c : ascii) : bool :=
  let n := nat_of_ascii c in
  ((9 <=? n) && (n <=? 13)) || ((28 <=? n) && (n <=? 32))
  || (n =? 133) || (n =? 160).
#[global] Arguments isspace : simpl never.

(** [str.lower] on one code point below 256. *)
Definition lower_chr (c : ascii) : ascii :=
  let n := nat_of_ascii c in
  if ((65 <=? n) && (n <=? 90))
     || ((192 <=? n) && (n <=? 222) && negb (n =? 215))
  then ascii_of_nat (n + 32) else c.
#[global] Arguments lower_chr : simpl never.

Definition lower (s : str) : str := map lower_chr s.

Fixpoint lstrip (s : str) : str :=
  match s with
  | [] => []
  | c :: r => if isspace c then lstrip r else s
  end.

Fixpoint rstrip (s : str) : str :=
  match s with
  | [] => []
  | c :: r => match rstrip r with
              | [] => if isspace c then [] else [c]
              | r' => c :: r'
              end
  end.

Definition strip (s : str) : str := rstrip (lstrip s).

(** [c in s] for a one-character [c]. *)
Definition contains (c : ascii) (s : str) : bool := existsb (chr_eqb c) s.

(** ['\n'.join(parts)] *)
Fixpoint join_lines (parts : list str) : str :=
  match parts with
  | [] => []
  | [p] => p
  | p :: ps => p ++ LF :: join_lines ps
  end.

(** [s.replace('\n', '\n\t')] *)
Fixpoint replace_nl (s : str) : str :=
  match s with
  | [] => []
  | c :: r => if chr_eqb c LF then LF :: TAB :: replace_nl r
              else c :: replace_nl r
  end.

(** [s.replace('%%', '')]: occurrences are taken left to right and do not
    overlap. *)
Fixpoint replace_pctpct (s : str) : str :=
  match s with
  | [] => []
  | c :: r =>
      if chr_eqb c "%" then
        match r with
        | c' :: r' => if chr_eqb c' "%" then replace_pctpct r'
                      else c :: replace_pctpct r
        | [] => [c]
        end
      else c :: replace_pctpct r
  end.

(** Text mode reading translates ['\r\n'] and ['\r'] to ['\n']. *)
Fixpoint universal_newlines (s : str) : str :=
  match s with
  | [] => []
  | c :: r =>
      if chr_eqb c CR then
        match r with
        | c' :: r' => if chr_eqb c' LF then LF :: universal_newlines r'
                      else LF :: universal_newlines r
        | [] => [LF]
        end
      else c :: universal_newlines r
  end.

(** [s.split('\n')] *)
Fixpoint split_nl (s : str) : list str :=
  match s with
  | [] => [[]]
  | c :: r =>
      if chr_eqb c LF then [] :: split_nl r
      else match split_nl r with
           | [] => [[c]]
           | l :: ls => (c :: l) :: ls
           end
  end.

(** Iterating a text file: the lines, without their terminator.  A last
    line that is not terminated is a line; an empty text has no line. *)
Fixpoint readlines (s : str) : list str :=
  match s with
  | [] => []
  | c :: r =>
      if chr_eqb c LF then [] :: readlines r
      else match readlines r with
           | [] => [[c]]
           | l :: ls => (c :: l) :: ls
           end
  end.

(** Index of the first character that is not white space
    ([NONSPACECRE.search(line).start()], 0 when there is none). *)
Fixpoint first_nonspace (s : str) : nat :=
  match s with
  | [] => 0
  | c :: r => if isspace c then
                match lstrip r with [] => 0 | _ => S (first_nonspace r) end
              else 0
  end.

End Py.

(** ** Python dictionaries *)

Module Dict.

Definition dict (V : Type) := list (str * V).

Fixpoint get {V} (k : str) (d : dict V) : option V :=
  match d with
  | [] => None
  | (k', v) :: r => if str_eqb k k' then Some v else get k r
  end.

Definition mem {V} (k : str) (d : dict V) : bool :=
  match get k d with Some _ => true | None => false end.

(** [d[k] = v] *)
Fixpoint set {V} (k : str) (v : V) (d : dict V) : dict V :=
  match d with
  | [] => [(k, v)]
  | (k', v') :: r => if str_eqb k k' then (k, v) :: r
                     else (k', v') :: set k v r
  end.

(** [d.update(other)] *)
Definition update {V} (d other : dict V) : dict V :=
  fold_left (fun acc kv => set (fst kv) (snd kv) acc) other d.

Definition keys {V} (d : dict V) : list str := map fst d.

(** [dict(pairs)] *)
Definition of_items {V} (pairs : list (str * V)) : dict V :=
  update [] pairs.

End Dict.

Import Dict.

(** ** Exceptions and results *)

Inductive exn : Type :=
| KeyError (key : str)
| ValueError
| OSError
| NoSectionError (section : str)
| DuplicateSectionError (section : str)
| DuplicateOptionError (section option : str)
| MissingSectionHeaderError
| ParsingError
| InterpolationSyntaxError
| InterpolationMissingOptionError (reference : str)
| InterpolationDepthError
| ProfileNotFound (profile : str)
| ClientError (message : str)
| SystemExit (code : nat).

Inductive res (A : Type) : Type :=
| Ok (a : A)
| Raise (e : exn).

Arguments Ok {A} a.
Arguments Raise {A} e.

Definition rbind {A B} (r : res A) (k : A -> res B) : res B :=
  match r with
  | Ok a => k a
  | Raise e => Raise e
  end.

Declare Scope res_scope.
Delimit Scope res_scope with res.
Notation "x <- c1 ;; c2" := (rbind c1 (fun x => c2))
  (at level 61, c1 at next level, right associativity) : res_scope.

(** Run [f] over a list from left to right, stopping at the first raise. *)
Fixpoint rfold {A S} (f : S -> A -> res S) (l : list A) (s : S) : res S :=
  match l with
  | [] => Ok s
  | a :: r => rbind (f s a) (rfold f r)
  end.

Fixpoint rmap {A B} (f : A -> res B) (l : list A) : res (list B) :=
  match l with
  | [] => Ok []
  | a :: r => rbind (f a) (fun b => rbind (rmap f r) (fun bs => Ok (b :: bs)))
  end.

(** ** The part of [configparser.ConfigParser] the tool uses

    A parser is created with the class defaults: delimiters [=] and [:],
    full-line comment prefixes [#] and [;], no inline comments, [strict],
    [empty_lines_in_values], no valueless options, default section
    [DEFAULT], [BasicInterpolation]. *)

Module configparser.

Import Py.
Local Open Scope res_scope.

Definition DEFAULTSECT : str := L "DEFAULT".
Definition MAX_INTERPOLATION_DEPTH : nat := 10.

(** The state of a parser: [_sections] and [_defaults]. *)
Record ConfigParser (V : Type) : Type := mkParser {
  _sections : dict (dict V);
  _defaults : dict V
}.

Definition empty_parser {V} : ConfigParser V := mkParser [] [].

(** *** Reading *)

(** While [_read] runs, a value is the list of its lines. *)
Inductive cursor : Type :=
| NoSect
| DefaultSect
| Sect (name : str).

(** The local variables of [_read] next to the parser it fills:
    [cursect] (an alias of [_defaults] or of one entry of [_sections]),
    [sectname], [optname], [indent_level], [elements_added] (its section
    names and its pairs) and the pending [ParsingError]. *)
Record reader : Type := mkReader {
  r_parser : ConfigParser (list str);
  cursect : cursor;
  sectname : option str;
  optname : option str;
  indent_level : nat;
  added_sections : list str;
  added_options : list (option str * str);
  pending_error : bool
}.

Definition reader0 : reader :=
  mkReader empty_parser NoSect None None 0 [] [] false.

Definition cursect_dict (st : reader) : option (dict (list str)) :=
  match cursect st with
  | NoSect => None
  | DefaultSect => Some (_defaults (r_parser st))
  | Sect n => get n (_sections (r_parser st))
  end.

(** Mutating the dictionary [cursect] points to mutates the parser. *)
Definition cursect_store (st : reader) (d : dict (list str)) : ConfigParser (list str) :=
  let p := r_parser st in
  match cursect st with
  | NoSect => p
  | DefaultSect => mkParser (_sections p) d
  | Sect n => mkParser (set n d (_sections p)) (_defaults p)
  end.

Definition with_parser (st : reader) (p : ConfigParser (list str)) : reader :=
  mkReader p (cursect st) (sectname st) (optname st) (indent_level st)
           (added_sections st) (added_options st) (pending_error st).

(** [line.strip().startswith(prefix)] for a prefix in [('#', ';')]. *)
Definition is_comment (line : str) : bool :=
  match strip line with
  | c :: _ => chr_eqb c "#" || chr_eqb c ";"
  | [] => false
  end.

(** The text before the last occurrence of [c]. *)
Fixpoint upto_last (c : ascii) (s : str) : option str :=
  match s with
  | [] => None
  | x :: r => match upto_last c r with
              | Some h => Some (x :: h)
              | None => if chr_eqb x c then Some [] else None
              end
  end.

(** [SECTCRE.match(value)], the group [header]: the pattern is
    [\[(?P<header>.+)\]], matched at the start of [value]; [.+] is greedy,
    so the header runs to the last [']']. *)
Definition sect_header (value : str) : option str :=
  match value with
  | c :: r =>
      if chr_eqb c "[" then
        match upto_last "]" r with
        | Some (h :: hs) => Some (h :: hs)
        | _ => None
        end
      else None
  | [] => None
  end.

Definition is_delim (c : ascii) : bool := chr_eqb c "=" || chr_eqb c ":".

(** The text before the first delimiter and the text after it. *)
Fixpoint split_delim (s : str) : option (str * str) :=
  match s with
  | [] => None
  | c :: r =>
      if is_delim c then Some ([], r)
      else match split_delim r with
           | Some (a, b) => Some (c :: a, b)
           | None => None
           end
  end.

(** [_optcre.match(value)], the groups [option] and [value]: the pattern
    is a lazy [option], white space, a delimiter [=] or [:], white space
    and the [value] up to the end of the line; the lazy [option] stops
    before the white space in front of the first delimiter. *)
Definition opt_match (value : str) : option (str * str) :=
  match split_delim value with
  | Some (a, b) => Some (rstrip a, lstrip b)
  | None => None
  end.

Definition mem_str (s : str) (l : list str) : bool := existsb (str_eqb s) l.

Definition opt_pair_eqb (a b : option str * str) : bool :=
  match fst a, fst b with
  | Some x, Some y => str_eqb x y && str_eqb (snd a) (snd b)
  | None, None => str_eqb (snd a) (snd b)
  | _, _ => false
  end.

Definition mem_pair (p : option str * str) (l : list (option str * str)) : bool :=
  existsb (opt_pair_eqb p) l.

Definition truthy (o : option str) : bool :=
  match o with
  | Some (_ :: _) => true
  | _ => false
  end.

(** [cursect[optname].append(v)] *)
Definition append_value (st : reader) (v : str) : res reader :=
  match cursect_dict st, optname st with
  | Some d, Some o =>
      match get o d with
      | Some ls => Ok (with_parser st (cursect_store st (set o (ls ++ [v]) d)))
      | None => Raise (KeyError o)
      end
  | _, _ => Ok st
  end.

(** The branch of [_read] for a section header [sectname']. *)
Definition read_header (st : reader) (sectname' : str) : res reader :=
  let p := r_parser st in
  if mem sectname' (_sections p) then
    if mem_str sectname' (added_sections st) then
      Raise (DuplicateSectionError sectname')
    else
      Ok (mkReader p (Sect sectname') (Some sectname') None (indent_level st)
                   (sectname' :: added_sections st) (added_options st)
                   (pending_error st))
  else if str_eqb sectname' DEFAULTSECT then
    Ok (mkReader p DefaultSect (Some sectname') None (indent_level st)
                 (added_sections st) (added_options st) (pending_error st))
  else
    Ok (mkReader (mkParser (set sectname' [] (_sections p)) (_defaults p))
                 (Sect sectname') (Some sectname') None (indent_level st)
                 (sectname' :: added_sections st) (added_options st)
                 (pending_error st)).

(** The branch of [_read] for an option line. *)
Definition read_option (st : reader) (value : str) : res reader :=
  match opt_match value with
  | Some (opt, optval) =>
      let err := match opt with [] => true | _ => pending_error st end in
      let optname' := lower (rstrip opt) in
      if mem_pair (sectname st, optname') (added_options st) then
        Raise (DuplicateOptionError
                 (match sectname st with Some s => s | None => [] end) optname')
      else
        match cursect_dict st with
        | Some d =>
            Ok (mkReader (cursect_store st (set optname' [strip optval] d))
                         (cursect st) (sectname st) (Some optname')
                         (indent_level st) (added_sections st)
                         ((sectname st, optname') :: added_options st) err)
        | None => Raise (KeyError (match sectname st with Some s => s | None => [] end))
        end
  | None =>
      Ok (mkReader (r_parser st) (cursect st) (sectname st) (optname st)
                   (indent_level st) (added_sections st) (added_options st) true)
  end.

Definition set_indent (st : reader) (n : nat) : reader :=
  mkReader (r_parser st) (cursect st) (sectname st) (optname st) n
           (added_sections st) (added_options st) (pending_error st).

Definition cursor_is_none (c : cursor) : bool :=
  match c with NoSect => true | _ => false end.

(** One turn of the loop of [_read] over a line. *)
Definition read_line (st : reader) (line : str) : res reader :=
  let comment := is_comment line in
  let value := if comment then [] else strip line in
  match value with
  | [] =>
      if negb comment && negb (cursor_is_none (cursect st))
         && truthy (optname st)
      then append_value st []
      else Ok st
  | _ :: _ =>
      let cur_indent_level := first_nonspace line in
      if negb (cursor_is_none (cursect st)) && truthy (optname st)
         && (indent_level st <? cur_indent_level)
      then append_value st value
      else
        let st' := set_indent st cur_indent_level in
        match sect_header value with
        | Some h => read_header st' h
        | None =>
            if cursor_is_none (cursect st) then Raise MissingSectionHeaderError
            else read_option st' value
        end
  end.

(** [_join_multiline_values]: ['\n'.join(val).rstrip()]. *)
Definition join_value (val : list str) : str := rstrip (join_lines val).

Definition join_section (d : dict (list str)) : dict str :=
  map (fun kv => (fst kv, join_value (snd kv))) d.

Definition _join_multiline_values (p : ConfigParser (list str)) : ConfigParser str :=
  mkParser (map (fun sd => (fst sd, join_section (snd sd))) (_sections p))
           (join_section (_defaults p)).

(** [_read(fp, fpname)] on a new parser, [fp] yielding [lines]. *)
Definition _read (lines : list str) : res (ConfigParser str) :=
  st <- rfold read_line lines reader0 ;;
  if pending_error st then Raise ParsingError
  else Ok (_join_multiline_values (r_parser st)).

(** [read_string(text)] on a new parser. *)
Definition read_string (text : str) : res (ConfigParser str) :=
  _read (readlines (universal_newlines text)).

(** *** Interpolation ([BasicInterpolation]) *)

(** [_KEYCRE.match(s)]: the pattern is [%] [(], one or more characters
    other than [)], then [)] and [s], matched at the start of [s].
    Returns the name and the text after the match. *)
Fixpoint upto_rparen (s : str) : option (str * str) :=
  match s with
  | [] => None
  | c :: r =>
      if chr_eqb c ")" then Some ([], r)
      else match upto_rparen r with
           | Some (a, b) => Some (c :: a, b)
           | None => None
           end
  end.

Definition match_keyref (s : str) : option (str * str) :=
  match s with
  | c1 :: c2 :: r =>
      if chr_eqb c1 "%" && chr_eqb c2 "(" then
        match upto_rparen r with
        | Some (n :: ns, c3 :: rest) =>
            if chr_eqb c3 "s" then Some (n :: ns, rest) else None
        | _ => None
        end
      else None
  | _ => None
  end.

(** [_KEYCRE.sub('', s)]; [fuel] bounds the number of steps, the length of
    [s] is enough. *)
Fixpoint sub_keyrefs (fuel : nat) (s : str) : str :=
  match fuel with
  | 0 => s
  | S fuel' =>
      match match_keyref s with
      | Some (_, rest) => sub_keyrefs fuel' rest
      | None => match s with
                | [] => []
                | c :: r => c :: sub_keyrefs fuel' r
                end
      end
  end.

(** [before_set]: the value is returned unchanged, or [ValueError] is
    raised. *)
Definition before_set (value : str) : res str :=
  let tmp_value := replace_pctpct value in
  let tmp_value := sub_keyrefs (length tmp_value) tmp_value in
  if contains "%" tmp_value then Raise ValueError else Ok value.

(** The [while rest] loop of [_interpolate_some]; [sub] is the recursive
    call at [depth + 1], [fuel] bounds the number of turns, the length of
    [rest] is enough. *)
Fixpoint interpolate_loop (sub : str -> res str) (map : dict str)
         (fuel : nat) (rest : str) : res str :=
  match fuel with
  | 0 => Ok []
  | S fuel' =>
      match rest with
      | [] => Ok []
      | c :: r =>
          if negb (chr_eqb c "%") then
            out <- interpolate_loop sub map fuel' r ;; Ok (c :: out)
          else
            match r with
            | c' :: r' =>
                if chr_eqb c' "%" then
                  out <- interpolate_loop sub map fuel' r' ;; Ok (c :: out)
                else if chr_eqb c' "(" then
                  match match_keyref rest with
                  | None => Raise InterpolationSyntaxError
                  | Some (name, rest') =>
                      let var := lower name in
                      match get var map with
                      | None => Raise (InterpolationMissingOptionError var)
                      | Some v =>
                          x <- (if contains "%" v then sub v else Ok v) ;;
                          out <- interpolate_loop sub map fuel' rest' ;;
                          Ok (x ++ out)
                      end
                  end
                else Raise InterpolationSyntaxError
            | [] => Raise InterpolationSyntaxError
            end
      end
  end.

(** [_interpolate_some] with [budget] levels of depth left: the call at
    depth 1 has [MAX_INTERPOLATION_DEPTH] levels, the call at depth
    [MAX_INTERPOLATION_DEPTH + 1] has none and raises. *)
Fixpoint _interpolate_some (budget : nat) (map : dict str) (rest : str) : res str :=
  match budget with
  | 0 => Raise InterpolationDepthError
  | S budget' =>
      interpolate_loop (_interpolate_some budget' map) map (length rest) rest
  end.

Definition before_get (value : str) (defaults : dict str) : res str :=
  _interpolate_some MAX_INTERPOLATION_DEPTH defaults value.

(** *** The methods of a parser *)

Definition sections (p : ConfigParser str) : list str := keys (_sections p).

(** [items(section)] *)
Definition items (p : ConfigParser str) (section : str) : res (list (str * str)) :=
  d <- match get section (_sections p) with
       | Some sd => Ok (update (_defaults p) sd)
       | None => if str_eqb section DEFAULTSECT then Ok (_defaults p)
                 else Raise (NoSectionError section)
       end ;;
  rmap (fun option => match get option d with
                      | Some v => v' <- before_get v d ;; Ok (option, v')
                      | None => Raise (KeyError option)
                      end)
       (keys d).

Definition add_section (p : ConfigParser str) (section : str) : res (ConfigParser str) :=
  if str_eqb section DEFAULTSECT then Raise ValueError
  else if mem section (_sections p) then Raise (DuplicateSectionError section)
  else Ok (mkParser (set section [] (_sections p)) (_defaults p)).

(** [set(section, option, value)] *)
Definition set_option (p : ConfigParser str) (section option value : str)
  : res (ConfigParser str) :=
  value <- match value with
           | [] => Ok value
           | _ => before_set value
           end ;;
  match section with
  | [] => Ok (mkParser (_sections p) (set (lower option) value (_defaults p)))
  | _ =>
      if str_eqb section DEFAULTSECT then
        Ok (mkParser (_sections p) (set (lower option) value (_defaults p)))
      else
        match get section (_sections p) with
        | Some sectdict =>
            Ok (mkParser (set section (set (lower option) value sectdict)
                              (_sections p))
                         (_defaults p))
        | None => Raise (NoSectionError section)
        end
  end.

(** The state of [read_dict]: the parser and [elements_added]. *)
Definition read_dict_key (section : str)
           (st : ConfigParser str * list (str * str)) (kv : str * str)
  : res (ConfigParser str * list (str * str)) :=
  let key := lower (fst kv) in
  if existsb (fun p => str_eqb (fst p) section && str_eqb (snd p) key) (snd st)
  then Raise (DuplicateOptionError section key)
  else
    p <- set_option (fst st) section key (snd kv) ;;
    Ok (p, (section, key) :: snd st).

Definition read_dict_section
           (st : ConfigParser str * (list str * list (str * str)))
           (entry : str * dict str)
  : res (ConfigParser str * (list str * list (str * str))) :=
  let section := fst entry in
  let p := fst st in
  let added_s := fst (snd st) in
  p <- match add_section p section with
       | Ok p' => Ok p'
       | Raise (DuplicateSectionError s) =>
           if mem_str section added_s then Raise (DuplicateSectionError s)
           else Ok p
       | Raise ValueError =>
           if mem_str section added_s then Raise ValueError else Ok p
       | Raise e => Raise e
       end ;;
  r <- rfold (read_dict_key section) (snd entry) (p, snd (snd st)) ;;
  Ok (fst r, (section :: added_s, snd r)).

(** [read_dict(dictionary)] on a new parser. *)
Definition read_dict (dictionary : dict (dict str)) : res (ConfigParser str) :=
  r <- rfold read_dict_section dictionary (empty_parser, ([], [])) ;;
  Ok (fst r).

(** *** Writing *)

Definition _write_section (section_name : str) (section_items : dict str) : str :=
  L "[" ++ section_name ++ [ "]"%char; LF ]
    ++ concat (List.map (fun kv => fst kv ++ L " = " ++ replace_nl (snd kv) ++ [LF])
                        section_items)
    ++ [LF].

(** [write(fp)]: the text written to [fp]. *)
Definition write (p : ConfigParser str) : str :=
  (match _defaults p with
   | [] => []
   | _ => _write_section DEFAULTSECT (_defaults p)
   end)
  ++ concat (List.map (fun sd => _write_section (fst sd) (snd sd)) (_sections p)).

(** *** Files

    The credentials file as the tool meets it: absent (and then whether
    [open(path, 'w')] can create it), or present with its permissions and
    its text. *)

Inductive file_state : Type :=
| Missing (creatable : bool)
| Present (readable writable : bool) (content : str).

(** [open(path)] followed by reading the whole text. *)
Definition open_read (f : file_state) : res str :=
  match f with
  | Present true _ content => Ok content
  | _ => Raise OSError
  end.

(** [open(path, 'w')], writing [text] and closing. *)
Definition open_write (f : file_state) (text : str) : res file_state :=
  match f with
  | Missing true => Ok (Present true true text)
  | Present readable true _ => Ok (Present readable true text)
  | _ => Raise OSError
  end.

(** [read(filename)] on a new parser: a file that cannot be opened is
    skipped silently, every error of [_read] is raised. *)
Definition read (f : file_state) : res (ConfigParser str) :=
  match open_read f with
  | Ok text => read_string text
  | Raise OSError => Ok empty_parser
  | Raise e => Raise e
  end.

End configparser.

(** ** The tool *)

Module aws_auth.

Import Py configparser.
Local Open Scope res_scope.

Inductive level : Type := DEBUG | INFO | WARNING | ERROR.

(** What the tool acts on: the credentials file at [creds_path], the
    records handed to [logger], and the profiles for which
    [boto3.Session] was called, most recent first. *)
Record world : Type := mkWorld {
  creds_path : str;
  credentials : file_state;
  log : list (level * str);
  opened : list str
}.

(** A statement run in a world gives a result, or raises, and leaves a
    world. *)
Definition M (A : Type) : Type := world -> res A * world.

Definition ret {A} (a : A) : M A := fun w => (Ok a, w).
Definition raise {A} (e : exn) : M A := fun w => (Raise e, w).
Definition bind {A B} (m : M A) (k : A -> M B) : M B :=
  fun w => match m w with
           | (Ok a, w') => k a w'
           | (Raise e, w') => (Raise e, w')
           end.
Definition lift {A} (r : res A) : M A := fun w => (r, w).

(** [try: body except E: handler] where [handles] tells the exceptions
    [E] matches. *)
Definition try_except {A} (body : M A) (handles : exn -> bool) (handler : M A) : M A :=
  fun w => match body w with
           | (Raise e, w') => if handles e then handler w' else (Raise e, w')
           | r => r
           end.

Declare Scope M_scope.
Delimit Scope M_scope with M.
Notation "x <-- c1 ;; c2" := (bind c1 (fun x => c2))
  (at level 61, c1 at next level, right associativity) : M_scope.
Notation "c1 ;;; c2" := (bind c1 (fun _ => c2))
  (at level 61, right associativity) : M_scope.

Definition logger (lvl : level) (msg : str) : M unit :=
  fun w => (Ok tt, mkWorld (creds_path w) (credentials w)
                           ((lvl, msg) :: log w) (opened w)).

Definition set_credentials (f : file_state) : M unit :=
  fun w => (Ok tt, mkWorld (creds_path w) f (log w) (opened w)).

(** *** The identity provider

    [boto3.Session(profile_name=...)] and the three calls made on the
    clients of a session.  The outcome of opening a session depends on
    the credentials file as it is when the call is made. *)

Record MFADevice : Type := mkDevice {
  SerialNumber : str;
  UserName : str
}.

Record Credentials : Type := mkCredentials {
  AccessKeyId : str;
  SecretAccessKey : str;
  SessionToken : str;
  Expiration : str
}.

Class Provider : Type := mkProvider {
  Session : Type;
  boto3_Session : file_state -> str -> res Session;
  list_mfa_devices : Session -> res (list MFADevice);
  get_session_token : Session -> nat -> str -> str -> res Credentials;
  assume_role : Session -> nat -> str -> str -> str -> str -> res Credentials
}.

(** *** Support functions *)

Definition read_ini_file_to_dict (file : file_state) : res (dict (dict str)) :=
  parser <- read file ;;
  entries <- rmap (fun section =>
                     its <- items parser section ;;
                     Ok (section, of_items its))
                  (sections parser) ;;
  Ok (of_items entries).

Definition write_dict_to_ini_file (dict_ : dict (dict str)) (file : file_state)
  : res file_state :=
  parser <- read_dict dict_ ;;
  open_write file (write parser).

Definition read_creds : M (dict (dict str)) :=
  fun w => (read_ini_file_to_dict (credentials w), w).

Definition write_creds (aws_creds : dict (dict str)) : M unit :=
  fun w => match write_dict_to_ini_file aws_creds (credentials w) with
           | Ok f => set_credentials f w
           | Raise e => (Raise e, w)
           end.

Definition session_section (session_credentials : Credentials) : dict str :=
  [ (L "aws_access_key_id", AccessKeyId session_credentials);
    (L "aws_secret_access_key", SecretAccessKey session_credentials);
    (L "aws_session_token", SessionToken session_credentials) ].

Definition save_session_credentials (session_credentials : Credentials)
           (target_profile : str) : M unit :=
  (aws_creds <-- read_creds ;;
   let aws_creds :=
     update aws_creds [ (target_profile, session_section session_credentials) ] in
   write_creds aws_creds ;;;
   fun w => logger INFO (L "Updated " ++ creds_path w ++ L ", use profile '"
                           ++ target_profile ++ L "' for your AWS requests.") w)%M.

Definition getitem {V} (d : dict V) (k : str) : M V :=
  match get k d with
  | Some v => ret v
  | None => raise (KeyError k)
  end.

Definition copy_profile (source_profile target_profile : str) : M unit :=
  (aws_creds <-- read_creds ;;
   section <-- getitem aws_creds source_profile ;;
   write_creds (set target_profile section aws_creds))%M.

(** The world after one more log record, and with another file. *)
Definition logged (w : world) (lvl : level) (msg : str) : world :=
  mkWorld (creds_path w) (credentials w) ((lvl, msg) :: log w) (opened w).

Definition with_credentials (w : world) (f : file_state) : world :=
  mkWorld (creds_path w) f (log w) (opened w).

(** The world after a call of [boto3.Session] for [profile_name]. *)
Definition session_opened (w : world) (profile_name : str) : world :=
  mkWorld (creds_path w) (credentials w) (log w) (profile_name :: opened w).

Definition autodetect_message : str :=
  L "No MFA device specified, auto-detecting".

Definition no_device_message : str :=
  L "No MFA device was specified and no MFA device was detected in IAM.".

Definition multiple_devices_message (mfa_arn : str) : str :=
  L "No MFA device was specified and multiple MFA device were detected in IAM. Will use the first one: " ++ mfa_arn.

Definition profile_not_found_message (source_profile : str) : str :=
  L "AWS Profile '" ++ source_profile
    ++ L "' could not be found, copying default profile".

Definition save_message (w : world) (target_profile : str) : str :=
  L "Updated " ++ creds_path w ++ L ", use profile '"
    ++ target_profile ++ L "' for your AWS requests.".

(** [serialize(parse(x))] on a text [x]: what the tool writes when it
    reads a file and writes the mapping back untouched. *)
Definition serialize_parse (x : str) : res str :=
  d <- read_ini_file_to_dict (Present true true x) ;;
  p <- read_dict d ;;
  Ok (write p).

Section WithProvider.

Context {provider : Provider}.

Definition open_session (profile_name : str) : M Session :=
  fun w => (boto3_Session (credentials w) profile_name,
            mkWorld (creds_path w) (credentials w) (log w)
                    (profile_name :: opened w)).

Definition is_ProfileNotFound (e : exn) : bool :=
  match e with ProfileNotFound _ => true | _ => false end.

Definition get_session (source_profile : str) : M Session :=
  try_except
    (open_session source_profile)
    is_ProfileNotFound
    (logger WARNING (L "AWS Profile '" ++ source_profile
                       ++ L "' could not be found, copying default profile") ;;;
     copy_profile (L "default") source_profile ;;;
     open_session source_profile)%M.

Definition sys_exit {A} (code : nat) : M A := raise (SystemExit code).

Definition auto_detect_mfa_device (session : Session) : M str :=
  (logger DEBUG (L "No MFA device specified, auto-detecting") ;;;
   mfa_devices <-- lift (list_mfa_devices session) ;;
   match mfa_devices with
   | [] =>
       logger ERROR (L "No MFA device was specified and no MFA device was detected in IAM.") ;;;
       sys_exit 1
   | first :: _ :: _ =>
       let mfa_arn := SerialNumber first in
       logger WARNING (L "No MFA device was specified and multiple MFA device were detected in IAM. Will use the first one: " ++ mfa_arn) ;;;
       ret mfa_arn
   | [first] => ret (SerialNumber first)
   end)%M.

Definition mfa_cli (mfa_arn : option str) (code : str) (duration : nat)
           (source_profile target_profile : str) : M unit :=
  (session <-- get_session source_profile ;;
   mfa_arn <-- match mfa_arn with
               | None => auto_detect_mfa_device session
               | Some a => ret a
               end ;;
   session_token <-- lift (get_session_token session duration mfa_arn code) ;;
   save_session_credentials session_token target_profile)%M.

Definition assume_cli (role_arn session_name : str) (mfa_arn : option str)
           (code : str) (duration : nat)
           (source_profile target_profile : str) : M unit :=
  (session <-- get_session source_profile ;;
   mfa_arn <-- match mfa_arn with
               | None => auto_detect_mfa_device session
               | Some a => ret a
               end ;;
   session_token <-- lift (assume_role session duration role_arn session_name
                                       mfa_arn code) ;;
   save_session_credentials session_token target_profile)%M.

End WithProvider.

End aws_auth.

(** ** Mappings that the writer and the reader agree on

    The conditions under which a mapping written by [write] is read back
    unchanged.  They are booleans, so that they can be evaluated. *)

Module Canonical.

Import Py configparser.

Definition nonempty (s : str) : bool :=
  match s with [] => false | _ => true end.

Definition starts_with_space (s : str) : bool :=
  match s with c :: _ => isspace c | [] => false end.

Definition starts_comment (s : str) : bool :=
  match s with c :: _ => chr_eqb c "#" || chr_eqb c ";" | [] => false end.

(** No white space at either end. *)
Definition stripped (s : str) : bool :=
  str_eqb (lstrip s) s && str_eqb (rstrip s) s.

Fixpoint nodup_keys (l : list str) : bool :=
  match l with
  | [] => true
  | k :: r => negb (mem_str k r) && nodup_keys r
  end.

(** A section name: not empty, on one line, and not [DEFAULT]. *)
Definition valid_name (n : str) : bool :=
  nonempty n && negb (contains LF n) && negb (contains CR n)
  && negb (str_eqb n DEFAULTSECT).

(** A key: not empty, in lower case, without a delimiter or a line break,
    stripped, and not starting like a comment. *)
Definition valid_key (k : str) : bool :=
  nonempty k && stripped k && str_eqb (lower k) k
  && negb (existsb is_delim k) && negb (contains LF k) && negb (contains CR k)
  && negb (starts_comment k).

(** A value: no [%] and no carriage return; every line stripped; no line
    after the first starts like a comment; the last line is not empty
    unless the value is. *)
Definition valid_value (v : str) : bool :=
  negb (contains "%" v) && negb (contains CR v)
  && forallb stripped (split_nl v)
  && forallb (fun l => negb (starts_comment l)) (tl (split_nl v))
  && str_eqb (rstrip v) v.

(** The first line written for an option. *)
Definition option_line (k v : str) : str :=
  k ++ L " = " ++ hd [] (split_nl v).

(** A key and its value: both valid, and the line written for them does
    not read as a section header. *)
Definition valid_item (kv : str * str) : bool :=
  valid_key (fst kv) && valid_value (snd kv)
  && match sect_header (strip (option_line (fst kv) (snd kv))) with
     | None => true
     | Some _ => false
     end.

Definition valid_section (items : dict str) : bool :=
  nodup_keys (keys items) && forallb valid_item items.

Definition valid_dict (d : dict (dict str)) : bool :=
  nodup_keys (keys d)
  && forallb (fun sd => valid_name (fst sd) && valid_section (snd sd)) d.

(** The lines written for an option and for a section. *)
Definition item_lines (kv : str * str) : list str :=
  match split_nl (snd kv) with
  | l0 :: ls => (fst kv ++ L " = " ++ l0) :: List.map (fun l => TAB :: l) ls
  | [] => [fst kv ++ L " = "]
  end.

Definition section_lines (sd : str * dict str) : list str :=
  (L "[" ++ fst sd ++ L "]") :: List.concat (List.map item_lines (snd sd)) ++ [[]].

(** The state of the reader's parser once a section has been read back:
    the value of an option is the list of its lines, with one more empty
    line for the last option of the section. *)
Definition raw_items (items : dict str) : dict (list str) :=
  List.map (fun kv => (fst kv, split_nl (snd kv))) items.

Definition close_section (raw : dict (list str)) : dict (list str) :=
  match rev raw with
  | (k, ls) :: _ => set k (ls ++ [[]]) raw
  | [] => raw
  end.

Definition raw_section (sd : str * dict str) : str * dict (list str) :=
  (fst sd, close_section (raw_items (snd sd))).

(** *** Notions used to follow the reader

    The state of the reader inside section [n]: [S] are the sections read
    before it and [raw] the options of [n] read so far. *)
Definition sec_state (S : dict (dict (list str))) (df : dict (list str))
           (n : str) (raw : dict (list str)) (optk : option str)
           (ads : list str) (ado : list (option str * str)) (err : bool) : reader :=
  mkReader (mkParser (S ++ [(n, raw)]) df) (Sect n) (Some n) optk 0 ads ado err.

Definition last_key {V} (items : dict V) : option str :=
  match rev items with
  | (k, _) :: _ => Some k
  | [] => None
  end.

Definition pairs {V} (n : str) (items : dict V) : list (option str * str) :=
  List.map (fun kv => (Some n, fst kv)) items.

Definition valid_entry (sd : str * dict str) : Prop :=
  valid_name (fst sd) = true /\ valid_section (snd sd) = true.

Definition values_rstripped (items : dict str) : Prop :=
  Forall (fun kv => rstrip (snd kv) = snd kv) items.

Definition values_plain (items : dict str) : Prop :=
  Forall (fun kv => contains "%" (snd kv) = false) items.

(** The text written for one option. *)
Definition item_text (kv : str * str) : str :=
  fst kv ++ L " = " ++ replace_nl (snd kv) ++ [LF].

(** The pairs [read_dict] adds to [elements_added] for a section. *)
Definition key_marks (n : str) (items : dict str) : list (str * str) :=
  List.map (fun kv => (n, fst kv)) items.

(** The credentials of a session are written back unchanged. *)
Definition valid_credentials (c : aws_auth.Credentials) : bool :=
  valid_value (aws_auth.AccessKeyId c)
  && valid_value (aws_auth.SecretAccessKey c)
  && valid_value (aws_auth.SessionToken c).

(** *** What the reader holds

    The notions used to show that whatever the reader accepts from a text
    without [%] is a mapping of the kind above. *)

(** [lower_chr] keeps the class of a character: white space, delimiter, and
    each of the characters the reader looks for. *)
Definition same_class (c : ascii) : bool :=
  Bool.eqb (isspace (lower_chr c)) (isspace c)
  && Bool.eqb (is_delim (lower_chr c)) (is_delim c)
  && Bool.eqb (chr_eqb (lower_chr c) LF) (chr_eqb c LF)
  && Bool.eqb (chr_eqb (lower_chr c) CR) (chr_eqb c CR)
  && Bool.eqb (chr_eqb (lower_chr c) "%") (chr_eqb c "%")
  && Bool.eqb (chr_eqb (lower_chr c) "#") (chr_eqb c "#")
  && Bool.eqb (chr_eqb (lower_chr c) ";") (chr_eqb c ";")
  && Bool.eqb (chr_eqb (lower_chr c) "[") (chr_eqb c "[")
  && Bool.eqb (chr_eqb (lower_chr c) "]") (chr_eqb c "]")
  && chr_eqb (lower_chr (lower_chr c)) (lower_chr c).

(** The characters the reader looks for and [lower_chr] leaves alone. *)
Definition kept (x : ascii) : Prop :=
  x = LF \/ x = CR \/ x = "%"%char \/ x = "#"%char \/ x = ";"%char
  \/ x = "["%char \/ x = "]"%char.

(** A line of a text without [%]: no line feed, no carriage return, no
    [%]. *)
Definition clean (l : str) : Prop :=
  contains LF l = false /\ contains CR l = false /\ contains "%" l = false.

(** A text reads as a section header when it starts with a bracket and has
    a closing bracket after its second character. *)
Definition headerish (x : str) : bool :=
  match x with
  | c :: _ :: r => chr_eqb c "[" && contains "]" r
  | _ => false
  end.

(** What the reader stores for an option: a key and the lines of its
    value. *)
Definition key_ok (k : str) : Prop :=
  k <> [] /\ stripped k = true /\ lower k = k /\ existsb is_delim k = false
  /\ clean k /\ starts_comment k = false.

Definition lines_ok (k : str) (ls : list str) : Prop :=
  ls <> [] /\ Forall clean ls /\ Forall (fun l => stripped l = true) ls
  /\ Forall (fun l => starts_comment l = false) (tl ls)
  /\ headerish (strip (k ++ L " = " ++ hd [] ls)) = false.

Definition entry_ok (kls : str * list str) : Prop :=
  key_ok (fst kls) /\ lines_ok (fst kls) (snd kls).

Definition raw_ok (raw : dict (list str)) : Prop :=
  NoDup (keys raw) /\ Forall entry_ok raw.

Definition section_ok (sd : str * dict (list str)) : Prop :=
  valid_name (fst sd) = true /\ raw_ok (snd sd).

Definition parser_ok (p : ConfigParser (list str)) : Prop :=
  NoDup (keys (_sections p)) /\ Forall section_ok (_sections p)
  /\ raw_ok (_defaults p).

(** The reader between two lines: its parser is in order and the section
    it is in has a valid name. *)
Definition reader_ok (st : reader) : Prop :=
  parser_ok (r_parser st)
  /\ forall n, cursect st = Sect n -> valid_name n = true.

(** The lines of a value without the empty lines at its end. *)
Fixpoint trim_blank (ls : list str) : list str :=
  match ls with
  | [] => []
  | l :: r => match trim_blank r with
              | [] => match l with [] => [] | _ => [l] end
              | r' => l :: r'
              end
  end.

(** A credentials file without the character [%]. *)
Definition plain_file (f : file_state) : bool :=
  match f with
  | Present _ _ text => negb (contains "%" text)
  | Missing _ => true
  end.

(** The mapping [read_ini_file_to_dict] builds from a parser: the
    defaults are merged into every section. *)
Definition merged (p : ConfigParser str) : dict (dict str) :=
  List.map (fun sd => (fst sd, update (_defaults p) (snd sd))) (_sections p).


(** The reader has met a header of section [n]. *)
Definition header_seen (n : str) (st : reader) : Prop :=
  In n (added_sections st) /\ mem n (_sections (r_parser st)) = true.

(** An option line at the left margin whose key, once normalised, is [k]. *)
Definition keyed_line (k : str) (l : str) : Prop :=
  is_comment l = false /\ first_nonspace l = 0 /\ sect_header (strip l) = None
  /\ exists opt val, opt_match (strip l) = Some (opt, val) /\ lower (rstrip opt) = k.

(** A line at the left margin that is neither a comment, a header nor an
    option. *)
Definition stray (l : str) : Prop :=
  is_comment l = false /\ strip l <> [] /\ first_nonspace l = 0
  /\ sect_header (strip l) = None /\ opt_match (strip l) = None.

(** The reader is in a section where key [k] has been met. *)
Definition key_seen (k : str) (st : reader) : Prop :=
  cursor_is_none (cursect st) = false
  /\ mem_pair (sectname st, k) (added_options st) = true.

End Canonical.

(** ** Sample data *)

Module Samples.

Import Py configparser aws_auth.

Definition text_of_lines (ls : list str) : str :=
  List.concat (List.map (fun l => l ++ [LF]) ls).

Definition path : str := L "/home/user/.aws/credentials".

Definition world_of (text : str) : world :=
  mkWorld path (Present true true text) [] [].

Definition session_creds : Credentials :=
  mkCredentials (L "ASIAEXAMPLEKEYID") (L "wJalrXUtnFEMI/K7MDENG+bPxRfiCY")
                (L "FQoGZXIvYXdzEJr//////////wEaDOIc=") (L "2026-11-05T06:00:00Z").

(** A provider for tests: a profile is found when the credentials file, as
    the tool reads it, has a section of that name; one device is
    registered; both requests return [session_creds]. *)
#[local] Instance file_provider : Provider := {|
  Session := str;
  boto3_Session := fun f profile =>
    match read_ini_file_to_dict f with
    | Ok d => if mem profile d then Ok profile else Raise (ProfileNotFound profile)
    | Raise _ => Raise (ClientError (L "ConfigParseError"))
    end;
  list_mfa_devices := fun _ =>
    Ok [mkDevice (L "arn:aws:iam::123456789012:mfa/tony.stark") (L "tony.stark")];
  get_session_token := fun _ _ _ _ => Ok session_creds;
  assume_role := fun _ _ _ _ _ _ => Ok session_creds
|}.

(** Text without white space, to compare two texts up to white space. *)
Definition without_space (s : str) : str :=
  filter (fun c => negb (isspace c)) s.

Definition is_alnum (c : ascii) : bool :=
  let n := nat_of_ascii c in
  ((48 <=? n) && (n <=? 57)) || ((65 <=? n) && (n <=? 90))
  || ((97 <=? n) && (n <=? 122)) || (n =? 95) || (n =? 45).

Definition representable (s : str) : bool :=
  match s with [] => false | _ => forallb is_alnum s end.

(** A text the parser accepts, whose section names and keys are made of
    letters, digits, [_] and [-], and whose values are on one line. *)
Definition well_formed (x : str) : bool :=
  match read_ini_file_to_dict (Present true true x) with
  | Ok d =>
      forallb (fun sd =>
                 representable (fst sd)
                 && forallb (fun kv => representable (fst kv)
                                       && negb (contains LF (snd kv)))
                            (snd sd)) d
  | Raise _ => false
  end.

Definition escaped_reference : str :=
  text_of_lines [L "[a]"; L "k = %%(x)s"; L "x = 1"].

Definition colon_delimited : str :=
  text_of_lines [L "[a]"; L "k: v"].

Definition default_with_percent : str :=
  text_of_lines [L "[default]"; L "a = x%%y"; L "b = 1"].

Definition default_twice_escaped : str :=
  text_of_lines [L "[default]"; L "k = %%%%(x)s"; L "x = 1"].

Definition one_section : str :=
  text_of_lines [L "[a]"; L "k = 1"].

Definition two_profiles : str :=
  text_of_lines [L "[default]"; L "aws_access_key_id = AKIADEFAULT";
                 L "aws_secret_access_key = defaultsecret"; L "";
                 L "[work]"; L "aws_access_key_id = AKIAWORK";
                 L "aws_secret_access_key = worksecret"; L "region = eu-west-1"].

(** The mapping read from [two_profiles]. *)
Definition two_profiles_dict : dict (dict str) :=
  [ (L "default", [ (L "aws_access_key_id", L "AKIADEFAULT");
                    (L "aws_secret_access_key", L "defaultsecret") ]);
    (L "work", [ (L "aws_access_key_id", L "AKIAWORK");
                 (L "aws_secret_access_key", L "worksecret");
                 (L "region", L "eu-west-1") ]) ].

(** A file whose [default] section holds keys the tool does not write,
    one of them with an escaped [%]. *)
Definition stale_target : str :=
  text_of_lines [L "[default]"; L "discount = 100%%"; L "region = us-east-1"; L "";
                 L "[work]"; L "aws_access_key_id = AKIAWORK"].

Definition stale_target_dict : dict (dict str) :=
  [ (L "default", [ (L "discount", L "100%"); (L "region", L "us-east-1") ]);
    (L "work", [ (L "aws_access_key_id", L "AKIAWORK") ]) ].

Definition one_section_dict : dict (dict str) :=
  [ (L "a", [ (L "k", L "1") ]) ].

(** The mapping read from [colon_delimited]. *)
Definition one_key_dict : dict (dict str) :=
  [ (L "a", [ (L "k", L "v") ]) ].


(** The characters of the keys and tokens the provider issues: letters,
    digits, [+], [/] and [=]. *)
Definition is_base64 (c : ascii) : bool :=
  let n := nat_of_ascii c in
  ((48 <=? n) && (n <=? 57)) || ((65 <=? n) && (n <=? 90))
  || ((97 <=? n) && (n <=? 122)) || (n =? 43) || (n =? 47) || (n =? 61).

Definition base64_credentials (c : Credentials) : bool :=
  forallb is_base64 (AccessKeyId c) && forallb is_base64 (SecretAccessKey c)
  && forallb is_base64 (SessionToken c).

(** The characters of a profile name: letters, digits, [_] and [-]. *)
Definition profile_name (P : str) : bool :=
  representable P && negb (str_eqb P DEFAULTSECT).

(** What a word character is not: white space, line break, [%], or the
    start of a comment. *)
Definition plain_chr (c : ascii) : bool :=
  negb (isspace c) && negb (chr_eqb c LF) && negb (chr_eqb c CR)
  && negb (chr_eqb c "%") && negb (chr_eqb c "#") && negb (chr_eqb c ";").

(** A credential whose session token holds a [%] that is no escape. *)
Definition percent_creds : Credentials :=
  mkCredentials (L "ASIAEXAMPLEKEYID") (L "wJalrXUtnFEMI/K7MDENG+bPxRfiCY")
                (L "FQoGZXIv%2FYXdz") (L "2026-11-05T06:00:00Z").

(** A file whose first line that counts is an option, before any header. *)
Definition headless : str :=
  text_of_lines [L "# my keys"; L ""; L "aws_access_key_id = AKIADEFAULT"; L "[default]"].

(** [two_profiles] with comment lines. *)
Definition two_profiles_commented : str :=
  text_of_lines [L "[default]"; L "aws_access_key_id = AKIADEFAULT";
                 L "; rotated in March";
                 L "aws_secret_access_key = defaultsecret"; L "";
                 L "[work]"; L "aws_access_key_id = AKIAWORK";
                 L "aws_secret_access_key = worksecret"; L "region = eu-west-1"].

(** A file in which the section [default] comes twice. *)
Definition default_twice : str :=
  text_of_lines [L "[default]"; L "aws_access_key_id = AKIADEFAULT"; L "";
                 L "[work]"; L "region = eu-west-1"; L "";
                 L "[default]"; L "aws_secret_access_key = defaultsecret"].

(** A file with a [DEFAULT] section, upper case in a key and a comment. *)
Definition with_defaults : str :=
  text_of_lines [L "[DEFAULT]"; L "region = eu-west-1"; L "output = json"; L "";
                 L "[default]"; L "AWS_ACCESS_KEY_ID = AKIADEFAULT"; L "";
                 L "[work]"; L "aws_access_key_id: AKIAWORK"; L "region = us-east-1"].

(** The parser after reading [with_defaults]. *)
Definition with_defaults_parser : ConfigParser str :=
  mkParser [ (L "default", [ (L "aws_access_key_id", L "AKIADEFAULT") ]);
             (L "work", [ (L "aws_access_key_id", L "AKIAWORK");
                          (L "region", L "us-east-1") ]) ]
           [ (L "region", L "eu-west-1"); (L "output", L "json") ].

(** A mapping with a value on several lines. *)
Definition multi_line_dict : dict (dict str) :=
  [ (L "default", [ (L "aws_access_key_id", L "AKIADEFAULT");
                    (L "note", L "first" ++ [LF] ++ L "second" ++ [LF; LF] ++ L "last") ]);
    (L "work", []) ].

(** A file in which a key comes twice in a section, in two cases. *)
Definition key_twice : str :=
  text_of_lines [L "[default]"; L "AWS_ACCESS_KEY_ID = AKIAOLD"; L "";
                 L "aws_access_key_id = AKIANEW"].

(** A file with a line that is neither a header nor an option. *)
Definition stray_line : str :=
  text_of_lines [L "[default]"; L "aws_access_key_id = AKIADEFAULT";
                 L "this line has no delimiter"; L "[work]"].

(** A provider for tests like [file_provider], whose account has no
    device. *)
#[local] Instance deviceless_provider : Provider := {|
  Session := str;
  boto3_Session := @boto3_Session file_provider;
  list_mfa_devices := fun _ => Ok [];
  get_session_token := fun _ _ _ _ => Ok session_creds;
  assume_role := fun _ _ _ _ _ _ => Ok session_creds
|}.

(** A provider for tests like [file_provider], whose account has two
    devices. *)
#[local] Instance two_device_provider : Provider := {|
  Session := str;
  boto3_Session := @boto3_Session file_provider;
  list_mfa_devices := fun _ =>
    Ok [mkDevice (L "arn:aws:iam::123456789012:mfa/tony.stark") (L "tony.stark");
        mkDevice (L "arn:aws:iam::123456789012:mfa/pepper.potts") (L "pepper.potts")];
  get_session_token := fun _ _ _ _ => Ok session_creds;
  assume_role := fun _ _ _ _ _ _ => Ok session_creds
|}.

End Samples.

(** * Properties *)

Unset Implicit Arguments.

Module StrFacts.
Import Py.

Lemma chr_eqb_eq a b : chr_eqb a b = true <-> a = b.
Proof. apply Ascii.eqb_eq. Qed.

Lemma chr_eqb_neq a b : chr_eqb a b = false <-> a <> b.
Proof. apply Ascii.eqb_neq. Qed.

Lemma chr_eqb_sym a b : chr_eqb a b = chr_eqb b a.
Proof. apply Ascii.eqb_sym. Qed.

Lemma chr_eqb_refl a : chr_eqb a a = true.
Proof. apply Ascii.eqb_refl. Qed.

Lemma str_eqb_eq a b : str_eqb a b = true <-> a = b.
Proof.
  unfold str_eqb. destruct (list_eq_dec ascii_dec a b); split; congruence.
Qed.

Lemma str_eqb_neq a b : str_eqb a b = false <-> a <> b.
Proof.
  unfold str_eqb. destruct (list_eq_dec ascii_dec a b); split; congruence.
Qed.

Lemma str_eqb_refl a : str_eqb a a = true.
Proof. apply str_eqb_eq. reflexivity. Qed.

Lemma str_eqb_sym a b : str_eqb a b = str_eqb b a.
Proof.
  destruct (str_eqb b a) eqn:E.
  - apply str_eqb_eq in E. subst. apply str_eqb_refl.
  - apply str_eqb_neq in E. apply str_eqb_neq. congruence.
Qed.

Lemma contains_false c s : contains c s = false <-> ~ In c s.
Proof.
  unfold contains. induction s as [|x r IH]; simpl.
  - tauto.
  - rewrite orb_false_iff, IH, chr_eqb_neq. intuition congruence.
Qed.

Lemma contains_app c a b : contains c (a ++ b) = contains c a || contains c b.
Proof. unfold contains. apply existsb_app. Qed.

(** *** [lstrip], [rstrip], [strip] *)

Lemma lstrip_nonspace c r : isspace c = false -> lstrip (c :: r) = c :: r.
Proof. intros H. simpl. now rewrite H. Qed.

Lemma rstrip_app_nonspace a c : isspace c = false -> rstrip (a ++ [c]) = a ++ [c].
Proof.
  intros H. induction a as [|x a IH]; simpl.
  - now rewrite H.
  - rewrite IH. destruct a; reflexivity.
Qed.

Lemma rstrip_nil_iff s : rstrip s = [] <-> forallb isspace s = true.
Proof.
  induction s as [|c r IH]; simpl.
  - tauto.
  - destruct (rstrip r) eqn:E.
    + destruct (isspace c); simpl; [tauto|]. split; discriminate.
    + split; [discriminate|]. rewrite andb_true_iff. intros [_ H].
      apply IH in H. discriminate.
Qed.

Lemma rstrip_idem s : rstrip (rstrip s) = rstrip s.
Proof.
  induction s as [|c r IH]; simpl; [reflexivity|].
  destruct (rstrip r) eqn:E.
  - destruct (isspace c) eqn:Ec; simpl; [reflexivity|]. now rewrite Ec.
  - simpl in *. rewrite IH. reflexivity.
Qed.

Lemma rstrip_cons_nonspace c r : isspace c = false -> rstrip (c :: r) = c :: rstrip r.
Proof. intros H. simpl. destruct (rstrip r); [now rewrite H | reflexivity]. Qed.

Lemma lstrip_idem s : lstrip (lstrip s) = lstrip s.
Proof.
  induction s as [|c r IH]; simpl; [reflexivity|].
  destruct (isspace c) eqn:E; [assumption|]. simpl. now rewrite E.
Qed.

Lemma lstrip_head s : match lstrip s with c :: _ => isspace c = false | [] => True end.
Proof.
  induction s as [|c r IH]; simpl; [exact I|].
  destruct (isspace c) eqn:E; [assumption | assumption].
Qed.

Lemma lstrip_rstrip_lstrip s : lstrip (rstrip (lstrip s)) = rstrip (lstrip s).
Proof.
  pose proof (lstrip_head s) as H. destruct (lstrip s) as [|c r]; [reflexivity|].
  rewrite (rstrip_cons_nonspace c r H). now apply lstrip_nonspace.
Qed.

Lemma strip_lstrip s : lstrip (strip s) = strip s.
Proof. apply lstrip_rstrip_lstrip. Qed.

Lemma strip_rstrip s : rstrip (strip s) = strip s.
Proof. apply rstrip_idem. Qed.

Lemma strip_id s : lstrip s = s -> rstrip s = s -> strip s = s.
Proof. unfold strip. intros -> ->. reflexivity. Qed.

Lemma rstrip_app_space a : rstrip (a ++ [" "%char]) = rstrip a.
Proof.
  induction a as [|x a IH]; simpl; [reflexivity|]. now rewrite IH.
Qed.

Lemma rstrip_app_LF a : rstrip (a ++ [LF]) = rstrip a.
Proof.
  induction a as [|x a IH]; simpl; [reflexivity|]. now rewrite IH.
Qed.

End StrFacts.

Module LineFacts.
Import Py StrFacts.

Lemma universal_newlines_id s : contains CR s = false -> universal_newlines s = s.
Proof.
  unfold contains. induction s as [|c r IH]; simpl; [reflexivity|].
  rewrite orb_false_iff. intros [Hc Hr].
  rewrite chr_eqb_sym in Hc. rewrite Hc.
  now rewrite IH.
Qed.

Lemma split_nl_not_nil s : split_nl s <> [].
Proof.
  destruct s as [|c r]; simpl; [discriminate|].
  destruct (chr_eqb c LF); [discriminate|]. destruct (split_nl r); discriminate.
Qed.

Lemma split_nl_app a b :
  contains LF a = false -> split_nl (a ++ LF :: b) = a :: split_nl b.
Proof.
  unfold contains. induction a as [|c r IH]; simpl.
  - intros _. reflexivity.
  - rewrite orb_false_iff. intros [Hc Hr].
    rewrite chr_eqb_sym in Hc. rewrite Hc.
    now rewrite IH.
Qed.

Lemma split_nl_single a : contains LF a = false -> split_nl a = [a].
Proof.
  unfold contains. induction a as [|c r IH]; simpl; [reflexivity|].
  rewrite orb_false_iff. intros [Hc Hr].
  rewrite chr_eqb_sym in Hc. rewrite Hc.
  now rewrite IH.
Qed.

Lemma split_nl_no_LF s : Forall (fun l => contains LF l = false) (split_nl s).
Proof.
  induction s as [|c r IH]; simpl.
  - constructor; [reflexivity | constructor].
  - destruct (chr_eqb c LF) eqn:E.
    + constructor; [reflexivity | assumption].
    + destruct (split_nl r) as [|l ls].
      * constructor; [|constructor]. unfold contains. simpl.
        rewrite chr_eqb_sym. now rewrite E.
      * inversion IH; subst. constructor; [|assumption].
        unfold contains in *. simpl. rewrite chr_eqb_sym. now rewrite E.
Qed.

Lemma join_split_nl s : join_lines (split_nl s) = s.
Proof.
  induction s as [|c r IH]; simpl; [reflexivity|].
  destruct (chr_eqb c LF) eqn:E.
  - apply chr_eqb_eq in E. subst c.
    pose proof (split_nl_not_nil r) as Hn.
    destruct (split_nl r) as [|l ls]; [congruence|].
    simpl in *. now rewrite IH.
  - pose proof (split_nl_not_nil r) as Hn.
    destruct (split_nl r) as [|l ls]; [congruence|].
    destruct ls as [|l' ls']; simpl in *; now rewrite <- IH.
Qed.

Lemma join_lines_snoc ls l :
  ls <> [] -> join_lines (ls ++ [l]) = join_lines ls ++ LF :: l.
Proof.
  induction ls as [|x r IH]; [congruence|]. intros _.
  destruct r as [|y r'].
  - reflexivity.
  - change (join_lines ((x :: y :: r') ++ [l]))
      with (x ++ LF :: join_lines ((y :: r') ++ [l])).
    rewrite IH by discriminate.
    change (join_lines (x :: y :: r')) with (x ++ LF :: join_lines (y :: r')).
    now rewrite <- app_assoc.
Qed.

Lemma readlines_app l rest :
  contains LF l = false -> readlines (l ++ LF :: rest) = l :: readlines rest.
Proof.
  unfold contains. induction l as [|c r IH]; simpl.
  - intros _. reflexivity.
  - rewrite orb_false_iff. intros [Hc Hr].
    rewrite chr_eqb_sym in Hc. rewrite Hc.
    now rewrite IH.
Qed.

(** The lines of a written value: [replace_nl] puts a tab in front of
    every line but the first. *)
Lemma readlines_replace_nl v pre rest :
  contains LF pre = false ->
  readlines (pre ++ replace_nl v ++ LF :: rest)
  = match split_nl v with
    | l0 :: ls => (pre ++ l0) :: List.map (fun l => TAB :: l) ls ++ readlines rest
    | [] => []
    end.
Proof.
  revert pre. induction v as [|c r IH]; intros pre Hpre.
  - simpl. rewrite app_nil_r. now apply readlines_app.
  - pose proof (split_nl_not_nil r) as Hn.
    simpl. destruct (chr_eqb c LF) eqn:E.
    + rewrite app_nil_r.
      change (pre ++ (LF :: TAB :: replace_nl r) ++ LF :: rest)
        with (pre ++ LF :: ([TAB] ++ replace_nl r ++ LF :: rest)).
      rewrite readlines_app by assumption.
      rewrite (IH [TAB] eq_refl).
      destruct (split_nl r) as [|l ls]; [congruence|]. reflexivity.
    + change (pre ++ (c :: replace_nl r) ++ LF :: rest)
        with (pre ++ [c] ++ replace_nl r ++ LF :: rest).
      rewrite app_assoc. rewrite IH.
      * destruct (split_nl r) as [|l ls]; [congruence|].
        now rewrite <- app_assoc.
      * rewrite contains_app, Hpre. unfold contains. simpl.
        rewrite chr_eqb_sym. now rewrite E.
Qed.

End LineFacts.

Module ResFacts.

Lemma rfold_app {A S} (f : S -> A -> res S) a b s :
  rfold f (a ++ b) s = rbind (rfold f a s) (rfold f b).
Proof.
  revert s. induction a as [|x r IH]; intros s; simpl; [reflexivity|].
  destruct (f s x); simpl; [apply IH | reflexivity].
Qed.

Lemma rmap_ok {A B} (f : A -> res B) (g : A -> B) l :
  (forall a, In a l -> f a = Ok (g a)) -> rmap f l = Ok (List.map g l).
Proof.
  induction l as [|x r IH]; intros H; simpl; [reflexivity|].
  rewrite (H x) by (now left). simpl.
  rewrite IH by (intros a Ha; apply H; now right). reflexivity.
Qed.

End ResFacts.

Module DictFacts.
Import StrFacts.

Lemma get_None_notin {V} k (d : dict V) : get k d = None <-> ~ In k (keys d).
Proof.
  induction d as [|[k' v] r IH]; simpl.
  - tauto.
  - destruct (str_eqb k k') eqn:E.
    + apply str_eqb_eq in E. subst. split; [discriminate | intros H; exfalso; apply H; now left].
    + apply str_eqb_neq in E. rewrite IH. intuition congruence.
Qed.

Lemma mem_false {V} k (d : dict V) : mem k d = false <-> get k d = None.
Proof. unfold mem. destruct (get k d); split; congruence. Qed.

Lemma set_notin {V} k v (d : dict V) : get k d = None -> set k v d = d ++ [(k, v)].
Proof.
  induction d as [|[k' v'] r IH]; simpl; [reflexivity|].
  destruct (str_eqb k k'); [discriminate|]. intros H. now rewrite IH.
Qed.

Lemma get_snoc {V} k v (d : dict V) : get k d = None -> get k (d ++ [(k, v)]) = Some v.
Proof.
  induction d as [|[k' v'] r IH]; simpl.
  - now rewrite str_eqb_refl.
  - destruct (str_eqb k k'); [discriminate | assumption].
Qed.

Lemma set_snoc {V} k v v' (d : dict V) :
  get k d = None -> set k v' (d ++ [(k, v)]) = d ++ [(k, v')].
Proof.
  induction d as [|[k0 v0] r IH]; simpl.
  - now rewrite str_eqb_refl.
  - destruct (str_eqb k k0); [discriminate|]. intros H. now rewrite IH.
Qed.

Lemma get_set_same {V} k v (d : dict V) : get k (set k v d) = Some v.
Proof.
  induction d as [|[k' v'] r IH]; simpl.
  - now rewrite str_eqb_refl.
  - destruct (str_eqb k k') eqn:E; simpl.
    + now rewrite str_eqb_refl.
    + now rewrite E.
Qed.

Lemma get_set_other {V} k k' v (d : dict V) : k' <> k -> get k' (set k v d) = get k' d.
Proof.
  intros Hne. induction d as [|[k0 v0] r IH]; simpl.
  - apply str_eqb_neq in Hne. now rewrite Hne.
  - destruct (str_eqb k k0) eqn:E; simpl.
    + apply str_eqb_eq in E. subst k0.
      apply str_eqb_neq in Hne. now rewrite Hne.
    + destruct (str_eqb k' k0); [reflexivity | assumption].
Qed.

Lemma keys_set_in {V} k v (d : dict V) : get k d <> None -> keys (set k v d) = keys d.
Proof.
  induction d as [|[k0 v0] r IH]; simpl; [congruence|].
  destruct (str_eqb k k0) eqn:E; simpl.
  - apply str_eqb_eq in E. now subst.
  - intros H. now rewrite IH.
Qed.

Lemma keys_set_notin {V} k v (d : dict V) : get k d = None -> keys (set k v d) = keys d ++ [k].
Proof.
  intros H. rewrite set_notin by assumption. unfold keys. now rewrite map_app.
Qed.

Lemma set_same {V} k v (d : dict V) : get k d = Some v -> set k v d = d.
Proof.
  induction d as [|[k0 v0] r IH]; simpl; [discriminate|].
  destruct (str_eqb k k0) eqn:E.
  - apply str_eqb_eq in E. subst. now intros [= ->].
  - intros H. now rewrite IH.
Qed.

Lemma set_set {V} k v v' (d : dict V) : set k v (set k v' d) = set k v d.
Proof.
  induction d as [|[k0 v0] r IH]; simpl.
  - now rewrite str_eqb_refl.
  - destruct (str_eqb k k0) eqn:E; simpl.
    + now rewrite str_eqb_refl.
    + now rewrite E, IH.
Qed.

End DictFacts.

Module ClassifyFacts.
Import Py configparser Canonical StrFacts LineFacts.

Lemma rstrip_app_r a b : rstrip b <> [] -> rstrip (a ++ b) = a ++ rstrip b.
Proof.
  intros Hb. induction a as [|x a IH]; simpl; [reflexivity|].
  rewrite IH. destruct (a ++ rstrip b) eqn:E; [|reflexivity].
  apply app_eq_nil in E. tauto.
Qed.

Lemma stripped_spec s : stripped s = true <-> lstrip s = s /\ rstrip s = s.
Proof. unfold stripped. now rewrite andb_true_iff, !str_eqb_eq. Qed.

Lemma lstrip_fix_head s :
  lstrip s = s -> match s with c :: _ => isspace c = false | [] => True end.
Proof. intros H. rewrite <- H. apply lstrip_head. Qed.

Lemma upto_last_snoc c a : upto_last c (a ++ [c]) = Some a.
Proof.
  induction a as [|x r IH]; simpl.
  - now rewrite chr_eqb_refl.
  - now rewrite IH.
Qed.

Lemma nonempty_spec s : nonempty s = true <-> s <> [].
Proof. destruct s; simpl; split; congruence. Qed.

(** *** A header line *)

Section Header.
Variable n : str.
Hypothesis Hn : n <> [].

Let h := L "[" ++ n ++ L "]".

Lemma header_strip : strip h = h.
Proof.
  unfold strip, h.
  change (lstrip (L "[" ++ n ++ L "]")) with (("["%char :: n) ++ ["]"%char]).
  now apply rstrip_app_nonspace.
Qed.

Lemma header_not_comment : is_comment h = false.
Proof. unfold is_comment. rewrite header_strip. reflexivity. Qed.

Lemma header_indent : first_nonspace h = 0.
Proof. reflexivity. Qed.

Lemma header_match : sect_header h = Some n.
Proof.
  unfold sect_header, h. simpl. rewrite upto_last_snoc.
  destruct n; [congruence | reflexivity].
Qed.
End Header.

(** *** The first line of an option *)

Lemma split_delim_app a c b :
  existsb is_delim a = false -> is_delim c = true ->
  split_delim (a ++ c :: b) = Some (a, b).
Proof.
  intros Ha Hc. induction a as [|x r IH]; simpl in *.
  - now rewrite Hc.
  - apply orb_false_iff in Ha as [Hx Hr]. now rewrite Hx, IH.
Qed.

Lemma valid_key_spec k :
  valid_key k = true ->
  k <> [] /\ lstrip k = k /\ rstrip k = k /\ lower k = k
  /\ existsb is_delim k = false /\ contains LF k = false
  /\ contains CR k = false /\ starts_comment k = false.
Proof.
  unfold valid_key. rewrite !andb_true_iff, !negb_true_iff.
  rewrite nonempty_spec, stripped_spec, str_eqb_eq. tauto.
Qed.

Section OptionLine.
Variables k l0 : str.
Hypothesis Hk : valid_key k = true.
Hypothesis Hl : stripped l0 = true.

Let o := k ++ L " = " ++ l0.

Lemma key_head : exists c r, k = c :: r /\ isspace c = false
                             /\ (chr_eqb c "#" || chr_eqb c ";") = false.
Proof.
  pose proof Hk as Hk'.
  apply valid_key_spec in Hk' as (Hne & Hls & _ & _ & _ & _ & _ & Hc).
  apply lstrip_fix_head in Hls. destruct k as [|c r]; [congruence|].
  exists c, r. simpl in Hc. auto.
Qed.

Lemma option_lstrip : lstrip o = o.
Proof.
  destruct key_head as (c & r & -> & Hc & _). unfold o. simpl. now rewrite Hc.
Qed.

Lemma option_strip :
  strip o = match l0 with [] => k ++ L " =" | _ => o end.
Proof.
  unfold strip. rewrite option_lstrip. unfold o.
  pose proof Hl as Hl'. apply stripped_spec in Hl' as [_ Hr].
  destruct l0 as [|c r] eqn:El.
  - change (k ++ L " = " ++ []) with (k ++ L " =" ++ [" "%char]).
    rewrite app_assoc, rstrip_app_space.
    change (k ++ L " =") with (k ++ [" "%char] ++ ["="%char]).
    rewrite app_assoc. now apply rstrip_app_nonspace.
  - rewrite app_assoc. rewrite rstrip_app_r; rewrite Hr; [|discriminate].
    now rewrite <- app_assoc.
Qed.

Lemma option_strip_nonempty : strip o <> [].
Proof.
  rewrite option_strip. destruct key_head as (c & r & -> & _).
  unfold o. destruct l0; discriminate.
Qed.

Lemma option_not_comment : is_comment o = false.
Proof.
  unfold is_comment. rewrite option_strip.
  destruct key_head as (c & r & -> & _ & Hc). unfold o.
  destruct l0; simpl; exact Hc.
Qed.

Lemma option_indent : first_nonspace o = 0.
Proof.
  destruct key_head as (c & r & -> & Hc & _). unfold o. simpl. now rewrite Hc.
Qed.

Lemma option_match : opt_match (strip o) = Some (k, l0).
Proof.
  pose proof Hk as Hk'.
  apply valid_key_spec in Hk' as (Hne & _ & Hrs & _ & Hd & _).
  pose proof Hl as Hl'. apply stripped_spec in Hl' as [Hll _].
  unfold opt_match. rewrite option_strip. unfold o.
  destruct l0 as [|c r] eqn:El.
  - change (k ++ L " =") with (k ++ [" "%char] ++ "="%char :: []).
    rewrite app_assoc.
    rewrite split_delim_app; [| |reflexivity].
    + rewrite rstrip_app_space, Hrs. reflexivity.
    + rewrite existsb_app, Hd. reflexivity.
  - change (k ++ L " = " ++ c :: r)
      with (k ++ [" "%char] ++ "="%char :: " "%char :: c :: r).
    rewrite app_assoc.
    rewrite split_delim_app; [| |reflexivity].
    + rewrite rstrip_app_space, Hrs.
      change (lstrip (" "%char :: c :: r)) with (lstrip (c :: r)).
      now rewrite Hll.
    + rewrite existsb_app, Hd. reflexivity.
Qed.
End OptionLine.

(** *** A continuation line *)

Section Continuation.
Variable l : str.
Hypothesis Hl : stripped l = true.
Hypothesis Hc : starts_comment l = false.

Lemma cont_strip : strip (TAB :: l) = l.
Proof.
  pose proof Hl as Hl'. apply stripped_spec in Hl' as [Hll Hlr]. unfold strip.
  change (lstrip (TAB :: l)) with (lstrip l). now rewrite Hll.
Qed.

Lemma cont_not_comment : is_comment (TAB :: l) = false.
Proof.
  unfold is_comment. rewrite cont_strip. destruct l; [reflexivity | exact Hc].
Qed.

Lemma cont_indent : l <> [] -> first_nonspace (TAB :: l) = 1.
Proof.
  intros Hne. pose proof Hl as Hl'. apply stripped_spec in Hl' as [Hll _].
  pose proof (lstrip_fix_head l Hll) as Hh.
  change (first_nonspace (TAB :: l))
    with (match lstrip l with [] => 0 | _ => S (first_nonspace l) end).
  rewrite Hll. destruct l as [|c r]; [congruence|].
  simpl. now rewrite Hh.
Qed.
End Continuation.

End ClassifyFacts.

Module ReaderFacts.
Import Py configparser Canonical StrFacts LineFacts ResFacts DictFacts ClassifyFacts.

Lemma valid_name_spec n :
  valid_name n = true ->
  n <> [] /\ contains LF n = false /\ contains CR n = false
  /\ str_eqb n DEFAULTSECT = false.
Proof.
  unfold valid_name. rewrite !andb_true_iff, !negb_true_iff, nonempty_spec. tauto.
Qed.

Lemma step_header st n :
  valid_name n = true ->
  get n (_sections (r_parser st)) = None ->
  read_line st (L "[" ++ n ++ L "]")
  = Ok (sec_state (_sections (r_parser st)) (_defaults (r_parser st)) n [] None
                  (n :: added_sections st) (added_options st) (pending_error st)).
Proof.
  intros Hv Hget. apply valid_name_spec in Hv as (Hne & _ & _ & Hd).
  unfold read_line.
  rewrite header_not_comment, header_strip by assumption.
  change (L "[" ++ n ++ L "]") with ("["%char :: n ++ L "]") at 1.
  cbv iota beta zeta.
  rewrite header_indent, header_match by assumption.
  replace (indent_level st <? 0) with false by (symmetry; apply Nat.ltb_ge; lia).
  rewrite !andb_false_r.
  unfold read_header, set_indent. cbn [r_parser added_sections added_options
    pending_error indent_level _sections _defaults].
  apply mem_false in Hget as Hm. rewrite Hm, Hd.
  rewrite set_notin by assumption. reflexivity.
Qed.

Section InSection.
Variables (S : dict (dict (list str))) (df : dict (list str)) (n : str).
Hypothesis HS : get n S = None.

Lemma cursect_dict_sec raw optk ads ado err :
  cursect_dict (sec_state S df n raw optk ads ado err) = Some raw.
Proof. unfold cursect_dict, sec_state. cbn. now apply get_snoc. Qed.

Lemma cursect_store_sec raw optk ads ado err d :
  cursect_store (sec_state S df n raw optk ads ado err) d
  = mkParser (S ++ [(n, d)]) df.
Proof. unfold cursect_store, sec_state. cbn. now rewrite set_snoc. Qed.

Lemma step_option raw optk ads ado err k l0 :
  valid_key k = true -> stripped l0 = true ->
  sect_header (strip (k ++ L " = " ++ l0)) = None ->
  get k raw = None ->
  mem_pair (Some n, k) ado = false ->
  read_line (sec_state S df n raw optk ads ado err) (k ++ L " = " ++ l0)
  = Ok (sec_state S df n (raw ++ [(k, [l0])]) (Some k) ads
                  ((Some n, k) :: ado) err).
Proof.
  intros Hk Hl Hsh Hget Hdup.
  pose proof (option_strip_nonempty k l0 Hk Hl) as Hne.
  pose proof (option_match k l0 Hk Hl) as Hm.
  unfold read_line.
  rewrite (option_not_comment k l0 Hk Hl), (option_indent k l0 Hk).
  cbv zeta. cbn [negb].
  destruct (strip (k ++ L " = " ++ l0)) as [|c r] eqn:Es; [congruence|].
  replace (indent_level (sec_state S df n raw optk ads ado err) <? 0)
    with false by reflexivity.
  rewrite !andb_false_r. rewrite Hsh.
  change (cursor_is_none (cursect (sec_state S df n raw optk ads ado err)))
    with false. cbv iota.
  unfold read_option. rewrite Hm.
  apply valid_key_spec in Hk as (Hkne & _ & Hrs & Hlow & _).
  rewrite Hrs, Hlow.
  change (sectname (set_indent (sec_state S df n raw optk ads ado err) 0))
    with (Some n).
  change (added_options (set_indent (sec_state S df n raw optk ads ado err) 0))
    with ado.
  rewrite Hdup.
  change (set_indent (sec_state S df n raw optk ads ado err) 0)
    with (sec_state S df n raw optk ads ado err).
  rewrite cursect_dict_sec, cursect_store_sec.
  apply stripped_spec in Hl as [Hll Hlr].
  rewrite (strip_id l0 Hll Hlr), set_notin by assumption.
  destruct k; [congruence|]. reflexivity.
Qed.

Lemma step_cont raw k ls ads ado err l :
  k <> [] -> get k raw = None ->
  stripped l = true -> starts_comment l = false ->
  read_line (sec_state S df n (raw ++ [(k, ls)]) (Some k) ads ado err) (TAB :: l)
  = Ok (sec_state S df n (raw ++ [(k, ls ++ [l])]) (Some k) ads ado err).
Proof.
  intros Hk Hget Hl Hc. unfold read_line.
  rewrite (cont_not_comment l Hl Hc), (cont_strip l Hl). cbv zeta.
  assert (Ht : truthy (Some k) = true) by (destruct k; [congruence | reflexivity]).
  destruct l as [|c r].
  - cbn [negb cursor_is_none cursect optname sec_state andb]. rewrite Ht.
    unfold append_value. rewrite cursect_dict_sec.
    cbn [optname sec_state]. rewrite get_snoc by assumption.
    rewrite cursect_store_sec, set_snoc by assumption. reflexivity.
  - rewrite (cont_indent (c :: r) Hl Hc) by discriminate.
    cbn [negb cursor_is_none cursect optname sec_state andb indent_level].
    rewrite Ht. change (0 <? 1) with true. cbn [andb].
    unfold append_value. rewrite cursect_dict_sec.
    cbn [optname sec_state]. rewrite get_snoc by assumption.
    rewrite cursect_store_sec, set_snoc by assumption. reflexivity.
Qed.

Lemma steps_cont ls' : forall raw k ls ads ado err,
  k <> [] -> get k raw = None ->
  forallb stripped ls' = true ->
  forallb (fun l => negb (starts_comment l)) ls' = true ->
  rfold read_line (List.map (fun l => TAB :: l) ls')
        (sec_state S df n (raw ++ [(k, ls)]) (Some k) ads ado err)
  = Ok (sec_state S df n (raw ++ [(k, ls ++ ls')]) (Some k) ads ado err).
Proof.
  induction ls' as [|l r IH]; intros raw k ls ads ado err Hk Hget Hs Hc.
  - simpl. now rewrite app_nil_r.
  - simpl in Hs, Hc. apply andb_true_iff in Hs as [Hs1 Hs2].
    apply andb_true_iff in Hc as [Hc1 Hc2]. apply negb_true_iff in Hc1.
    simpl. rewrite step_cont by assumption. simpl.
    rewrite IH by assumption. now rewrite <- app_assoc.
Qed.

Lemma step_blank_open raw k ls ads ado err :
  k <> [] -> get k raw = None ->
  read_line (sec_state S df n (raw ++ [(k, ls)]) (Some k) ads ado err) []
  = Ok (sec_state S df n (raw ++ [(k, ls ++ [[]])]) (Some k) ads ado err).
Proof.
  intros Hk Hget. unfold read_line.
  assert (Ht : truthy (Some k) = true) by (destruct k; [congruence | reflexivity]).
  change (is_comment []) with false. cbv zeta.
  change (strip []) with (@nil ascii). cbv iota.
  cbn [negb cursor_is_none cursect optname sec_state andb]. rewrite Ht.
  unfold append_value. rewrite cursect_dict_sec.
  cbn [optname sec_state]. rewrite get_snoc by assumption.
  rewrite cursect_store_sec, set_snoc by assumption. reflexivity.
Qed.

Lemma step_blank_none raw ads ado err :
  read_line (sec_state S df n raw None ads ado err) []
  = Ok (sec_state S df n raw None ads ado err).
Proof. reflexivity. Qed.

End InSection.

End ReaderFacts.

Module SectionFacts.
Import Py configparser Canonical StrFacts LineFacts ResFacts DictFacts ClassifyFacts ReaderFacts.

Lemma mem_str_false k l : mem_str k l = false <-> ~ In k l.
Proof.
  unfold mem_str. induction l as [|x r IH]; simpl.
  - tauto.
  - rewrite orb_false_iff, IH, str_eqb_neq. intuition congruence.
Qed.

Lemma nodup_keys_spec l : nodup_keys l = true <-> NoDup l.
Proof.
  induction l as [|x r IH]; simpl.
  - split; [constructor | reflexivity].
  - rewrite andb_true_iff, negb_true_iff, mem_str_false, IH.
    split; [intros [H1 H2]; now constructor | intros H; now inversion H].
Qed.

Lemma get_app_None {V} k (a b : dict V) :
  get k (a ++ b) = None <-> get k a = None /\ get k b = None.
Proof.
  rewrite !get_None_notin. unfold keys. rewrite map_app, in_app_iff. tauto.
Qed.

Lemma valid_value_spec v :
  valid_value v = true ->
  contains "%" v = false /\ contains CR v = false
  /\ forallb stripped (split_nl v) = true
  /\ forallb (fun l => negb (starts_comment l)) (tl (split_nl v)) = true
  /\ rstrip v = v.
Proof.
  unfold valid_value. rewrite !andb_true_iff, !negb_true_iff, str_eqb_eq. tauto.
Qed.

Lemma valid_item_spec k v :
  valid_item (k, v) = true ->
  valid_key k = true /\ valid_value v = true
  /\ sect_header (strip (k ++ L " = " ++ hd [] (split_nl v))) = None.
Proof.
  unfold valid_item, option_line. cbn [fst snd]. rewrite !andb_true_iff.
  intros [[H1 H2] H3]. repeat split; try assumption.
  destruct (sect_header _); [discriminate | reflexivity].
Qed.

Lemma mem_pair_cons_other n k k' ado :
  k' <> k -> mem_pair (Some n, k') ((Some n, k) :: ado) = mem_pair (Some n, k') ado.
Proof.
  intros H. unfold mem_pair. simpl. unfold opt_pair_eqb at 1. cbn [fst snd].
  apply str_eqb_neq in H. now rewrite H, andb_false_r.
Qed.

Lemma mem_pair_other_section n n' (items : dict str) k ado :
  n' <> n ->
  mem_pair (Some n', k) (rev (pairs n items) ++ ado) = mem_pair (Some n', k) ado.
Proof.
  intros H. unfold mem_pair. rewrite existsb_app.
  replace (existsb (opt_pair_eqb (Some n', k)) (rev (pairs n items))) with false;
    [reflexivity|].
  symmetry. apply not_true_is_false. intros He.
  apply existsb_exists in He as (x & Hx & Hp).
  apply in_rev in Hx. unfold pairs in Hx. apply in_map_iff in Hx as (kv & <- & _).
  unfold opt_pair_eqb in Hp. cbn [fst snd] in Hp.
  apply andb_true_iff in Hp as [Hp _]. apply str_eqb_eq in Hp. congruence.
Qed.

Section InSection.
Variables (S : dict (dict (list str))) (df : dict (list str)) (n : str).
Hypothesis HS : get n S = None.

Lemma step_item raw optk ads ado err k v :
  valid_item (k, v) = true ->
  get k raw = None ->
  mem_pair (Some n, k) ado = false ->
  rfold read_line (item_lines (k, v)) (sec_state S df n raw optk ads ado err)
  = Ok (sec_state S df n (raw ++ [(k, split_nl v)]) (Some k) ads
                  ((Some n, k) :: ado) err).
Proof.
  intros Hv Hget Hdup.
  apply valid_item_spec in Hv as (Hk & Hval & Hsh).
  apply valid_value_spec in Hval as (_ & _ & Hst & Hco & _).
  unfold item_lines. cbn [fst snd].
  pose proof (split_nl_not_nil v) as Hne.
  destruct (split_nl v) as [|l0 ls]; [congruence|].
  cbn [hd tl] in *. simpl in Hst. apply andb_true_iff in Hst as [Hs0 Hss].
  cbn [rfold]. rewrite (step_option S df n HS) by assumption. cbn [rbind].
  apply valid_key_spec in Hk as (Hkne & _).
  rewrite (steps_cont S df n HS) by assumption. reflexivity.
Qed.

Lemma steps_items items : forall raw optk ado ads err,
  forallb valid_item items = true ->
  NoDup (keys items) ->
  (forall k, In k (keys items) -> get k raw = None) ->
  (forall k, In k (keys items) -> mem_pair (Some n, k) ado = false) ->
  rfold read_line (List.concat (List.map item_lines items))
        (sec_state S df n raw optk ads ado err)
  = Ok (sec_state S df n (raw ++ raw_items items)
                  (match last_key items with Some k => Some k | None => optk end)
                  ads (rev (pairs n items) ++ ado) err).
Proof.
  induction items as [|[k v] r IH]; intros raw optk ado ads err Hv Hnd Hraw Hado.
  - simpl. now rewrite app_nil_r.
  - simpl in Hv. apply andb_true_iff in Hv as [Hv1 Hv2].
    cbn [keys List.map fst] in Hnd, Hraw, Hado. inversion Hnd as [|? ? Hnin Hnd']; subst.
    cbn [List.map List.concat]. rewrite rfold_app.
    rewrite step_item; [| assumption | apply Hraw; now left | apply Hado; now left].
    cbn [rbind]. rewrite IH; try assumption.
    + f_equal. unfold sec_state. f_equal.
      * f_equal. f_equal. f_equal. unfold raw_items. cbn [List.map fst snd].
        now rewrite <- app_assoc.
      * unfold last_key. cbn [rev].
        destruct (rev r) as [|[k' v'] r'] eqn:Er; reflexivity.
      * unfold pairs. cbn [List.map rev fst]. now rewrite <- app_assoc.
    + intros k' Hk'. apply get_app_None. split; [apply Hraw; now right|].
      simpl. assert (k' <> k) by (intros ->; contradiction).
      apply str_eqb_neq in H. now rewrite H.
    + intros k' Hk'. rewrite mem_pair_cons_other; [apply Hado; now right|].
      intros ->; contradiction.
Qed.

End InSection.

Lemma close_section_snoc (raw : dict (list str)) k ls :
  get k raw = None ->
  close_section (raw ++ [(k, ls)]) = raw ++ [(k, ls ++ [[]])].
Proof.
  intros H. unfold close_section. rewrite rev_app_distr. cbn [rev app].
  now apply set_snoc.
Qed.

Lemma keys_raw_items items : keys (raw_items items) = keys items.
Proof. unfold keys, raw_items. rewrite map_map. reflexivity. Qed.

Lemma valid_section_spec items :
  valid_section items = true ->
  NoDup (keys items) /\ forallb valid_item items = true.
Proof.
  unfold valid_section. now rewrite andb_true_iff, nodup_keys_spec.
Qed.

Lemma step_section st n items :
  valid_name n = true -> valid_section items = true ->
  get n (_sections (r_parser st)) = None ->
  (forall k, mem_pair (Some n, k) (added_options st) = false) ->
  rfold read_line (section_lines (n, items)) st
  = Ok (sec_state (_sections (r_parser st)) (_defaults (r_parser st)) n
                  (close_section (raw_items items)) (last_key items)
                  (n :: added_sections st)
                  (rev (pairs n items) ++ added_options st)
                  (pending_error st)).
Proof.
  intros Hn Hsec Hget Hado.
  apply valid_section_spec in Hsec as [Hnd Hv].
  unfold section_lines. cbn [fst snd rfold].
  rewrite step_header by assumption. cbn [rbind].
  rewrite rfold_app.
  rewrite (steps_items _ _ n Hget); try assumption;
    [| intros; reflexivity | intros; apply Hado].
  cbn [rbind rfold app].
  destruct (rev items) as [|[k v] ri] eqn:Er.
  - apply (f_equal (@rev _)) in Er. rewrite rev_involutive in Er. subst items.
    cbn. reflexivity.
  - apply (f_equal (@rev _)) in Er. rewrite rev_involutive in Er. cbn [rev] in Er.
    subst items.
    assert (Hk : get k (raw_items (rev ri)) = None).
    { apply get_None_notin. rewrite keys_raw_items.
      unfold keys in Hnd. rewrite map_app in Hnd. cbn in Hnd.
      apply NoDup_remove_2 in Hnd. now rewrite app_nil_r in Hnd. }
    assert (Hkne : k <> []).
    { rewrite forallb_app in Hv. apply andb_true_iff in Hv as [_ Hv].
      simpl in Hv. rewrite andb_true_r in Hv.
      apply valid_item_spec in Hv as (Hvk & _).
      now apply valid_key_spec in Hvk. }
    unfold last_key. rewrite rev_app_distr. cbn [rev app].
    unfold raw_items at 1. rewrite map_app. cbn [List.map fst snd].
    fold (raw_items (rev ri)).
    rewrite (step_blank_open _ _ n Hget) by assumption. cbn [rbind].
    unfold raw_items at 2. rewrite map_app. cbn [List.map fst snd].
    fold (raw_items (rev ri)).
    now rewrite close_section_snoc.
Qed.

End SectionFacts.

Module ParserFacts.
Import Py configparser Canonical StrFacts LineFacts ResFacts DictFacts
       ClassifyFacts ReaderFacts SectionFacts.

Lemma valid_dict_spec d :
  valid_dict d = true <-> NoDup (keys d) /\ Forall valid_entry d.
Proof.
  unfold valid_dict. rewrite andb_true_iff, nodup_keys_spec, forallb_forall, Forall_forall.
  unfold valid_entry. split; intros [H1 H2]; split; try assumption;
    intros x Hx; specialize (H2 x Hx); now rewrite andb_true_iff in *.
Qed.

Lemma parser_eta {V} (p : ConfigParser V) : p = mkParser (_sections p) (_defaults p).
Proof. now destruct p. Qed.

Lemma steps_sections d : forall st,
  NoDup (keys d) -> Forall valid_entry d ->
  (forall n, In n (keys d) -> get n (_sections (r_parser st)) = None) ->
  (forall n k, In n (keys d) -> mem_pair (Some n, k) (added_options st) = false) ->
  exists st',
    rfold read_line (List.concat (List.map section_lines d)) st = Ok st'
    /\ r_parser st' = mkParser (_sections (r_parser st) ++ List.map raw_section d)
                               (_defaults (r_parser st))
    /\ pending_error st' = pending_error st.
Proof.
  induction d as [|[n items] r IH]; intros st Hnd Hv Hget Hado.
  - exists st. cbn. rewrite app_nil_r. split; [reflexivity|].
    split; [apply parser_eta | reflexivity].
  - cbn [keys List.map fst] in Hnd, Hget, Hado.
    inversion Hnd as [|? ? Hnin Hnd']; subst.
    inversion Hv as [|? ? [Hn Hs] Hv']; subst. cbn [fst snd] in Hn, Hs.
    cbn [List.map List.concat]. rewrite rfold_app.
    rewrite step_section; try assumption;
      [| apply Hget; now left | intros k; apply Hado; now left].
    cbn [rbind].
    edestruct (IH (sec_state (_sections (r_parser st)) (_defaults (r_parser st)) n
                    (close_section (raw_items items)) (last_key items)
                    (n :: added_sections st)
                    (rev (pairs n items) ++ added_options st)
                    (pending_error st))) as (st' & Hrun & Hp & He);
      try assumption.
    + intros n' Hn'. cbn. apply get_app_None. split; [apply Hget; now right|].
      simpl. assert (Hne : n' <> n) by (intros ->; contradiction).
      apply str_eqb_neq in Hne. now rewrite Hne.
    + intros n' k Hn'. cbn [added_options sec_state].
      rewrite mem_pair_other_section; [apply Hado; now right|].
      intros ->; contradiction.
    + exists st'. split; [exact Hrun|]. split; [|exact He].
      rewrite Hp. cbn. now rewrite <- app_assoc.
Qed.

(** *** Joining the lines gives the values back *)

Lemma join_value_split v : rstrip v = v -> join_value (split_nl v) = v.
Proof. intros H. unfold join_value. now rewrite join_split_nl. Qed.

Lemma join_value_split_blank v : rstrip v = v -> join_value (split_nl v ++ [[]]) = v.
Proof.
  intros H. unfold join_value.
  rewrite join_lines_snoc by apply split_nl_not_nil.
  now rewrite join_split_nl, rstrip_app_LF.
Qed.

Lemma join_raw_items items :
  values_rstripped items -> join_section (raw_items items) = items.
Proof.
  unfold join_section, raw_items. rewrite map_map. cbn [fst snd].
  induction 1 as [|[k v] r Hkv Hr IH]; [reflexivity|].
  cbn [List.map fst snd] in *. now rewrite join_value_split, IH.
Qed.

Lemma join_close_section items :
  NoDup (keys items) -> values_rstripped items ->
  join_section (close_section (raw_items items)) = items.
Proof.
  intros Hnd Hv. destruct (rev items) as [|[k v] ri] eqn:Er.
  - apply (f_equal (@rev _)) in Er. rewrite rev_involutive in Er. now subst.
  - apply (f_equal (@rev _)) in Er. rewrite rev_involutive in Er. cbn [rev] in Er.
    subst items. unfold raw_items. rewrite map_app. cbn [List.map fst snd].
    fold (raw_items (rev ri)).
    rewrite close_section_snoc.
    + unfold join_section. rewrite map_app. fold (join_section (raw_items (rev ri))).
      unfold values_rstripped in Hv. apply Forall_app in Hv as [Hv1 Hv2].
      rewrite join_raw_items by assumption. cbn [List.map fst snd].
      inversion Hv2; subst. cbn [snd] in *. now rewrite join_value_split_blank.
    + apply get_None_notin. rewrite keys_raw_items.
      unfold keys in Hnd. rewrite map_app in Hnd. cbn in Hnd.
      apply NoDup_remove_2 in Hnd. now rewrite app_nil_r in Hnd.
Qed.

Lemma valid_section_rstripped items :
  valid_section items = true -> values_rstripped items.
Proof.
  intros H. apply valid_section_spec in H as [_ H].
  rewrite forallb_forall in H. apply Forall_forall. intros [k v] Hin.
  apply H in Hin. apply valid_item_spec in Hin as (_ & Hv & _).
  now apply valid_value_spec in Hv.
Qed.

Lemma join_raw_sections d :
  Forall valid_entry d ->
  List.map (fun sd => (fst sd, join_section (snd sd))) (List.map raw_section d) = d.
Proof.
  induction 1 as [|[n items] r [Hn Hs] Hr IH]; [reflexivity|].
  cbn [List.map raw_section fst snd] in *. rewrite IH.
  rewrite join_close_section; [reflexivity | | now apply valid_section_rstripped].
  now apply valid_section_spec in Hs.
Qed.

(** Reading the lines written for a valid mapping gives a parser that
    holds this mapping and no defaults. *)
Theorem read_section_lines d :
  valid_dict d = true ->
  _read (List.concat (List.map section_lines d)) = Ok (mkParser d []).
Proof.
  intros Hv. apply valid_dict_spec in Hv as [Hnd Hv].
  destruct (steps_sections d reader0 Hnd Hv) as (st' & Hrun & Hp & He);
    [reflexivity | reflexivity |].
  unfold _read. rewrite Hrun. cbn [rbind]. rewrite He. cbn [pending_error reader0].
  rewrite Hp. unfold _join_multiline_values. cbn.
  now rewrite join_raw_sections.
Qed.

End ParserFacts.

Module WriteFacts.
Import Py configparser Canonical StrFacts LineFacts ResFacts DictFacts
       ClassifyFacts ReaderFacts SectionFacts ParserFacts.

Lemma readlines_items items rest :
  Forall (fun kv => contains LF (fst kv) = false) items ->
  readlines (List.concat (List.map item_text items) ++ rest)
  = List.concat (List.map item_lines items) ++ readlines rest.
Proof.
  induction 1 as [|[k v] r Hk Hr IH]; [reflexivity|].
  cbn [List.map List.concat]. rewrite <- !app_assoc.
  unfold item_text at 1. cbn [fst snd] in *.
  replace ((k ++ L " = " ++ replace_nl v ++ [LF])
             ++ List.concat (List.map item_text r) ++ rest)
    with ((k ++ L " = ") ++ replace_nl v
             ++ LF :: (List.concat (List.map item_text r) ++ rest))
    by (now rewrite <- !app_assoc).
  rewrite readlines_replace_nl.
  - unfold item_lines. cbn [fst snd].
    pose proof (split_nl_not_nil v) as Hne.
    destruct (split_nl v) as [|l0 ls]; [congruence|].
    rewrite IH. cbn [app]. now rewrite <- !app_assoc.
  - rewrite contains_app, Hk. reflexivity.
Qed.

Lemma readlines_section n items rest :
  contains LF n = false ->
  Forall (fun kv => contains LF (fst kv) = false) items ->
  readlines (_write_section n items ++ rest)
  = section_lines (n, items) ++ readlines rest.
Proof.
  intros Hn Hk. unfold _write_section, section_lines. cbn [fst snd].
  replace ((L "[" ++ n ++ ["]"%char; LF]
              ++ List.concat
                   (List.map (fun kv => fst kv ++ L " = " ++ replace_nl (snd kv) ++ [LF])
                             items) ++ [LF]) ++ rest)
    with ((L "[" ++ n ++ L "]")
            ++ LF :: (List.concat (List.map item_text items) ++ (LF :: rest))).
  - rewrite readlines_app.
    + rewrite readlines_items by assumption.
      change (LF :: rest) with ([] ++ LF :: rest).
      rewrite readlines_app by reflexivity.
      cbn [app]. now rewrite <- app_assoc.
    + rewrite !contains_app, Hn. reflexivity.
  - cbn. rewrite <- !app_assoc. cbn. f_equal. f_equal. rewrite <- !app_assoc. reflexivity.
Qed.

Lemma valid_entry_no_LF sd :
  valid_entry sd ->
  contains LF (fst sd) = false
  /\ Forall (fun kv => contains LF (fst kv) = false) (snd sd).
Proof.
  intros [Hn Hs]. apply valid_name_spec in Hn as (_ & Hn & _). split; [assumption|].
  apply valid_section_spec in Hs as [_ Hs]. rewrite forallb_forall in Hs.
  apply Forall_forall. intros [k v] Hin. apply Hs in Hin.
  apply valid_item_spec in Hin as (Hk & _). now apply valid_key_spec in Hk.
Qed.

Lemma readlines_sections d :
  Forall valid_entry d ->
  readlines (List.concat (List.map (fun sd => _write_section (fst sd) (snd sd)) d))
  = List.concat (List.map section_lines d).
Proof.
  induction 1 as [|[n items] r Hsd Hr IH]; [reflexivity|].
  cbn [List.map List.concat fst snd].
  apply valid_entry_no_LF in Hsd as [Hn Hk].
  rewrite readlines_section by assumption. now rewrite IH.
Qed.

(** No carriage return is written for a valid mapping. *)

Lemma contains_concat c (l : list str) :
  contains c (List.concat l) = existsb (contains c) l.
Proof.
  induction l as [|x r IH]; [reflexivity|].
  cbn [List.concat existsb]. now rewrite contains_app, IH.
Qed.

Lemma contains_replace_nl v : contains CR (replace_nl v) = contains CR v.
Proof.
  unfold contains. induction v as [|c r IH]; [reflexivity|].
  simpl. destruct (chr_eqb c LF) eqn:E; simpl; rewrite IH.
  - apply chr_eqb_eq in E. subst. reflexivity.
  - reflexivity.
Qed.

Lemma write_section_no_CR n items :
  valid_entry (n, items) -> contains CR (_write_section n items) = false.
Proof.
  intros [Hn Hs]. cbn [fst snd] in *.
  apply valid_name_spec in Hn as (_ & _ & Hn & _).
  apply valid_section_spec in Hs as [_ Hs]. rewrite forallb_forall in Hs.
  unfold _write_section. rewrite !contains_app, Hn, contains_concat.
  replace (existsb (contains CR) _) with false; [reflexivity|].
  symmetry. apply not_true_is_false. intros He.
  apply existsb_exists in He as (x & Hx & Hc).
  apply in_map_iff in Hx as ([k v] & <- & Hin). cbn [fst snd] in Hc.
  apply Hs in Hin. apply valid_item_spec in Hin as (Hk & Hv & _).
  apply valid_key_spec in Hk as (_ & _ & _ & _ & _ & _ & Hk & _).
  apply valid_value_spec in Hv as (_ & Hv & _).
  rewrite !contains_app, Hk, contains_replace_nl, Hv in Hc. discriminate.
Qed.

Lemma write_no_CR d :
  Forall valid_entry d -> contains CR (write (mkParser d [])) = false.
Proof.
  intros H. unfold write. cbn [_defaults _sections app].
  rewrite contains_concat.
  apply not_true_is_false. intros He.
  apply existsb_exists in He as (x & Hx & Hc).
  apply in_map_iff in Hx as ([n items] & <- & Hin). cbn [fst snd] in Hc.
  rewrite Forall_forall in H. apply H in Hin.
  rewrite write_section_no_CR in Hc by assumption. discriminate.
Qed.

(** The text written for a valid mapping is read back as the parser that
    wrote it. *)
Theorem read_string_write d :
  valid_dict d = true ->
  read_string (write (mkParser d [])) = Ok (mkParser d []).
Proof.
  intros Hv. pose proof Hv as Hv'. apply valid_dict_spec in Hv' as [Hnd Hall].
  unfold read_string.
  rewrite universal_newlines_id by now apply write_no_CR.
  unfold write. cbn [_defaults _sections app].
  rewrite readlines_sections by assumption.
  now apply read_section_lines.
Qed.

End WriteFacts.

Module ItemsFacts.
Import Py configparser Canonical StrFacts LineFacts ResFacts DictFacts
       ClassifyFacts ReaderFacts SectionFacts ParserFacts WriteFacts.

(** *** Dictionaries built from pairs with distinct keys *)

Lemma update_app {V} (other : dict V) : forall acc,
  NoDup (keys (acc ++ other)) -> update acc other = acc ++ other.
Proof.
  unfold update. induction other as [|[k v] r IH]; intros acc Hnd.
  - now rewrite app_nil_r.
  - cbn [fold_left fst snd].
    assert (Hk : get k acc = None).
    { apply get_None_notin. unfold keys in *. rewrite map_app in Hnd. cbn in Hnd.
      apply NoDup_remove_2 in Hnd. intros Hin. apply Hnd. apply in_or_app. now left. }
    rewrite set_notin by assumption.
    rewrite IH; rewrite <- app_assoc; [reflexivity | exact Hnd].
Qed.

Lemma of_items_nodup {V} (l : dict V) : NoDup (keys l) -> of_items l = l.
Proof. intros H. unfold of_items. now rewrite update_app. Qed.

Lemma get_in_nodup {V} k v (d : dict V) :
  NoDup (keys d) -> In (k, v) d -> get k d = Some v.
Proof.
  induction d as [|[k0 v0] r IH]; intros Hnd Hin; [contradiction|].
  cbn [keys List.map fst] in Hnd. inversion Hnd as [|? ? Hnin Hnd']; subst.
  simpl. destruct Hin as [[= -> ->] | Hin].
  - now rewrite str_eqb_refl.
  - destruct (str_eqb k k0) eqn:E.
    + apply str_eqb_eq in E. subst. exfalso. apply Hnin.
      apply in_map_iff. now exists (k0, v).
    + now apply IH.
Qed.

(** *** Values without [%] are not interpolated *)

Lemma interpolate_loop_plain sub map v : forall fuel,
  contains "%" v = false -> length v <= fuel ->
  interpolate_loop sub map fuel v = Ok v.
Proof.
  unfold contains. induction v as [|c r IH]; intros fuel Hc Hf.
  - destruct fuel; reflexivity.
  - destruct fuel as [|fuel]; [simpl in Hf; lia|].
    simpl in Hc. apply orb_false_iff in Hc as [Hc Hr].
    rewrite chr_eqb_sym in Hc.
    cbn [interpolate_loop]. rewrite Hc. cbn [negb].
    rewrite IH; [reflexivity | assumption | simpl in Hf; lia].
Qed.

Lemma before_get_plain v map : contains "%" v = false -> before_get v map = Ok v.
Proof.
  intros H. unfold before_get, MAX_INTERPOLATION_DEPTH. cbn [_interpolate_some].
  now apply interpolate_loop_plain.
Qed.

Lemma replace_pctpct_plain v : contains "%" v = false -> replace_pctpct v = v.
Proof.
  unfold contains. induction v as [|c r IH]; [reflexivity|].
  simpl. intros H. apply orb_false_iff in H as [Hc Hr].
  rewrite chr_eqb_sym in Hc. rewrite Hc. now rewrite IH.
Qed.

Lemma sub_keyrefs_plain v : forall fuel,
  contains "%" v = false -> sub_keyrefs fuel v = v.
Proof.
  unfold contains. induction v as [|c r IH]; intros fuel H.
  - destruct fuel; reflexivity.
  - destruct fuel as [|fuel]; [reflexivity|].
    simpl in H. apply orb_false_iff in H as [Hc Hr]. rewrite chr_eqb_sym in Hc.
    cbn [sub_keyrefs].
    assert (Hm : match_keyref (c :: r) = None).
    { unfold match_keyref. destruct r; [reflexivity|]. now rewrite Hc. }
    rewrite Hm. now rewrite IH.
Qed.

Lemma before_set_plain v : contains "%" v = false -> before_set v = Ok v.
Proof.
  intros H. unfold before_set. cbv zeta.
  rewrite replace_pctpct_plain by assumption.
  rewrite sub_keyrefs_plain by assumption. now rewrite H.
Qed.

(** *** [items] on a parser without defaults *)

Lemma rmap_items_plain (all : dict str) : forall part,
  (forall k v, In (k, v) part -> get k all = Some v /\ contains "%" v = false) ->
  rmap (fun option =>
          match get option all with
          | Some v => rbind (before_get v all) (fun v' => Ok (option, v'))
          | None => Raise (KeyError option)
          end) (keys part)
  = Ok part.
Proof.
  induction part as [|[k v] r IH]; intros H; [reflexivity|].
  cbn [keys List.map fst rmap].
  destruct (H k v (or_introl eq_refl)) as [Hg Hp].
  rewrite Hg, before_get_plain by assumption. cbn [rbind].
  unfold keys in IH. rewrite IH; [reflexivity|].
  intros k' v' Hin. apply H. now right.
Qed.

Lemma items_plain d section items :
  get section d = Some items ->
  NoDup (keys items) -> values_plain items ->
  configparser.items (mkParser d []) section = Ok items.
Proof.
  intros Hget Hnd Hp. unfold configparser.items. cbn [_sections _defaults].
  rewrite Hget. cbn [rbind].
  change (update [] items) with (of_items items).
  rewrite of_items_nodup by assumption.
  apply rmap_items_plain. intros k v Hin. split.
  - now apply get_in_nodup.
  - unfold values_plain in Hp. rewrite Forall_forall in Hp. apply (Hp _ Hin).
Qed.

Lemma valid_section_plain items :
  valid_section items = true -> values_plain items.
Proof.
  intros H. apply valid_section_spec in H as [_ H].
  rewrite forallb_forall in H. apply Forall_forall. intros [k v] Hin.
  apply H in Hin. apply valid_item_spec in Hin as (_ & Hv & _).
  now apply valid_value_spec in Hv.
Qed.

Lemma rmap_sections_plain (all : dict (dict str)) : forall part,
  (forall n items, In (n, items) part ->
     get n all = Some items /\ NoDup (keys items) /\ values_plain items) ->
  rmap (fun section =>
          rbind (configparser.items (mkParser all []) section)
                (fun its => Ok (section, of_items its)))
       (keys part)
  = Ok part.
Proof.
  induction part as [|[n items] r IH]; intros H; [reflexivity|].
  cbn [keys List.map fst rmap].
  destruct (H n items (or_introl eq_refl)) as (Hg & Hnd & Hp).
  rewrite (items_plain all n items) by assumption. cbn [rbind].
  rewrite of_items_nodup by assumption.
  unfold keys in IH. rewrite IH; [reflexivity|].
  intros n' items' Hin. apply H. now right.
Qed.

(** The mapping the tool builds from a parser that holds a valid mapping
    and no defaults. *)
Lemma dict_of_parser d :
  valid_dict d = true ->
  rbind (rmap (fun section =>
                 rbind (configparser.items (mkParser d []) section)
                       (fun its => Ok (section, of_items its)))
              (sections (mkParser d [])))
        (fun entries => Ok (of_items entries))
  = Ok d.
Proof.
  intros Hv. apply valid_dict_spec in Hv as [Hnd Hall].
  unfold sections. cbn [_sections].
  rewrite rmap_sections_plain.
  - cbn [rbind]. now rewrite of_items_nodup.
  - intros n items Hin. split; [now apply get_in_nodup|].
    rewrite Forall_forall in Hall. destruct (Hall _ Hin) as [_ Hs].
    cbn [snd] in Hs. split; [now apply valid_section_spec in Hs|].
    now apply valid_section_plain.
Qed.

End ItemsFacts.

Module ReadDictFacts.
Import Py configparser Canonical StrFacts LineFacts ResFacts DictFacts
       ClassifyFacts ReaderFacts SectionFacts ParserFacts WriteFacts ItemsFacts.

Lemma set_option_valid done n acc k v :
  valid_name n = true -> get n done = None -> get k acc = None ->
  lower k = k -> contains "%" v = false ->
  set_option (mkParser (done ++ [(n, acc)]) []) n k v
  = Ok (mkParser (done ++ [(n, acc ++ [(k, v)])]) []).
Proof.
  intros Hn Hd Hk Hlow Hp. apply valid_name_spec in Hn as (Hne & _ & _ & Hdef).
  unfold set_option.
  assert (Hb : match v with [] => Ok v | _ :: _ => before_set v end = Ok v).
  { destruct v; [reflexivity | now apply before_set_plain]. }
  rewrite Hb. cbn [rbind]. destruct n as [|c r]; [congruence|].
  rewrite Hdef. cbn [_sections _defaults].
  rewrite get_snoc by assumption. rewrite Hlow.
  rewrite set_snoc by assumption. now rewrite set_notin.
Qed.

Lemma read_dict_keys done n : forall its acc ado,
  valid_name n = true -> get n done = None ->
  NoDup (keys (acc ++ its)) ->
  forallb valid_item its = true ->
  (forall p, In p ado -> fst p = n -> In (snd p) (keys acc)) ->
  rfold (read_dict_key n) its (mkParser (done ++ [(n, acc)]) [], ado)
  = Ok (mkParser (done ++ [(n, acc ++ its)]) [], rev (key_marks n its) ++ ado).
Proof.
  induction its as [|[k v] r IH]; intros acc ado Hn Hd Hnd Hv Hado.
  - cbn. now rewrite app_nil_r.
  - simpl in Hv. apply andb_true_iff in Hv as [Hv1 Hv2].
    apply valid_item_spec in Hv1 as (Hk & Hval & _).
    apply valid_key_spec in Hk as (_ & _ & _ & Hlow & _).
    apply valid_value_spec in Hval as (Hp & _).
    assert (Hkacc : ~ In k (keys acc)).
    { unfold keys in *. rewrite map_app in Hnd. cbn in Hnd.
      apply NoDup_remove_2 in Hnd. intros Hin. apply Hnd. apply in_or_app. now left. }
    cbn [rfold]. unfold read_dict_key at 1. cbn [fst snd]. rewrite Hlow.
    assert (Hdup : existsb (fun p => str_eqb (fst p) n && str_eqb (snd p) k) ado = false).
    { apply not_true_is_false. intros He.
      apply existsb_exists in He as (p & Hin & Hpp).
      apply andb_true_iff in Hpp as [H1 H2].
      apply str_eqb_eq in H1, H2. subst k. apply Hkacc. now apply Hado. }
    rewrite Hdup.
    rewrite set_option_valid; try assumption; [| now apply get_None_notin].
    cbn [rbind]. rewrite IH; try assumption.
    + rewrite <- app_assoc. cbn [app key_marks List.map rev fst].
      now rewrite <- app_assoc.
    + now rewrite <- app_assoc.
    + intros p [<- | Hin] Hf.
      * cbn. unfold keys. rewrite map_app. apply in_or_app. right. now left.
      * unfold keys. rewrite map_app. apply in_or_app. left. now apply Hado.
Qed.

Lemma read_dict_sections : forall rest done ads ado,
  NoDup (keys (done ++ rest)) -> Forall valid_entry rest ->
  (forall p, In p ado -> In (fst p) (keys done)) ->
  exists ads' ado',
    rfold read_dict_section rest (mkParser done [], (ads, ado))
    = Ok (mkParser (done ++ rest) [], (ads', ado')).
Proof.
  induction rest as [|[n items] r IH]; intros done ads ado Hnd Hv Hado.
  - exists ads, ado. cbn. now rewrite app_nil_r.
  - inversion Hv as [|? ? [Hn Hs] Hv']; subst. cbn [fst snd] in Hn, Hs.
    assert (Hd : get n done = None).
    { apply get_None_notin. unfold keys in *. rewrite map_app in Hnd. cbn in Hnd.
      apply NoDup_remove_2 in Hnd. intros Hin. apply Hnd. apply in_or_app. now left. }
    pose proof Hn as Hn'. apply valid_name_spec in Hn' as (_ & _ & _ & Hdef).
    apply valid_section_spec in Hs as [Hnds Hitems].
    cbn [rfold]. unfold read_dict_section at 1. cbn [fst snd].
    unfold add_section. rewrite Hdef. cbn [_sections _defaults].
    apply mem_false in Hd as Hm. rewrite Hm. cbn [rbind].
    rewrite set_notin by assumption.
    rewrite (read_dict_keys done n items [] ado); try assumption.
    + cbn [rbind fst snd app].
      replace (done ++ (n, items) :: r) with ((done ++ [(n, items)]) ++ r)
        by (now rewrite <- app_assoc).
      apply IH.
      * now rewrite <- app_assoc.
      * assumption.
      * intros p Hin. unfold keys. rewrite map_app. apply in_or_app.
        apply in_app_or in Hin as [Hin | Hin].
        -- right. apply in_rev in Hin. unfold key_marks in Hin.
           apply in_map_iff in Hin as (kv & <- & _). now left.
        -- left. now apply Hado.
    + intros p Hin Hf. exfalso. apply Hado in Hin. rewrite Hf in Hin.
      apply get_None_notin in Hd. contradiction.
Qed.

(** [read_dict] of a valid mapping is the parser that holds it. *)
Theorem read_dict_valid d :
  valid_dict d = true -> read_dict d = Ok (mkParser d []).
Proof.
  intros Hv. apply valid_dict_spec in Hv as [Hnd Hall].
  destruct (read_dict_sections d [] [] [] Hnd Hall) as (ads & ado & Hr);
    [intros p []|].
  unfold read_dict, empty_parser. now rewrite Hr.
Qed.

End ReadDictFacts.

Module RoundTrip.
Import Py configparser Canonical aws_auth ParserFacts WriteFacts ItemsFacts ReadDictFacts.

Lemma read_ini_of_text text d :
  read_string text = Ok (mkParser d []) -> valid_dict d = true ->
  forall w, read_ini_file_to_dict (Present true w text) = Ok d.
Proof.
  intros Hr Hv w. unfold read_ini_file_to_dict, read. cbn [open_read].
  rewrite Hr. cbn [rbind]. now apply dict_of_parser.
Qed.

(** What [write_dict_to_ini_file] writes for a valid mapping is read back
    by [read_ini_file_to_dict] as this mapping. *)
Theorem write_then_read d f :
  valid_dict d = true ->
  match f with Missing c => c = true | Present _ w _ => w = true end ->
  exists f',
    write_dict_to_ini_file d f = Ok f'
    /\ f' = Present (match f with Missing _ => true | Present r _ _ => r end)
                    true (write (mkParser d []))
    /\ (match f with Missing _ => True | Present r _ _ => r = true end ->
        read_ini_file_to_dict f' = Ok d).
Proof.
  intros Hv Hw. unfold write_dict_to_ini_file.
  rewrite read_dict_valid by assumption. cbn [rbind].
  destruct f as [c | r w content]; subst.
  - eexists. split; [reflexivity|]. split; [reflexivity|]. intros _.
    apply read_ini_of_text; [now apply read_string_write | assumption].
  - eexists. split; [reflexivity|]. split; [reflexivity|]. intros ->.
    apply read_ini_of_text; [now apply read_string_write | assumption].
Qed.

(** A written text is reproduced exactly. *)
Lemma serialize_parse_write d :
  valid_dict d = true ->
  serialize_parse (write (mkParser d [])) = Ok (write (mkParser d [])).
Proof.
  intros Hv. unfold serialize_parse.
  rewrite (read_ini_of_text (write (mkParser d [])) d); try assumption.
  - cbn [rbind]. now rewrite read_dict_valid.
  - now apply read_string_write.
Qed.

End RoundTrip.

Module ToolFacts.
Import Py configparser Canonical aws_auth StrFacts DictFacts ClassifyFacts
       SectionFacts ParserFacts ItemsFacts ReadDictFacts RoundTrip.

Lemma update_single {V} (d : dict V) k v : update d [(k, v)] = set k v d.
Proof. reflexivity. Qed.

Lemma Forall_set {V} (P : str * V -> Prop) k v (d : dict V) :
  Forall P d -> P (k, v) -> Forall P (set k v d).
Proof.
  intros Hd Hkv. induction Hd as [|[k0 v0] r H0 Hr IH]; simpl.
  - now constructor.
  - destruct (str_eqb k k0); constructor; assumption.
Qed.

Lemma NoDup_keys_set {V} k v (d : dict V) : NoDup (keys d) -> NoDup (keys (set k v d)).
Proof.
  intros H. destruct (get k d) eqn:E.
  - rewrite keys_set_in by congruence. assumption.
  - rewrite keys_set_notin by assumption.
    apply get_None_notin in E. apply NoDup_app; [assumption | repeat constructor; intros [] |].
    intros x Hx [<- | []]. contradiction.
Qed.

Lemma valid_dict_set d P sec :
  valid_dict d = true -> valid_name P = true -> valid_section sec = true ->
  valid_dict (set P sec d) = true.
Proof.
  intros Hd HP Hs. apply valid_dict_spec in Hd as [Hnd Hall].
  apply valid_dict_spec. split.
  - now apply NoDup_keys_set.
  - apply Forall_set; [assumption | now split].
Qed.

(** The three keys the tool writes are valid keys, whatever the values. *)
Lemma session_section_valid c :
  valid_credentials c = true -> valid_section (session_section c) = true.
Proof.
  unfold valid_credentials. rewrite !andb_true_iff. intros [[H1 H2] H3].
  unfold valid_section, session_section.
  change (nodup_keys _) with true. cbn [andb forallb].
  assert (Hitem : forall k v, valid_key k = true -> valid_value v = true ->
                    (exists r, k = "a"%char :: r) -> valid_item (k, v) = true).
  { intros k v Hk Hv [r ->]. unfold valid_item. cbn [fst snd].
    rewrite Hk, Hv. cbn [andb]. unfold option_line.
    assert (Hst : stripped (hd [] (split_nl v)) = true).
    { apply valid_value_spec in Hv as (_ & _ & Hv & _).
      destruct (split_nl v); [reflexivity|]. simpl in Hv.
      now apply andb_true_iff in Hv as [Hv _]. }
    rewrite (option_strip _ _ Hk Hst).
    destruct (hd [] (split_nl v)); reflexivity. }
  rewrite !Hitem; try assumption; try reflexivity; eexists; reflexivity.
Qed.

End ToolFacts.

Module CharFacts.
Import Py configparser Canonical StrFacts LineFacts DictFacts ClassifyFacts.

Lemma same_class_all c : same_class c = true.
Proof.
  destruct c as [b0 b1 b2 b3 b4 b5 b6 b7].
  destruct b0, b1, b2, b3, b4, b5, b6, b7; vm_compute; reflexivity.
Qed.

Lemma lower_chr_space c : isspace (lower_chr c) = isspace c.
Proof.
  pose proof (same_class_all c) as H. unfold same_class in H.
  rewrite !andb_true_iff in H. decompose [and] H. now apply Bool.eqb_prop.
Qed.

Lemma lower_chr_delim c : is_delim (lower_chr c) = is_delim c.
Proof.
  pose proof (same_class_all c) as H. unfold same_class in H.
  rewrite !andb_true_iff in H. decompose [and] H. now apply Bool.eqb_prop.
Qed.

Lemma lower_chr_kept x c : kept x -> chr_eqb (lower_chr c) x = chr_eqb c x.
Proof.
  pose proof (same_class_all c) as H. unfold same_class in H.
  rewrite !andb_true_iff in H. decompose [and] H.
  intros [-> | [-> | [-> | [-> | [-> | [-> | ->]]]]]]; now apply Bool.eqb_prop.
Qed.

Lemma lower_chr_idem c : lower_chr (lower_chr c) = lower_chr c.
Proof.
  pose proof (same_class_all c) as H. unfold same_class in H.
  rewrite !andb_true_iff in H. decompose [and] H. now apply chr_eqb_eq.
Qed.

Lemma lower_idem s : lower (lower s) = lower s.
Proof.
  unfold lower. rewrite map_map. apply map_ext. apply lower_chr_idem.
Qed.

Lemma contains_lower x s : kept x -> contains x (lower s) = contains x s.
Proof.
  intros Hx. unfold contains, lower. induction s as [|c r IH]; [reflexivity|].
  simpl. rewrite IH. f_equal.
  rewrite (chr_eqb_sym x (lower_chr c)), (chr_eqb_sym x c). now apply lower_chr_kept.
Qed.

Lemma existsb_delim_lower s : existsb is_delim (lower s) = existsb is_delim s.
Proof.
  unfold lower. induction s as [|c r IH]; [reflexivity|].
  simpl. now rewrite IH, lower_chr_delim.
Qed.

Lemma lstrip_lower s : lstrip (lower s) = lower (lstrip s).
Proof.
  induction s as [|c r IH]; [reflexivity|].
  simpl. rewrite lower_chr_space. destruct (isspace c); [exact IH | reflexivity].
Qed.

Lemma rstrip_lower s : rstrip (lower s) = lower (rstrip s).
Proof.
  induction s as [|c r IH]; [reflexivity|].
  simpl. rewrite IH, lower_chr_space.
  destruct (rstrip r); simpl; [destruct (isspace c); reflexivity | reflexivity].
Qed.

(** *** What [lstrip], [rstrip] and [strip] keep *)

Lemma lstrip_suffix s : exists t, s = t ++ lstrip s.
Proof.
  induction s as [|c r [t IH]]; [now exists []|].
  simpl. destruct (isspace c).
  - exists (c :: t). simpl. now rewrite <- IH.
  - now exists [].
Qed.

Lemma rstrip_prefix s : exists t, s = rstrip s ++ t.
Proof.
  induction s as [|c r [t IH]]; [now exists []|].
  simpl. destruct (rstrip r) eqn:E.
  - destruct (isspace c).
    + now exists (c :: r).
    + exists r. reflexivity.
  - exists t. simpl. f_equal. exact IH.
Qed.

Lemma contains_lstrip x s : contains x s = false -> contains x (lstrip s) = false.
Proof.
  destruct (lstrip_suffix s) as [t Ht]. intros H. rewrite Ht in H.
  rewrite contains_app in H. now apply orb_false_iff in H.
Qed.

Lemma contains_rstrip x s : contains x s = false -> contains x (rstrip s) = false.
Proof.
  destruct (rstrip_prefix s) as [t Ht]. intros H. rewrite Ht in H.
  rewrite contains_app in H. now apply orb_false_iff in H.
Qed.

Lemma contains_strip x s : contains x s = false -> contains x (strip s) = false.
Proof. intros H. unfold strip. now apply contains_rstrip, contains_lstrip. Qed.

Lemma existsb_rstrip (f : ascii -> bool) s :
  existsb f s = false -> existsb f (rstrip s) = false.
Proof.
  destruct (rstrip_prefix s) as [t Ht]. intros H. rewrite Ht in H.
  rewrite existsb_app in H. now apply orb_false_iff in H.
Qed.

Lemma strip_stripped s : stripped (strip s) = true.
Proof. apply stripped_spec. split; [apply strip_lstrip | apply strip_rstrip]. Qed.

End CharFacts.

Module TextFacts.
Import Py configparser Canonical StrFacts LineFacts DictFacts ClassifyFacts CharFacts.

Lemma contains_cons x c s : contains x (c :: s) = chr_eqb x c || contains x s.
Proof. reflexivity. Qed.

Lemma universal_newlines_two c c' r :
  universal_newlines (c :: c' :: r)
  = if chr_eqb c CR
    then if chr_eqb c' LF then LF :: universal_newlines r
         else LF :: universal_newlines (c' :: r)
    else c :: universal_newlines (c' :: r).
Proof. reflexivity. Qed.

Lemma universal_newlines_one c :
  universal_newlines [c] = if chr_eqb c CR then [LF] else [c].
Proof. reflexivity. Qed.

Lemma universal_newlines_no_CR s : contains CR (universal_newlines s) = false.
Proof.
  remember (length s) as n eqn:Hn. revert s Hn.
  induction n as [n IH] using lt_wf_ind. intros s Hn.
  destruct s as [|c [|c' r]]; [reflexivity | |].
  - rewrite universal_newlines_one. destruct (chr_eqb c CR) eqn:Ec; [reflexivity|].
    now rewrite contains_cons, chr_eqb_sym, Ec.
  - rewrite universal_newlines_two.
    destruct (chr_eqb c CR) eqn:Ec; [destruct (chr_eqb c' LF)|]; rewrite contains_cons.
    + apply (IH (length r)); [simpl in Hn; lia | reflexivity].
    + apply (IH (length (c' :: r))); [simpl in Hn |- *; lia | reflexivity].
    + rewrite chr_eqb_sym, Ec.
      apply (IH (length (c' :: r))); [simpl in Hn |- *; lia | reflexivity].
Qed.

Lemma universal_newlines_keeps x s :
  x <> LF -> contains x s = false -> contains x (universal_newlines s) = false.
Proof.
  intros Hx. remember (length s) as n eqn:Hn. revert s Hn.
  induction n as [n IH] using lt_wf_ind. intros s Hn Hc.
  assert (HLF : chr_eqb x LF = false) by (now apply chr_eqb_neq).
  destruct s as [|c [|c' r]]; [reflexivity | |].
  - rewrite universal_newlines_one. destruct (chr_eqb c CR); [|assumption].
    now rewrite contains_cons, HLF.
  - rewrite universal_newlines_two.
    rewrite contains_cons in Hc. apply orb_false_iff in Hc as [Hc Hr].
    destruct (chr_eqb c CR); [destruct (chr_eqb c' LF)|]; rewrite contains_cons.
    + rewrite HLF. rewrite contains_cons in Hr. apply orb_false_iff in Hr as [_ Hr].
      apply (IH (length r)); [simpl in Hn; lia | reflexivity | assumption].
    + rewrite HLF.
      apply (IH (length (c' :: r))); [simpl in Hn |- *; lia | reflexivity | assumption].
    + rewrite Hc.
      apply (IH (length (c' :: r))); [simpl in Hn |- *; lia | reflexivity | assumption].
Qed.

Lemma readlines_no_LF s : Forall (fun l => contains LF l = false) (readlines s).
Proof.
  induction s as [|c r IH]; simpl; [constructor|].
  destruct (chr_eqb c LF) eqn:E.
  - constructor; [reflexivity | assumption].
  - destruct (readlines r) as [|l ls].
    + constructor; [|constructor]. now rewrite contains_cons, chr_eqb_sym, E.
    + inversion IH; subst. constructor; [|assumption].
      now rewrite contains_cons, chr_eqb_sym, E.
Qed.

Lemma readlines_keeps x s :
  contains x s = false -> Forall (fun l => contains x l = false) (readlines s).
Proof.
  induction s as [|c r IH]; cbn [readlines]; [constructor|].
  rewrite contains_cons. intros H. apply orb_false_iff in H as [Hc Hr].
  specialize (IH Hr). destruct (chr_eqb c LF).
  - constructor; [reflexivity | assumption].
  - destruct (readlines r) as [|l ls].
    + constructor; [|constructor]. now rewrite contains_cons, Hc.
    + inversion IH; subst. constructor; [|assumption].
      now rewrite contains_cons, Hc.
Qed.

Lemma lines_clean text :
  contains "%" text = false ->
  Forall clean (readlines (universal_newlines text)).
Proof.
  intros Hp. apply Forall_forall. intros l Hl. unfold clean.
  pose proof (readlines_no_LF (universal_newlines text)) as H1.
  pose proof (readlines_keeps CR _ (universal_newlines_no_CR text)) as H2.
  assert (H3 : Forall (fun l => contains "%" l = false)
                 (readlines (universal_newlines text))).
  { apply readlines_keeps. apply universal_newlines_keeps; [discriminate | assumption]. }
  rewrite Forall_forall in H1, H2, H3. auto.
Qed.

Lemma clean_strip l : clean l -> clean (strip l).
Proof. intros (H1 & H2 & H3). repeat split; now apply contains_strip. Qed.

Lemma clean_app a b : clean (a ++ b) <-> clean a /\ clean b.
Proof.
  unfold clean. rewrite !contains_app, !orb_false_iff. tauto.
Qed.

Lemma clean_nil : clean [].
Proof. repeat split. Qed.

(** *** Section headers and option lines *)

Lemma upto_last_split c r h : upto_last c r = Some h -> exists t, r = h ++ c :: t.
Proof.
  revert h. induction r as [|x r IH]; intros h; simpl; [discriminate|].
  destruct (upto_last c r) as [h'|] eqn:E.
  - intros [= <-]. destruct (IH h' eq_refl) as [t ->]. now exists t.
  - destruct (chr_eqb x c) eqn:Ex; [|discriminate].
    intros [= <-]. apply chr_eqb_eq in Ex. subst. now exists r.
Qed.

Lemma upto_last_None c r : upto_last c r = None <-> contains c r = false.
Proof.
  induction r as [|x r IH]; [simpl; tauto|]. cbn [upto_last].
  rewrite contains_cons, orb_false_iff, <- IH, (chr_eqb_sym c x).
  destruct (upto_last c r); [split; [discriminate | intros [_ H]; discriminate]|].
  destruct (chr_eqb x c); split; try discriminate; try tauto. intros [H _]. discriminate.
Qed.

Lemma sect_header_None x : sect_header x = None <-> headerish x = false.
Proof.
  unfold sect_header, headerish. destruct x as [|c r]; [tauto|].
  destruct (chr_eqb c "["); [|destruct r; tauto].
  destruct r as [|y r']; [simpl; tauto|]. cbn [andb upto_last].
  destruct (upto_last "]" r') as [h|] eqn:E.
  - split; [discriminate|]. intros H. apply upto_last_None in H. congruence.
  - apply upto_last_None in E. rewrite E.
    destruct (chr_eqb y "]"); tauto.
Qed.

Lemma sect_header_Some x h :
  sect_header x = Some h -> h <> [] /\ exists t, x = "["%char :: h ++ "]"%char :: t.
Proof.
  unfold sect_header. destruct x as [|c r]; [discriminate|].
  destruct (chr_eqb c "[") eqn:Ec; [|discriminate]. apply chr_eqb_eq in Ec. subst c.
  destruct (upto_last "]" r) as [[|y h']|] eqn:E; try discriminate.
  intros [= <-]. split; [discriminate|].
  destruct (upto_last_split _ _ _ E) as [t ->]. now exists t.
Qed.

Lemma split_delim_Some s a b :
  split_delim s = Some (a, b) ->
  existsb is_delim a = false /\ exists c, is_delim c = true /\ s = a ++ c :: b.
Proof.
  revert a. induction s as [|x r IH]; intros a; simpl; [discriminate|].
  destruct (is_delim x) eqn:Ex.
  - intros [= <- <-]. split; [reflexivity|]. now exists x.
  - destruct (split_delim r) as [[a' b']|]; [|discriminate].
    intros [= <- <-]. destruct (IH a' eq_refl) as (Ha & c & Hc & ->).
    split; [simpl; now rewrite Ex, Ha|]. now exists c.
Qed.

End TextFacts.

Module EntryFacts.
Import Py configparser Canonical StrFacts LineFacts DictFacts ClassifyFacts
       CharFacts TextFacts.

Lemma key_ok_valid k : key_ok k -> valid_key k = true.
Proof.
  intros (Hne & Hs & Hl & Hd & (H1 & H2 & _) & Hc). unfold valid_key.
  apply nonempty_spec in Hne. apply str_eqb_eq in Hl.
  now rewrite Hne, Hs, Hl, Hd, H1, H2, Hc.
Qed.

Lemma headerish_cons c r : headerish (c :: r) = chr_eqb c "[" && contains "]" (tl r).
Proof. destruct r; simpl; [now rewrite andb_false_r | reflexivity]. Qed.

Lemma contains_tl_app x a b :
  contains x (tl a) = false -> contains x b = false -> contains x (tl (a ++ b)) = false.
Proof.
  intros Ha Hb. destruct a as [|y a]; simpl in *.
  - destruct b as [|z b]; [reflexivity|]. rewrite contains_cons in Hb.
    now apply orb_false_iff in Hb.
  - now rewrite contains_app, Ha, Hb.
Qed.

Lemma contains_tl_app_inv x a c b :
  contains x (tl (a ++ c :: b)) = false ->
  contains x (tl a) = false /\ contains x b = false.
Proof.
  destruct a as [|y a]; simpl.
  - auto.
  - rewrite contains_app, contains_cons, !orb_false_iff. tauto.
Qed.

Lemma contains_tl_rstrip x s :
  contains x (tl s) = false -> contains x (tl (rstrip s)) = false.
Proof.
  destruct (rstrip_prefix s) as [t Ht]. intros H.
  destruct (rstrip s) as [|y r]; [reflexivity|].
  rewrite Ht in H. simpl in H. rewrite contains_app in H.
  now apply orb_false_iff in H.
Qed.

Lemma contains_tl_lower x s : kept x -> contains x (tl (lower s)) = contains x (tl s).
Proof.
  intros Hx. destruct s as [|c r]; [reflexivity|]. simpl.
  now apply contains_lower.
Qed.

Lemma kept_rbracket : kept "]"%char.
Proof. unfold kept. tauto. Qed.

Lemma kept_LF : kept LF. Proof. unfold kept. tauto. Qed.
Lemma kept_CR : kept CR. Proof. unfold kept. tauto. Qed.
Lemma kept_pct : kept "%"%char. Proof. unfold kept. tauto. Qed.

Lemma clean_lower s : clean s -> clean (lower s).
Proof.
  intros (H1 & H2 & H3). unfold clean.
  rewrite !contains_lower; auto using kept_LF, kept_CR, kept_pct.
Qed.

Lemma clean_rstrip s : clean s -> clean (rstrip s).
Proof. intros (H1 & H2 & H3). repeat split; now apply contains_rstrip. Qed.

Lemma clean_lstrip s : clean s -> clean (lstrip s).
Proof. intros (H1 & H2 & H3). repeat split; now apply contains_lstrip. Qed.

(** The entry stored for an option line that is accepted. *)
Lemma option_entry_ok value opt optval :
  clean value -> lstrip value = value -> starts_comment value = false ->
  sect_header value = None ->
  opt_match value = Some (opt, optval) -> opt <> [] ->
  entry_ok (lower (rstrip opt), [strip optval]).
Proof.
  intros Hclean Hls Hcom Hsh Hm Hopt.
  unfold opt_match in Hm. destruct (split_delim value) as [[a b]|] eqn:Esd; [|discriminate].
  injection Hm as <- <-.
  destruct (split_delim_Some _ _ _ Esd) as (Hda & c & Hc & Hval).
  rewrite rstrip_idem.
  destruct a as [|c0 a']; [now simpl in Hopt|].
  assert (Hc0 : isspace c0 = false).
  { pose proof (lstrip_fix_head value Hls) as H. now rewrite Hval in H. }
  rewrite (rstrip_cons_nonspace c0 a' Hc0) in *.
  assert (Hca : clean (c0 :: a') /\ clean (c :: b)).
  { rewrite Hval in Hclean. now apply clean_app in Hclean. }
  destruct Hca as [Hca Hcb].
  assert (Hcb' : clean b).
  { change (c :: b) with ([c] ++ b) in Hcb. now apply clean_app in Hcb. }
  set (k := lower (c0 :: rstrip a')).
  assert (Hkey : key_ok k).
  { unfold key_ok, k. repeat split.
    - discriminate.
    - apply stripped_spec. split.
      + change (lower (c0 :: rstrip a')) with (lower_chr c0 :: lower (rstrip a')).
        apply lstrip_nonspace. now rewrite lower_chr_space.
      + rewrite rstrip_lower. f_equal.
        rewrite <- (rstrip_cons_nonspace c0 a' Hc0). apply rstrip_idem.
    - apply lower_idem.
    - rewrite existsb_delim_lower. rewrite <- (rstrip_cons_nonspace c0 a' Hc0).
      now apply existsb_rstrip.
    - apply clean_lower. rewrite <- (rstrip_cons_nonspace c0 a' Hc0).
      now apply clean_rstrip.
    - apply clean_lower. rewrite <- (rstrip_cons_nonspace c0 a' Hc0).
      now apply clean_rstrip.
    - apply clean_lower. rewrite <- (rstrip_cons_nonspace c0 a' Hc0).
      now apply clean_rstrip.
    - rewrite Hval in Hcom. simpl in Hcom |- *.
      apply orb_false_iff in Hcom as [H1 H2].
      rewrite !lower_chr_kept; [now rewrite H1, H2 | unfold kept; tauto | unfold kept; tauto]. }
  split; [exact Hkey|]. cbn [fst snd].
  assert (Hl0 : stripped (strip (lstrip b)) = true) by apply strip_stripped.
  assert (Hcl0 : clean (strip (lstrip b))) by (now apply clean_strip, clean_lstrip).
  unfold lines_ok. cbn [hd tl]. split; [discriminate|].
  split; [constructor; [assumption | constructor]|].
  split; [constructor; [assumption | constructor]|].
  split; [constructor|].
  rewrite (option_strip k _ (key_ok_valid k Hkey) Hl0).
  assert (Hgoal : forall suffix,
            (chr_eqb c0 "[" = true -> contains "]" suffix = false) ->
            headerish (k ++ suffix) = false).
  { intros suffix Hsuf. unfold k.
    change (lower (c0 :: rstrip a') ++ suffix)
      with (lower_chr c0 :: (lower (rstrip a') ++ suffix)).
    rewrite headerish_cons.
    destruct (chr_eqb (lower_chr c0) "[") eqn:Eb; [|reflexivity]. simpl.
    rewrite lower_chr_kept in Eb by (unfold kept; tauto).
    apply sect_header_None in Hsh. rewrite Hval in Hsh.
    change ((c0 :: a') ++ c :: b) with (c0 :: (a' ++ c :: b)) in Hsh.
    rewrite headerish_cons, Eb in Hsh. simpl in Hsh.
    apply contains_tl_app_inv in Hsh as [Ha' Hb].
    apply contains_tl_app; [|now apply Hsuf].
    rewrite contains_tl_lower by apply kept_rbracket.
    now apply contains_tl_rstrip. }
  assert (Hb : chr_eqb c0 "[" = true -> contains "]" (strip (lstrip b)) = false).
  { intros Eb. apply sect_header_None in Hsh. rewrite Hval in Hsh.
    change ((c0 :: a') ++ c :: b) with (c0 :: (a' ++ c :: b)) in Hsh.
    rewrite headerish_cons, Eb in Hsh. simpl in Hsh.
    apply contains_tl_app_inv in Hsh as [_ Hb].
    now apply contains_strip, contains_lstrip. }
  destruct (strip (lstrip b)) eqn:El0.
  - apply Hgoal. reflexivity.
  - rewrite <- El0 in *. apply Hgoal. intros Eb. rewrite contains_app.
    now rewrite (Hb Eb).
Qed.

End EntryFacts.

Module InvariantFacts.
Import Py configparser Canonical StrFacts LineFacts DictFacts ClassifyFacts
       ReaderFacts ToolFacts CharFacts TextFacts EntryFacts.

Lemma get_In {V} k v (d : dict V) : get k d = Some v -> In (k, v) d.
Proof.
  induction d as [|[k0 v0] r IH]; simpl; [discriminate|].
  destruct (str_eqb k k0) eqn:E.
  - apply str_eqb_eq in E. subst. intros [= ->]. now left.
  - intros H. right. now apply IH.
Qed.

Lemma raw_ok_nil : raw_ok [].
Proof. split; constructor. Qed.

Lemma raw_ok_set d k ls : raw_ok d -> entry_ok (k, ls) -> raw_ok (set k ls d).
Proof.
  intros [Hnd Hall] He. split; [now apply NoDup_keys_set | now apply Forall_set].
Qed.

Lemma raw_ok_append d o ls v :
  raw_ok d -> get o d = Some ls ->
  clean v -> stripped v = true -> starts_comment v = false ->
  raw_ok (set o (ls ++ [v]) d).
Proof.
  intros Hd Hg Hc Hs Hcom. apply raw_ok_set; [assumption|].
  destruct Hd as [_ Hall]. rewrite Forall_forall in Hall.
  destruct (Hall _ (get_In _ _ _ Hg)) as [Hk (Hne & Hcl & Hst & Htl & Hh)].
  cbn [fst snd] in *. split; [exact Hk|]. cbn [fst snd].
  destruct ls as [|l0 r]; [congruence|].
  unfold lines_ok. cbn [app hd tl] in *. split; [discriminate|].
  inversion Hcl; subst. inversion Hst; subst.
  assert (Hone : forall (P : str -> Prop), P v -> Forall P [v])
    by (intros P HP; constructor; [exact HP | constructor]).
  split; [constructor; [assumption | apply Forall_app; split; [assumption | now apply Hone]]|].
  split; [constructor; [assumption | apply Forall_app; split; [assumption | now apply Hone]]|].
  split; [apply Forall_app; split; [assumption | now apply Hone] | assumption].
Qed.

Lemma cursect_dict_ok st d : reader_ok st -> cursect_dict st = Some d -> raw_ok d.
Proof.
  intros [(Hnd & Hall & Hdef) _]. unfold cursect_dict.
  destruct (cursect st) as [| |n]; [discriminate | now intros [= <-] |].
  intros Hg. apply get_In in Hg. rewrite Forall_forall in Hall.
  apply (Hall _ Hg).
Qed.

Lemma cursect_store_ok st d :
  reader_ok st -> raw_ok d -> parser_ok (cursect_store st d).
Proof.
  intros [(Hnd & Hall & Hdef) Hcur] Hd. unfold cursect_store.
  cbv zeta. destruct (cursect st) as [| |n] eqn:E.
  - exact (conj Hnd (conj Hall Hdef)).
  - exact (conj Hnd (conj Hall Hd)).
  - split; [now apply NoDup_keys_set|]. split; [|assumption].
    apply Forall_set; [assumption|]. split; [now apply Hcur | assumption].
Qed.

Lemma append_value_ok st v st' :
  reader_ok st -> append_value st v = Ok st' ->
  clean v -> stripped v = true -> starts_comment v = false ->
  reader_ok st' /\ pending_error st' = pending_error st.
Proof.
  intros Hok Hrun Hc Hs Hcom. unfold append_value in Hrun.
  destruct (cursect_dict st) as [d|] eqn:Ed.
  - destruct (optname st) as [o|]; [|injection Hrun as <-; now split].
    destruct (get o d) as [ls|] eqn:Eg; [|discriminate].
    injection Hrun as <-. split; [|reflexivity].
    split; [|exact (proj2 Hok)]. cbn [r_parser with_parser].
    apply cursect_store_ok; [assumption|].
    apply raw_ok_append; try assumption. now apply (cursect_dict_ok st).
  - injection Hrun as <-. now split.
Qed.

Lemma read_header_ok st h st' :
  reader_ok st -> h <> [] -> clean h ->
  read_header st h = Ok st' ->
  reader_ok st' /\ pending_error st' = pending_error st.
Proof.
  intros [(Hnd & Hall & Hdef) Hcur] Hne (H1 & H2 & _) Hrun. unfold read_header in Hrun.
  destruct (mem h (_sections (r_parser st))) eqn:Em.
  - destruct (mem_str h (added_sections st)); [discriminate|].
    injection Hrun as <-. split; [|reflexivity]. split; [exact (conj Hnd (conj Hall Hdef))|].
    cbn [cursect]. intros n [= <-]. unfold mem in Em.
    destruct (get h (_sections (r_parser st))) eqn:Eg; [|discriminate].
    apply get_In in Eg. rewrite Forall_forall in Hall. apply (Hall _ Eg).
  - destruct (str_eqb h DEFAULTSECT) eqn:Ed.
    + injection Hrun as <-. split; [|reflexivity]. split; [exact (conj Hnd (conj Hall Hdef))|].
      cbn [cursect]. discriminate.
    + injection Hrun as <-. split; [|reflexivity].
      assert (Hv : valid_name h = true).
      { unfold valid_name. apply nonempty_spec in Hne. now rewrite Hne, H1, H2, Ed. }
      split.
      * cbn [r_parser]. split; [now apply NoDup_keys_set|]. split; [|assumption].
        apply Forall_set; [assumption|]. split; [assumption | apply raw_ok_nil].
      * cbn [cursect]. now intros n [= <-].
Qed.

Lemma read_option_ok st value st' :
  reader_ok st -> clean value -> lstrip value = value ->
  starts_comment value = false -> sect_header value = None ->
  read_option st value = Ok st' -> pending_error st' = false ->
  reader_ok st'.
Proof.
  intros Hok Hc Hls Hcom Hsh Hrun Hp. unfold read_option in Hrun.
  destruct (opt_match value) as [[opt optval]|] eqn:Em.
  - destruct (mem_pair _ _); [discriminate|].
    destruct (cursect_dict st) as [d|] eqn:Ed; [|discriminate].
    injection Hrun as <-. cbn [pending_error] in Hp.
    assert (Hopt : opt <> []) by (destruct opt; [discriminate | discriminate]).
    split; [|exact (proj2 Hok)]. cbn [r_parser].
    apply cursect_store_ok; [assumption|].
    apply raw_ok_set; [now apply (cursect_dict_ok st)|].
    now apply (option_entry_ok value).
  - injection Hrun as <-. discriminate.
Qed.

Lemma set_indent_ok st n : reader_ok st -> reader_ok (set_indent st n).
Proof. intros H. exact H. Qed.

Lemma is_comment_false line :
  is_comment line = false -> starts_comment (strip line) = false.
Proof. unfold is_comment, starts_comment. destruct (strip line); auto. Qed.

(** One line keeps the reader in order, as long as no parsing error is
    pending afterwards. *)
Lemma read_line_ok st line st' :
  reader_ok st -> clean line ->
  read_line st line = Ok st' -> pending_error st' = false ->
  reader_ok st'.
Proof.
  intros Hok Hc Hrun Hp. unfold read_line in Hrun.
  destruct (is_comment line) eqn:Ecom.
  - cbn in Hrun. now injection Hrun as <-.
  - destruct (strip line) as [|c r] eqn:Es.
    + destruct (_ && _ && _).
      * exact (proj1 (append_value_ok _ _ _ Hok Hrun clean_nil eq_refl eq_refl)).
      * now injection Hrun as <-.
    + rewrite <- Es in Hrun.
      assert (Hcv : clean (strip line)) by now apply clean_strip.
      assert (Hsv : stripped (strip line) = true) by apply strip_stripped.
      assert (Hcm : starts_comment (strip line) = false) by now apply is_comment_false.
      destruct (_ && _ && _).
      * exact (proj1 (append_value_ok _ _ _ Hok Hrun Hcv Hsv Hcm)).
      * assert (Hok' : reader_ok (set_indent st (first_nonspace line))) by exact Hok.
        destruct (sect_header (strip line)) as [h|] eqn:Eh.
        -- destruct (sect_header_Some _ _ Eh) as (Hne & t & Hval).
           assert (Hch : clean h).
           { rewrite Hval in Hcv. change ("["%char :: h ++ "]"%char :: t)
               with (["["%char] ++ h ++ "]"%char :: t) in Hcv.
             apply clean_app in Hcv as [_ Hcv]. now apply clean_app in Hcv as [Hcv _]. }
           exact (proj1 (read_header_ok _ _ _ Hok' Hne Hch Hrun)).
        -- destruct (cursor_is_none (cursect st)); [discriminate|].
           apply (read_option_ok _ _ _ Hok' Hcv); try assumption.
           apply strip_lstrip.
Qed.

Lemma read_line_pending st line st' :
  read_line st line = Ok st' -> pending_error st = true -> pending_error st' = true.
Proof.
  intros Hrun Hp. unfold read_line in Hrun.
  assert (Happ : forall v, append_value st v = Ok st' -> pending_error st' = true).
  { intros v H. unfold append_value in H.
    destruct (cursect_dict st); [|injection H as <-; assumption].
    destruct (optname st); [|injection H as <-; assumption].
    destruct (get _ _); [|discriminate]. injection H as <-. assumption. }
  destruct (if is_comment line then [] else strip line).
  - destruct (_ && _ && _); [eauto | injection Hrun as <-; assumption].
  - destruct (_ && _ && _); [eauto|].
    destruct (sect_header _).
    + unfold read_header in Hrun. cbn [r_parser set_indent added_sections] in Hrun.
      destruct (mem _ _).
      * destruct (mem_str _ _); [discriminate|]. injection Hrun as <-. assumption.
      * destruct (str_eqb _ _); injection Hrun as <-; assumption.
    + destruct (cursor_is_none _); [discriminate|].
      unfold read_option in Hrun. destruct (opt_match _) as [[opt optval]|].
      * destruct (mem_pair _ _); [discriminate|].
        destruct (cursect_dict _); [|discriminate]. injection Hrun as <-.
        cbn [pending_error set_indent]. rewrite Hp. now destruct opt.
      * injection Hrun as <-. reflexivity.
Qed.

Lemma run_pending lines : forall st st',
  rfold read_line lines st = Ok st' -> pending_error st = true ->
  pending_error st' = true.
Proof.
  induction lines as [|l r IH]; intros st st' Hrun Hp; simpl in Hrun.
  - now injection Hrun as <-.
  - destruct (read_line st l) as [st1|] eqn:E; [|discriminate]. simpl in Hrun.
    eapply IH; [eassumption|]. eapply read_line_pending; eassumption.
Qed.

(** A run without a parsing error keeps the reader in order. *)
Theorem run_ok lines : forall st st',
  Forall clean lines -> reader_ok st ->
  rfold read_line lines st = Ok st' -> pending_error st' = false ->
  reader_ok st'.
Proof.
  induction lines as [|l r IH]; intros st st' Hcl Hok Hrun Hp; simpl in Hrun.
  - now injection Hrun as <-.
  - inversion Hcl; subst.
    destruct (read_line st l) as [st1|] eqn:E; [|discriminate]. simpl in Hrun.
    assert (Hp1 : pending_error st1 = false).
    { destruct (pending_error st1) eqn:E1; [|reflexivity].
      rewrite (run_pending _ _ _ Hrun E1) in Hp. discriminate. }
    apply (IH st1 st' H2); [|assumption|assumption].
    now apply (read_line_ok st l).
Qed.

Lemma reader0_ok : reader_ok reader0.
Proof.
  split; [split; [constructor | split; [constructor | apply raw_ok_nil]]|].
  intros n. discriminate.
Qed.

End InvariantFacts.

Module JoinFacts.
Import Py configparser Canonical StrFacts LineFacts DictFacts ClassifyFacts
       SectionFacts ToolFacts CharFacts TextFacts EntryFacts InvariantFacts.

Lemma trim_blank_cons l r :
  trim_blank (l :: r) = match trim_blank r with
                        | [] => match l with [] => [] | _ => [l] end
                        | r' => l :: r'
                        end.
Proof. reflexivity. Qed.

Lemma trim_blank_single ls x : trim_blank ls = [x] -> x <> [].
Proof.
  destruct ls as [|l r]; [discriminate|]. rewrite trim_blank_cons.
  destruct (trim_blank r).
  - destruct l; [discriminate|]. intros [= <-]. discriminate.
  - discriminate.
Qed.

Lemma join_lines_cons l x r : join_lines (l :: x :: r) = l ++ LF :: join_lines (x :: r).
Proof. reflexivity. Qed.

Lemma join_trim_not_nil ls x r : trim_blank ls = x :: r -> join_lines (x :: r) <> [].
Proof.
  intros H. destruct r as [|y r'].
  - apply trim_blank_single in H. exact H.
  - rewrite join_lines_cons. now destruct x.
Qed.

Lemma rstrip_app_blank a b : rstrip b = [] -> rstrip (a ++ b) = rstrip a.
Proof.
  intros Hb. induction a as [|c r IH]; [exact Hb|].
  simpl. now rewrite IH.
Qed.

Lemma rstrip_LF_cons s : rstrip (LF :: s) = match rstrip s with [] => [] | r' => LF :: r' end.
Proof. reflexivity. Qed.

(** Joining stripped lines and stripping the result drops the empty lines
    at the end. *)
Lemma rstrip_join ls :
  Forall (fun l => stripped l = true) ls ->
  rstrip (join_lines ls) = join_lines (trim_blank ls).
Proof.
  induction ls as [|l r IH]; intros H; [reflexivity|].
  inversion H as [|? ? Hl Hr]; subst. apply stripped_spec in Hl as [_ Hl].
  specialize (IH Hr). rewrite trim_blank_cons.
  destruct r as [|x r'].
  - cbn [trim_blank join_lines]. rewrite Hl. now destruct l.
  - rewrite join_lines_cons.
    destruct (trim_blank (x :: r')) as [|y t] eqn:E.
    + rewrite rstrip_app_blank; [rewrite Hl; now destruct l|].
      rewrite rstrip_LF_cons. now rewrite IH.
    + pose proof (join_trim_not_nil _ _ _ E) as Hne.
      rewrite rstrip_app_r.
      * rewrite rstrip_LF_cons, IH.
        destruct (join_lines (y :: t)) eqn:J; [congruence|].
        rewrite <- J. reflexivity.
      * rewrite rstrip_LF_cons, IH.
        destruct (join_lines (y :: t)); [congruence | discriminate].
Qed.

Lemma split_join ls :
  ls <> [] -> Forall (fun l => contains LF l = false) ls ->
  split_nl (join_lines ls) = ls.
Proof.
  induction ls as [|l r IH]; [congruence|]. intros _ H.
  inversion H as [|? ? Hl Hr]; subst.
  destruct r as [|x r'].
  - now apply split_nl_single.
  - rewrite join_lines_cons, split_nl_app by assumption.
    now rewrite IH.
Qed.

Lemma Forall_trim_blank (P : str -> Prop) ls : Forall P ls -> Forall P (trim_blank ls).
Proof.
  induction ls as [|l r IH]; intros H; [constructor|].
  inversion H; subst. rewrite trim_blank_cons.
  destruct (trim_blank r).
  - destruct l; [constructor | now repeat constructor].
  - constructor; [assumption | now apply IH].
Qed.

Lemma Forall_tl_trim_blank (P : str -> Prop) ls :
  Forall P (tl ls) -> Forall P (tl (trim_blank ls)).
Proof.
  destruct ls as [|l r]; [intros _; constructor|]. cbn [tl]. intros H.
  rewrite trim_blank_cons. pose proof (Forall_trim_blank P r H) as Ht.
  destruct (trim_blank r).
  - destruct l; constructor.
  - exact Ht.
Qed.

Lemma hd_trim_blank ls : trim_blank ls <> [] -> hd [] (trim_blank ls) = hd [] ls.
Proof.
  destruct ls as [|l r]; [reflexivity|]. rewrite trim_blank_cons.
  destruct (trim_blank r); [destruct l; [congruence | reflexivity] | reflexivity].
Qed.

Lemma trim_blank_nil_hd ls : trim_blank ls = [] -> hd [] ls = [].
Proof.
  destruct ls as [|l r]; [reflexivity|]. rewrite trim_blank_cons.
  destruct (trim_blank r); [destruct l; [reflexivity | discriminate] | discriminate].
Qed.

Lemma contains_join c ls :
  chr_eqb c LF = false -> Forall (fun l => contains c l = false) ls ->
  contains c (join_lines ls) = false.
Proof.
  intros Hc. induction ls as [|l r IH]; intros H; [reflexivity|].
  inversion H as [|? ? Hl Hr]; subst. destruct r as [|x r'].
  - exact Hl.
  - rewrite join_lines_cons, contains_app, Hl. cbn [orb].
    unfold contains. cbn [existsb]. rewrite Hc. cbn [orb]. now apply IH.
Qed.

(** The lines of a joined value. *)
Lemma split_join_value ls :
  Forall clean ls -> Forall (fun l => stripped l = true) ls ->
  split_nl (join_value ls) = match trim_blank ls with [] => [[]] | t => t end.
Proof.
  intros Hc Hs. unfold join_value. rewrite rstrip_join by assumption.
  destruct (trim_blank ls) as [|y t] eqn:E; [reflexivity|].
  apply split_join; [discriminate|].
  rewrite <- E. apply Forall_trim_blank.
  eapply Forall_impl; [|exact Hc]. cbv beta. now intros a (H & _).
Qed.

(** An option the reader holds is a valid item once its lines are joined. *)
Lemma join_entry_ok k ls : entry_ok (k, ls) -> valid_item (k, join_value ls) = true.
Proof.
  intros [Hk (Hne & Hc & Hs & Ht & Hh)]. cbn [fst snd] in *.
  pose proof (split_join_value ls Hc Hs) as Hsplit.
  unfold valid_item. cbn [fst snd]. rewrite (key_ok_valid k Hk). cbn [andb].
  assert (Hv : valid_value (join_value ls) = true).
  { unfold valid_value. rewrite Hsplit.
    assert (Hp : contains "%" (join_value ls) = false).
    { apply contains_rstrip, contains_join; [reflexivity|].
      eapply Forall_impl; [|exact Hc]. cbv beta. now intros a (_ & _ & H). }
    assert (Hr : contains CR (join_value ls) = false).
    { apply contains_rstrip, contains_join; [reflexivity|].
      eapply Forall_impl; [|exact Hc]. cbv beta. now intros a (_ & H & _). }
    rewrite Hp, Hr. cbn [negb andb].
    assert (Hi : str_eqb (rstrip (join_value ls)) (join_value ls) = true)
      by (unfold join_value; rewrite rstrip_idem; apply str_eqb_refl).
    rewrite Hi, andb_true_r.
    apply andb_true_iff. split.
    - pose proof (Forall_trim_blank _ ls Hs) as H.
      destruct (trim_blank ls); [reflexivity|].
      apply forallb_forall. now apply Forall_forall.
    - pose proof (Forall_tl_trim_blank _ ls Ht) as H.
      destruct (trim_blank ls) as [|y t]; [reflexivity|]. cbn [tl] in *.
      apply forallb_forall. intros x Hx. rewrite Forall_forall in H.
      now rewrite (H x Hx). }
  rewrite Hv. cbn [andb]. unfold option_line.
  assert (Hhd : hd [] (split_nl (join_value ls)) = hd [] ls).
  { rewrite Hsplit. destruct (trim_blank ls) as [|y t] eqn:E.
    - symmetry. now apply trim_blank_nil_hd.
    - rewrite <- E. apply hd_trim_blank. congruence. }
  rewrite Hhd. apply sect_header_None in Hh. now rewrite Hh.
Qed.

End JoinFacts.

Module ReadFacts.
Import Py configparser Canonical aws_auth StrFacts LineFacts ResFacts DictFacts
       ClassifyFacts SectionFacts ParserFacts ItemsFacts ToolFacts
       CharFacts TextFacts EntryFacts InvariantFacts JoinFacts.

Lemma valid_section_intro items :
  NoDup (keys items) -> Forall (fun kv => valid_item kv = true) items ->
  valid_section items = true.
Proof.
  intros Hnd Hall. unfold valid_section. apply andb_true_iff. split.
  - now apply nodup_keys_spec.
  - apply forallb_forall. now apply Forall_forall.
Qed.

Lemma valid_section_elim items :
  valid_section items = true ->
  NoDup (keys items) /\ Forall (fun kv => valid_item kv = true) items.
Proof.
  intros H. apply valid_section_spec in H as [Hnd Hall]. split; [assumption|].
  apply Forall_forall. now apply forallb_forall.
Qed.

Lemma keys_join_section d : keys (join_section d) = keys d.
Proof. unfold keys, join_section. rewrite map_map. reflexivity. Qed.

Lemma join_section_valid raw : raw_ok raw -> valid_section (join_section raw) = true.
Proof.
  intros [Hnd Hall]. apply valid_section_intro.
  - now rewrite keys_join_section.
  - unfold join_section. apply Forall_map.
    eapply Forall_impl; [|exact Hall]. intros [k ls] H. now apply join_entry_ok.
Qed.

(** What the parser holds after reading a text without [%]. *)
Lemma read_string_valid text p :
  contains "%" text = false -> read_string text = Ok p ->
  NoDup (keys (_sections p)) /\ Forall valid_entry (_sections p)
  /\ valid_section (_defaults p) = true.
Proof.
  intros Hp Hr. unfold read_string, _read in Hr.
  destruct (rfold read_line _ reader0) as [st|] eqn:E; [|discriminate].
  cbn [rbind] in Hr. destruct (pending_error st) eqn:Ep; [discriminate|].
  injection Hr as <-.
  destruct (run_ok _ _ _ (lines_clean text Hp) reader0_ok E Ep) as [(Hnd & Hall & Hdf) _].
  cbn [_join_multiline_values _sections _defaults]. split; [|split].
  - unfold keys in *. now rewrite map_map.
  - apply Forall_map. eapply Forall_impl; [|exact Hall].
    intros [n raw] [Hn Hraw]. split; [exact Hn | now apply join_section_valid].
  - now apply join_section_valid.
Qed.

Lemma update_valid other : forall acc,
  valid_section acc = true -> valid_section other = true ->
  valid_section (update acc other) = true.
Proof.
  unfold update. induction other as [|[k v] r IH]; intros acc Ha Ho; [exact Ha|].
  cbn [fold_left fst snd]. apply valid_section_elim in Ho as [Hnd Hall].
  inversion Hnd; subst. inversion Hall; subst.
  apply IH; [|now apply valid_section_intro].
  apply valid_section_elim in Ha as [Hnda Halla].
  apply valid_section_intro; [now apply NoDup_keys_set | now apply Forall_set].
Qed.

Lemma items_valid (p : ConfigParser str) section sd :
  get section (_sections p) = Some sd ->
  valid_section (_defaults p) = true -> valid_section sd = true ->
  items p section = Ok (update (_defaults p) sd).
Proof.
  intros Hg Hdf Hsd. unfold items. rewrite Hg. cbn [rbind].
  pose proof (update_valid _ _ Hdf Hsd) as Hv.
  apply rmap_items_plain. intros k v Hin. split.
  - apply valid_section_spec in Hv as [Hnd _]. now apply get_in_nodup.
  - apply valid_section_plain in Hv. unfold values_plain in Hv.
    rewrite Forall_forall in Hv. apply (Hv _ Hin).
Qed.

Lemma rmap_sections_valid (p : ConfigParser str) :
  valid_section (_defaults p) = true ->
  forall part,
    (forall n sd, In (n, sd) part ->
       get n (_sections p) = Some sd /\ valid_section sd = true) ->
    rmap (fun section =>
            rbind (items p section) (fun its => Ok (section, of_items its)))
         (keys part)
    = Ok (List.map (fun sd => (fst sd, update (_defaults p) (snd sd))) part).
Proof.
  intros Hdf. induction part as [|[n sd] r IH]; intros H; [reflexivity|].
  cbn [keys List.map fst snd rmap].
  destruct (H n sd (or_introl eq_refl)) as (Hg & Hsd).
  rewrite (items_valid p n sd) by assumption. cbn [rbind].
  pose proof (update_valid _ _ Hdf Hsd) as Hv.
  apply valid_section_spec in Hv as [Hnd _].
  rewrite of_items_nodup by assumption.
  unfold keys in IH. rewrite IH; [reflexivity|].
  intros n' sd' Hin. apply H. now right.
Qed.

(** The mapping built from a parser that holds valid sections and valid
    defaults: it is [merged], and it is valid. *)
Lemma dict_of_valid_parser (p : ConfigParser str) :
  NoDup (keys (_sections p)) -> Forall valid_entry (_sections p) ->
  valid_section (_defaults p) = true ->
  rbind (rmap (fun section =>
                 rbind (items p section) (fun its => Ok (section, of_items its)))
              (sections p))
        (fun entries => Ok (of_items entries))
  = Ok (merged p)
  /\ valid_dict (merged p) = true.
Proof.
  intros Hnd Hall Hdf.
  assert (Hk : keys (merged p) = keys (_sections p)).
  { unfold merged, keys. rewrite map_map. reflexivity. }
  split.
  - unfold sections. rewrite rmap_sections_valid; [|assumption|].
    + cbn [rbind]. fold (merged p). rewrite of_items_nodup; [reflexivity|].
      now rewrite Hk.
    + intros n sd Hin. split; [now apply get_in_nodup|].
      rewrite Forall_forall in Hall. apply (Hall _ Hin).
  - apply valid_dict_spec. split; [now rewrite Hk|].
    unfold merged. apply Forall_map. eapply Forall_impl; [|exact Hall].
    intros [n sd] [Hn Hsd]. split; [exact Hn|]. cbn [fst snd] in *.
    now apply update_valid.
Qed.

(** Whatever [read_ini_file_to_dict] returns for a file without [%] is a
    mapping the writer and the reader agree on. *)
Theorem read_valid f d :
  plain_file f = true -> read_ini_file_to_dict f = Ok d -> valid_dict d = true.
Proof.
  intros Hp Hr. unfold read_ini_file_to_dict, read in Hr.
  destruct f as [c | r w text].
  - cbn in Hr. injection Hr as <-. reflexivity.
  - destruct r; cbn [open_read] in Hr.
    + destruct (read_string text) as [p|] eqn:E; [|discriminate]. cbn [rbind] in Hr.
      cbn [plain_file] in Hp. apply negb_true_iff in Hp.
      destruct (read_string_valid text p Hp E) as (Hnd & Hall & Hdf).
      destruct (dict_of_valid_parser p Hnd Hall Hdf) as [Heq Hv].
      rewrite Heq in Hr. now injection Hr as <-.
    + cbn in Hr. injection Hr as <-. reflexivity.
Qed.

(** The same for the credentials file of a world. *)
Lemma read_plain (w : world) d text :
  credentials w = Present true true text -> contains "%" text = false ->
  read_ini_file_to_dict (credentials w) = Ok d -> valid_dict d = true.
Proof.
  intros Hf Hp Hr. apply (read_valid (credentials w)); [|assumption].
  rewrite Hf. cbn [plain_file]. now rewrite Hp.
Qed.

End ReadFacts.

Module RunFacts.
Import Py configparser Canonical aws_auth StrFacts DictFacts ToolFacts RoundTrip.

(** What [save_session_credentials] does once the file has been read. *)
Lemma save_run w c P d :
  read_ini_file_to_dict (credentials w) = Ok d ->
  save_session_credentials c P w
  = match write_dict_to_ini_file (set P (session_section c) d) (credentials w) with
    | Ok f => (Ok tt, logged (with_credentials w f) INFO (save_message w P))
    | Raise e => (Raise e, w)
    end.
Proof.
  intros Hr. unfold save_session_credentials, bind, read_creds, write_creds.
  rewrite Hr. rewrite update_single.
  destruct (write_dict_to_ini_file _ _); reflexivity.
Qed.

(** What [copy_profile] does once the file has been read. *)
Lemma copy_run w s t d :
  read_ini_file_to_dict (credentials w) = Ok d ->
  copy_profile s t w
  = match get s d with
    | None => (Raise (KeyError s), w)
    | Some sec =>
        match write_dict_to_ini_file (set t sec d) (credentials w) with
        | Ok f => (Ok tt, with_credentials w f)
        | Raise e => (Raise e, w)
        end
    end.
Proof.
  intros Hr. unfold copy_profile, bind, read_creds, write_creds, getitem.
  rewrite Hr. destruct (get s d); [|reflexivity]. unfold ret.
  destruct (write_dict_to_ini_file _ _); reflexivity.
Qed.

Lemma save_raises_unread w c P e :
  read_ini_file_to_dict (credentials w) = Raise e ->
  save_session_credentials c P w = (Raise e, w).
Proof.
  intros Hr. unfold save_session_credentials, bind, read_creds. now rewrite Hr.
Qed.

(** Persisting on a readable and writable file whose mapping stays valid. *)
Lemma save_valid w c P d text :
  credentials w = Present true true text ->
  read_ini_file_to_dict (credentials w) = Ok d ->
  valid_dict (set P (session_section c) d) = true ->
  let f' := Present true true (write (mkParser (set P (session_section c) d) [])) in
  save_session_credentials c P w
  = (Ok tt, logged (with_credentials w f') INFO (save_message w P))
  /\ read_ini_file_to_dict f' = Ok (set P (session_section c) d).
Proof.
  intros Hf Hr Hv f'. rewrite (save_run w c P d Hr). rewrite Hf.
  destruct (write_then_read (set P (session_section c) d) (Present true true text) Hv eq_refl)
    as (f2 & Hw & Hf2 & Hread).
  rewrite Hw. subst f2. split; [reflexivity|]. now apply Hread.
Qed.

Lemma copy_valid w s t d sec text :
  credentials w = Present true true text ->
  read_ini_file_to_dict (credentials w) = Ok d ->
  get s d = Some sec ->
  valid_dict (set t sec d) = true ->
  let f' := Present true true (write (mkParser (set t sec d) [])) in
  copy_profile s t w = (Ok tt, with_credentials w f')
  /\ read_ini_file_to_dict f' = Ok (set t sec d).
Proof.
  intros Hf Hr Hg Hv f'. rewrite (copy_run w s t d Hr), Hg, Hf.
  destruct (write_then_read (set t sec d) (Present true true text) Hv eq_refl)
    as (f2 & Hw & Hf2 & Hread).
  rewrite Hw. subst f2. split; [reflexivity|]. now apply Hread.
Qed.

Lemma valid_section_of_dict d s sec :
  valid_dict d = true -> get s d = Some sec -> valid_section sec = true.
Proof.
  intros Hv Hg. apply ParserFacts.valid_dict_spec in Hv as [_ Hall].
  induction Hall as [|[n items] r [_ Hs] Hr IH]; [discriminate|].
  simpl in Hg. destruct (str_eqb s n); [now injection Hg as <- | now apply IH].
Qed.

(** [get_session] by cases on the first call of [boto3.Session]. *)
Lemma get_session_run (pv : Provider) (sp : str) (w : world) :
  exists w1,
    credentials w1 = credentials w
    /\ get_session sp w
       = match boto3_Session (credentials w) sp with
         | Ok s => (Ok s, session_opened w sp)
         | Raise (ProfileNotFound p) =>
             match copy_profile (L "default") sp w1 with
             | (Ok _, w2) => (boto3_Session (credentials w2) sp, session_opened w2 sp)
             | (Raise e, w2) => (Raise e, w2)
             end
         | Raise e => (Raise e, session_opened w sp)
         end.
Proof.
  exists (logged (session_opened w sp) WARNING (profile_not_found_message sp)).
  split; [reflexivity|].
  unfold get_session, try_except, open_session, bind, logger.
  fold (session_opened w sp).
  destruct (boto3_Session (credentials w) sp) as [s|e]; [reflexivity|].
  destruct e; reflexivity.
Qed.

End RunFacts.

(** * The claims *)

Import Py configparser Canonical aws_auth Samples StrFacts DictFacts ToolFacts
       RoundTrip ReadFacts RunFacts.

(** ** Persisting a credential *)

(** C1, the code breaks the claim: the file is read with interpolation and
    the values read are written back as they are.  In [escaped_reference]
    section [a] holds [k = %%(x)s]; persisting under profile [b] succeeds,
    and afterwards the value of [k] in section [a], which no one asked to
    change, is no longer [%(x)s] but [1]. *)
Lemma persist_changes_other_section :
  let w := world_of escaped_reference in
  let run := save_session_credentials session_creds (L "b") w in
  fst run = Ok tt
  /\ exists d d',
       read_ini_file_to_dict (credentials w) = Ok d
       /\ read_ini_file_to_dict (credentials (snd run)) = Ok d'
       /\ get (L "a") d = Some [(L "k", L "%(x)s"); (L "x", L "1")]
       /\ get (L "a") d' = Some [(L "k", L "1"); (L "x", L "1")]
       /\ get (L "a") d' <> get (L "a") d.
Proof.
  cbv zeta. split; [vm_compute; reflexivity|].
  eexists. eexists.
  split; [vm_compute; reflexivity|].
  split; [vm_compute; reflexivity|].
  split; [vm_compute; reflexivity|].
  split; [vm_compute; reflexivity|].
  vm_compute. discriminate.
Qed.

(** X26: on a file without [%] the other sections are kept.  When the
    credentials file can be read and written, its
    text holds no [%] and is read as the mapping [d], the target profile
    [P] is a valid section name and the credential has valid values,
    persisting succeeds and every section other than [P] reads back as it
    was. *)
Theorem persist_frame (w : world) (c : Credentials) (P : str)
        (d : dict (dict str)) (text : str) :
  credentials w = Present true true text ->
  contains "%" text = false ->
  read_ini_file_to_dict (credentials w) = Ok d ->
  valid_name P = true ->
  valid_credentials c = true ->
  exists w' d',
    save_session_credentials c P w = (Ok tt, w')
    /\ read_ini_file_to_dict (credentials w') = Ok d'
    /\ forall s, s <> P -> get s d' = get s d.
Proof.
  intros Hf Hp Hr HP Hc.
  assert (Hd : valid_dict d = true) by (now apply (read_plain w d text)).
  assert (Hv : valid_dict (set P (session_section c) d) = true)
    by (apply valid_dict_set; [assumption | assumption | now apply session_section_valid]).
  destruct (save_valid w c P d text Hf Hr Hv) as [Hrun Hread].
  eexists. eexists. split; [exact Hrun|]. split; [exact Hread|].
  intros s Hs. now apply get_set_other.
Qed.

Lemma persist_frame_witness :
  exists w' d',
    save_session_credentials session_creds (L "session") (world_of two_profiles)
    = (Ok tt, w')
    /\ read_ini_file_to_dict (credentials w') = Ok d'
    /\ forall s, s <> L "session" -> get s d' = get s two_profiles_dict.
Proof.
  apply (persist_frame (world_of two_profiles) session_creds (L "session")
                       two_profiles_dict two_profiles).
  - reflexivity.
  - vm_compute. reflexivity.
  - vm_compute. reflexivity.
  - vm_compute. reflexivity.
  - vm_compute. reflexivity.
Defined.

(** C3, the claim as stated fails.  In [key_twice] the target section
    [default] holds the same key twice (in two cases): the parser refuses
    the file with [DuplicateOptionError], so persisting raises and the
    section keeps what it held.  And with the target [DEFAULT] on
    [one_section] persisting succeeds, yet the mapping read back has no
    section [DEFAULT]: the three keys are read in section [a], next to the
    key it held. *)
Lemma persist_leaves_refused_section :
  save_session_credentials session_creds (L "default") (world_of key_twice)
  = (Raise (DuplicateOptionError (L "default") (L "aws_access_key_id")),
     world_of key_twice)
  /\ (let run := save_session_credentials session_creds (L "DEFAULT")
                                          (world_of one_section) in
      fst run = Ok tt
      /\ exists d',
           read_ini_file_to_dict (credentials (snd run)) = Ok d'
           /\ get (L "DEFAULT") d' = None
           /\ get (L "a") d' = Some (session_section session_creds ++ [(L "k", L "1")])).
Proof.
  split; [vm_compute; reflexivity|].
  cbv zeta. split; [vm_compute; reflexivity|].
  eexists. split; [vm_compute; reflexivity|].
  split; vm_compute; reflexivity.
Qed.

(** C3, amended: when the credentials file can be read and written, holds
    no [%] and is accepted by the parser, whatever the target section held
    before, the target profile [P] is a valid section name and the
    credential has valid values, persisting succeeds and section [P] reads
    back as exactly the three keys of the credential, in this order, with
    its values: no key of the former content is kept. *)
Theorem persist_replaces_section (w : world) (c : Credentials) (P : str)
        (d : dict (dict str)) (text : str) :
  credentials w = Present true true text ->
  contains "%" text = false ->
  read_ini_file_to_dict (credentials w) = Ok d ->
  valid_name P = true ->
  valid_credentials c = true ->
  exists w' d',
    save_session_credentials c P w = (Ok tt, w')
    /\ read_ini_file_to_dict (credentials w') = Ok d'
    /\ get P d' = Some [ (L "aws_access_key_id", AccessKeyId c);
                         (L "aws_secret_access_key", SecretAccessKey c);
                         (L "aws_session_token", SessionToken c) ].
Proof.
  intros Hf Hp Hr HP Hc.
  assert (Hd : valid_dict d = true) by (now apply (read_plain w d text)).
  assert (Hv : valid_dict (set P (session_section c) d) = true)
    by (apply valid_dict_set; [assumption | assumption | now apply session_section_valid]).
  destruct (save_valid w c P d text Hf Hr Hv) as [Hrun Hread].
  eexists. eexists. split; [exact Hrun|]. split; [exact Hread|].
  apply get_set_same.
Qed.

Lemma persist_replaces_section_witness :
  get (L "work") two_profiles_dict
  = Some [ (L "aws_access_key_id", L "AKIAWORK");
           (L "aws_secret_access_key", L "worksecret");
           (L "region", L "eu-west-1") ]
  /\ exists w' d',
       save_session_credentials session_creds (L "work") (world_of two_profiles)
       = (Ok tt, w')
       /\ read_ini_file_to_dict (credentials w') = Ok d'
       /\ get (L "work") d'
          = Some [ (L "aws_access_key_id", AccessKeyId session_creds);
                   (L "aws_secret_access_key", SecretAccessKey session_creds);
                   (L "aws_session_token", SessionToken session_creds) ].
Proof.
  split; [vm_compute; reflexivity|].
  apply (persist_replaces_section (world_of two_profiles) session_creds (L "work")
                                  two_profiles_dict two_profiles).
  - reflexivity.
  - vm_compute. reflexivity.
  - vm_compute. reflexivity.
  - vm_compute. reflexivity.
  - vm_compute. reflexivity.
Defined.

(** ** Choosing the MFA device *)

(** C4, the claim as stated fails: with the provider [deviceless_provider]
    no device is listed, and the source profile [mfa-source] is not in
    [two_profiles]; [mfa_cli] ends with [SystemExit 1], yet the credentials
    file has been written: the fallback of [get_session] has copied
    [default] under [mfa-source] before the devices were listed. *)
Lemma exit_after_fallback_copy :
  let w := world_of two_profiles in
  let run := @mfa_cli deviceless_provider None (L "123456") 3600
                      (L "mfa-source") (L "default") w in
  @list_mfa_devices deviceless_provider (L "mfa-source") = Ok []
  /\ fst run = Raise (SystemExit 1)
  /\ credentials (snd run) <> credentials w
  /\ exists d d',
       read_ini_file_to_dict (credentials w) = Ok d
       /\ read_ini_file_to_dict (credentials (snd run)) = Ok d'
       /\ get (L "mfa-source") d = None
       /\ get (L "mfa-source") d'
          = Some [ (L "aws_access_key_id", L "AKIADEFAULT");
                   (L "aws_secret_access_key", L "defaultsecret") ].
Proof.
  cbv zeta. split; [reflexivity|]. split; [vm_compute; reflexivity|].
  split; [vm_compute; discriminate|].
  eexists. eexists.
  split; [vm_compute; reflexivity|].
  split; [vm_compute; reflexivity|].
  split; vm_compute; reflexivity.
Qed.

(** C4, amended: with the devices the provider lists,
    [auto_detect_mfa_device] returns the serial number of the first one; it
    logs a warning that names it when there are several and nothing but
    the debug record when there is one; with no device it raises
    [SystemExit 1] after an error record.  It depends on the session and
    the list alone, and never touches the credentials file.  With no
    device both commands end with [SystemExit 1] before
    [save_session_credentials]: the credential is not persisted, and the
    file is as [get_session] left it, which is the file as it was
    whenever the first call of [boto3.Session] found the source
    profile. *)
Theorem auto_detect_selects_first (pv : Provider) (session : Session) (w : world)
        (devices : list MFADevice) :
  list_mfa_devices session = Ok devices ->
  let w0 := logged w DEBUG autodetect_message in
  auto_detect_mfa_device session w
  = match devices with
    | [] => (Raise (SystemExit 1), logged w0 ERROR no_device_message)
    | [first] => (Ok (SerialNumber first), w0)
    | first :: _ :: _ =>
        (Ok (SerialNumber first),
         logged w0 WARNING (multiple_devices_message (SerialNumber first)))
    end
  /\ credentials (snd (auto_detect_mfa_device session w)) = credentials w
  /\ (devices = [] ->
      forall code duration sp tp role_arn session_name ws w1,
        get_session sp ws = (Ok session, w1) ->
        (exists w2, mfa_cli None code duration sp tp ws = (Raise (SystemExit 1), w2)
                    /\ credentials w2 = credentials w1
                    /\ ((exists s0, boto3_Session (credentials ws) sp = Ok s0) ->
                        credentials w2 = credentials ws))
        /\ (exists w2, assume_cli role_arn session_name None code duration sp tp ws
                       = (Raise (SystemExit 1), w2)
                       /\ credentials w2 = credentials w1
                       /\ ((exists s0, boto3_Session (credentials ws) sp = Ok s0) ->
                           credentials w2 = credentials ws))).
Proof.
  intros Hl w0.
  assert (Hrun : auto_detect_mfa_device session w
                 = match devices with
                   | [] => (Raise (SystemExit 1), logged w0 ERROR no_device_message)
                   | [first] => (Ok (SerialNumber first), w0)
                   | first :: _ :: _ =>
                       (Ok (SerialNumber first),
                        logged w0 WARNING (multiple_devices_message (SerialNumber first)))
                   end).
  { unfold auto_detect_mfa_device, bind, lift, logger. cbn [fst snd]. rewrite Hl.
    destruct devices as [|first [|second rest]]; reflexivity. }
  split; [exact Hrun|]. split.
  - rewrite Hrun. destruct devices as [|first [|second rest]]; reflexivity.
  - intros -> code duration sp tp role_arn session_name ws w1 Hs.
    assert (Hd : forall wx, auto_detect_mfa_device session wx
                            = (Raise (SystemExit 1),
                               logged (logged wx DEBUG autodetect_message)
                                      ERROR no_device_message)).
    { intros wx. unfold auto_detect_mfa_device, bind, lift, logger. cbn [fst snd].
      now rewrite Hl. }
    assert (Hfound : (exists s0, boto3_Session (credentials ws) sp = Ok s0) ->
                     credentials w1 = credentials ws).
    { intros [s0 Hb]. unfold get_session, try_except, open_session in Hs.
      rewrite Hb in Hs. now injection Hs as _ <-. }
    split.
    + eexists. unfold mfa_cli, bind. rewrite Hs, Hd.
      split; [reflexivity|]. split; [reflexivity | exact Hfound].
    + eexists. unfold assume_cli, bind. rewrite Hs, Hd.
      split; [reflexivity|]. split; [reflexivity | exact Hfound].
Qed.

Lemma auto_detect_selects_first_witness :
  let w := world_of two_profiles in
  let w0 := logged w DEBUG autodetect_message in
  let tony := mkDevice (L "arn:aws:iam::123456789012:mfa/tony.stark") (L "tony.stark") in
  let pepper := mkDevice (L "arn:aws:iam::123456789012:mfa/pepper.potts") (L "pepper.potts") in
  (* no device *)
  (@auto_detect_mfa_device deviceless_provider (L "default") w
   = (Raise (SystemExit 1), logged w0 ERROR no_device_message)
   /\ credentials (snd (@auto_detect_mfa_device deviceless_provider (L "default") w))
      = credentials w
   /\ (exists w2, @mfa_cli deviceless_provider None (L "123456") 3600 (L "default")
                           (L "default") w = (Raise (SystemExit 1), w2)
                  /\ credentials w2 = credentials (session_opened w (L "default"))
                  /\ ((exists s0, @boto3_Session deviceless_provider (credentials w)
                                                 (L "default") = Ok s0) ->
                      credentials w2 = credentials w))
   /\ (exists w2, @assume_cli deviceless_provider (L "role") (L "t") None (L "123456") 3600
                              (L "default") (L "default") w = (Raise (SystemExit 1), w2)
                  /\ credentials w2 = credentials (session_opened w (L "default"))
                  /\ ((exists s0, @boto3_Session deviceless_provider (credentials w)
                                                 (L "default") = Ok s0) ->
                      credentials w2 = credentials w)))
  (* one device *)
  /\ (@auto_detect_mfa_device file_provider (L "default") w
      = (Ok (SerialNumber tony), w0)
      /\ credentials (snd (@auto_detect_mfa_device file_provider (L "default") w))
         = credentials w)
  (* two devices *)
  /\ (@auto_detect_mfa_device two_device_provider (L "default") w
      = (Ok (SerialNumber tony),
         logged w0 WARNING (multiple_devices_message (SerialNumber tony)))
      /\ credentials (snd (@auto_detect_mfa_device two_device_provider (L "default") w))
         = credentials w).
Proof.
  cbv zeta. split; [|split].
  - destruct (@auto_detect_selects_first deviceless_provider (L "default")
                (world_of two_profiles) [] eq_refl) as (Hrun & Hfile & Hexit).
    split; [exact Hrun|]. split; [exact Hfile|].
    apply (Hexit eq_refl (L "123456") 3600 (L "default") (L "default") (L "role") (L "t")
                 (world_of two_profiles)
                 (session_opened (world_of two_profiles) (L "default"))).
    vm_compute. reflexivity.
  - destruct (@auto_detect_selects_first file_provider (L "default")
                (world_of two_profiles)
                [mkDevice (L "arn:aws:iam::123456789012:mfa/tony.stark") (L "tony.stark")]
                eq_refl) as (Hrun & Hfile & _).
    split; [exact Hrun | exact Hfile].
  - destruct (@auto_detect_selects_first two_device_provider (L "default")
                (world_of two_profiles)
                [mkDevice (L "arn:aws:iam::123456789012:mfa/tony.stark") (L "tony.stark");
                 mkDevice (L "arn:aws:iam::123456789012:mfa/pepper.potts") (L "pepper.potts")]
                eq_refl) as (Hrun & Hfile & _).
    split; [exact Hrun | exact Hfile].
Defined.

(** ** Resolving the source profile *)




(** C9: when the mapping read from the credentials file has no [default]
    section, [copy_profile] from [default] raises [KeyError] and leaves the
    world as it was, nothing being written; the fallback of [get_session]
    then ends with this [KeyError], the credentials file unchanged. *)
Theorem copy_without_default_raises (pv : Provider) (w : world)
        (d : dict (dict str)) (target_profile : str) :
  read_ini_file_to_dict (credentials w) = Ok d ->
  get (L "default") d = None ->
  copy_profile (L "default") target_profile w = (Raise (KeyError (L "default")), w)
  /\ forall sp p,
       boto3_Session (credentials w) sp = Raise (ProfileNotFound p) ->
       exists w',
         get_session sp w = (Raise (KeyError (L "default")), w')
         /\ credentials w' = credentials w.
Proof.
  intros Hr Hg. split.
  - rewrite (copy_run w (L "default") target_profile d Hr). now rewrite Hg.
  - intros sp p Hb.
    destruct (get_session_run pv sp w) as [w1 [Hw1 Hrun]].
    rewrite Hrun, Hb.
    rewrite (copy_run w1 (L "default") sp d) by (now rewrite Hw1).
    rewrite Hg. eexists. split; [reflexivity | exact Hw1].
Qed.

Lemma copy_without_default_raises_witness :
  copy_profile (L "default") (L "missing") (world_of one_section)
  = (Raise (KeyError (L "default")), world_of one_section)
  /\ forall sp p,
       @boto3_Session file_provider (credentials (world_of one_section)) sp
       = Raise (ProfileNotFound p) ->
       exists w',
         @get_session file_provider sp (world_of one_section)
         = (Raise (KeyError (L "default")), w')
         /\ credentials w' = credentials (world_of one_section).
Proof.
  apply (@copy_without_default_raises file_provider (world_of one_section)
                                      one_section_dict (L "missing")).
  - vm_compute. reflexivity.
  - vm_compute. reflexivity.
Defined.

(** C6, the code breaks the claim, by the defect of C1 (values are read
    with interpolation and written back as read): in
    [default_with_percent] the [default] section exists and holds exactly
    the keys [a] and [b], and there is no section [missing]; the value of
    [a] is written [x%%y], which reads as [x%y].  The fallback raises
    [ValueError] when it writes back the value it has just read, so no
    section [missing] is produced and the file stays as it was. *)
Lemma fallback_fails_on_percent :
  let w := world_of default_with_percent in
  read_ini_file_to_dict (credentials w)
  = Ok [ (L "default", [ (L "a", L "x%y"); (L "b", L "1") ]) ]
  /\ @boto3_Session file_provider (credentials w) (L "missing")
     = Raise (ProfileNotFound (L "missing"))
  /\ fst (@get_session file_provider (L "missing") w) = Raise ValueError
  /\ credentials (snd (@get_session file_provider (L "missing") w)) = credentials w.
Proof.
  cbv zeta. repeat split; vm_compute; reflexivity.
Qed.

(** X27: the fallback on a file without [%].  When the credentials file
    can be read and written, its
    text holds no [%] and is read as the mapping [d], [d] has a [default]
    section and no section [S], [S] is a valid section name, the first
    opening of a session fails with [ProfileNotFound], and the provider
    finds a profile that is a section of the credentials file, then
    [get_session] returns a session and the file reads back as [d]
    followed by a section [S] equal to [default]. *)
Theorem fallback_provisions_profile (pv : Provider) (w : world) (S : str)
        (d : dict (dict str)) (sec : dict str) (text : str) (p : str) :
  credentials w = Present true true text ->
  contains "%" text = false ->
  read_ini_file_to_dict (credentials w) = Ok d ->
  get (L "default") d = Some sec ->
  get S d = None ->
  valid_name S = true ->
  boto3_Session (credentials w) S = Raise (ProfileNotFound p) ->
  (forall f d', read_ini_file_to_dict f = Ok d' -> get S d' <> None ->
                exists s, boto3_Session f S = Ok s) ->
  exists s w',
    get_session S w = (Ok s, w')
    /\ read_ini_file_to_dict (credentials w') = Ok (d ++ [(S, sec)])
    /\ get S (d ++ [(S, sec)]) = Some sec
    /\ get (L "default") (d ++ [(S, sec)]) = Some sec.
Proof.
  intros Hf Hp Hr Hdef HS Hname Hb Hfinds.
  assert (Hd : valid_dict d = true) by (now apply (read_plain w d text)).
  assert (Hsec : valid_section sec = true) by (eapply valid_section_of_dict; eassumption).
  assert (Hv : valid_dict (set S sec d) = true) by (now apply valid_dict_set).
  destruct (get_session_run pv S w) as [w1 [Hw1 Hrun]].
  rewrite Hrun, Hb.
  assert (Hf1 : credentials w1 = Present true true text) by (now rewrite Hw1).
  assert (Hr1 : read_ini_file_to_dict (credentials w1) = Ok d) by (now rewrite Hw1).
  destruct (copy_valid w1 (L "default") S d sec text Hf1 Hr1 Hdef Hv) as [Hcopy Hread].
  rewrite Hcopy. rewrite set_notin in * by assumption.
  cbn [credentials with_credentials].
  assert (HgS : get S (d ++ [(S, sec)]) = Some sec) by (now apply get_snoc).
  destruct (Hfinds _ _ Hread) as [s Hs]; [congruence|].
  rewrite Hs. exists s. eexists. split; [reflexivity|].
  split; [exact Hread|]. split; [exact HgS|].
  assert (Hne : L "default" <> S) by (intros <-; congruence).
  rewrite <- (set_notin S sec d HS). now rewrite get_set_other.
Qed.

Lemma fallback_provisions_profile_witness :
  exists s w',
    @get_session file_provider (L "mfa-source") (world_of two_profiles) = (Ok s, w')
    /\ read_ini_file_to_dict (credentials w')
       = Ok (two_profiles_dict
               ++ [(L "mfa-source", [ (L "aws_access_key_id", L "AKIADEFAULT");
                                      (L "aws_secret_access_key", L "defaultsecret") ])])
    /\ get (L "mfa-source")
           (two_profiles_dict
              ++ [(L "mfa-source", [ (L "aws_access_key_id", L "AKIADEFAULT");
                                     (L "aws_secret_access_key", L "defaultsecret") ])])
       = Some [ (L "aws_access_key_id", L "AKIADEFAULT");
                (L "aws_secret_access_key", L "defaultsecret") ]
    /\ get (L "default")
           (two_profiles_dict
              ++ [(L "mfa-source", [ (L "aws_access_key_id", L "AKIADEFAULT");
                                     (L "aws_secret_access_key", L "defaultsecret") ])])
       = Some [ (L "aws_access_key_id", L "AKIADEFAULT");
                (L "aws_secret_access_key", L "defaultsecret") ].
Proof.
  apply (@fallback_provisions_profile file_provider (world_of two_profiles)
           (L "mfa-source") two_profiles_dict
           [ (L "aws_access_key_id", L "AKIADEFAULT");
             (L "aws_secret_access_key", L "defaultsecret") ]
           two_profiles (L "mfa-source")).
  - reflexivity.
  - vm_compute. reflexivity.
  - vm_compute. reflexivity.
  - vm_compute. reflexivity.
  - vm_compute. reflexivity.
  - vm_compute. reflexivity.
  - vm_compute. reflexivity.
  - intros f d' Hread Hget. exists (L "mfa-source").
    cbn [boto3_Session file_provider]. rewrite Hread. unfold mem.
    destruct (get (L "mfa-source") d'); [reflexivity | congruence].
Defined.

(** C7, the code breaks the claim, by the defect of C1 (values are read
    with interpolation and written back as read, so that every copy takes
    one level of [%] away from the whole file): in [default_twice_escaped]
    the [default] section holds [k = %%%%(x)s]; both copies into [p]
    succeed, yet the file after the second copy differs from the file
    after the first, and so does section [p] as read from them. *)
Lemma copy_twice_differs :
  let w := world_of default_twice_escaped in
  let first := copy_profile (L "default") (L "p") w in
  let second := copy_profile (L "default") (L "p") (snd first) in
  fst first = Ok tt /\ fst second = Ok tt
  /\ credentials (snd second) <> credentials (snd first)
  /\ exists d1 d2,
       read_ini_file_to_dict (credentials (snd first)) = Ok d1
       /\ read_ini_file_to_dict (credentials (snd second)) = Ok d2
       /\ get (L "p") d1 = Some [ (L "k", L "%(x)s"); (L "x", L "1") ]
       /\ get (L "p") d2 = Some [ (L "k", L "1"); (L "x", L "1") ].
Proof.
  cbv zeta. split; [vm_compute; reflexivity|]. split; [vm_compute; reflexivity|].
  split; [vm_compute; discriminate|].
  eexists. eexists.
  split; [vm_compute; reflexivity|].
  split; [vm_compute; reflexivity|].
  split; vm_compute; reflexivity.
Qed.

(** X28: copying twice on a file without [%].  When the credentials file
    can be read and written, its
    text holds no [%] and is read as the mapping [d], [d] has a [default]
    section and [P] is a valid section name, copying [default] into [P]
    succeeds, and copying it a second time succeeds and leaves the file,
    and the whole world, as the first copy left them; section [P] then
    reads as [default]. *)
Theorem copy_profile_idempotent (w : world) (P : str) (d : dict (dict str))
        (sec : dict str) (text : str) :
  credentials w = Present true true text ->
  contains "%" text = false ->
  read_ini_file_to_dict (credentials w) = Ok d ->
  get (L "default") d = Some sec ->
  valid_name P = true ->
  exists w1,
    copy_profile (L "default") P w = (Ok tt, w1)
    /\ copy_profile (L "default") P w1 = (Ok tt, w1)
    /\ exists d1, read_ini_file_to_dict (credentials w1) = Ok d1
                  /\ get P d1 = Some sec.
Proof.
  intros Hf Hp Hr Hdef HP.
  assert (Hd : valid_dict d = true) by (now apply (read_plain w d text)).
  assert (Hsec : valid_section sec = true) by (eapply valid_section_of_dict; eassumption).
  assert (Hv : valid_dict (set P sec d) = true) by (now apply valid_dict_set).
  destruct (copy_valid w (L "default") P d sec text Hf Hr Hdef Hv) as [Hcopy Hread].
  eexists. split; [exact Hcopy|].
  assert (Hdef1 : get (L "default") (set P sec d) = Some sec).
  { destruct (list_eq_dec ascii_dec (L "default") P) as [<- | Hne].
    - apply get_set_same.
    - now rewrite get_set_other. }
  assert (Hv1 : valid_dict (set P sec (set P sec d)) = true) by (now rewrite set_set).
  split.
  - destruct (copy_valid (with_credentials w
                 (Present true true (write (mkParser (set P sec d) []))))
                (L "default") P (set P sec d) sec
                (write (mkParser (set P sec d) [])) eq_refl Hread Hdef1 Hv1)
      as [Hcopy2 _].
    rewrite Hcopy2, set_set. reflexivity.
  - exists (set P sec d). split; [exact Hread | apply get_set_same].
Qed.

Lemma copy_profile_idempotent_witness :
  exists w1,
    copy_profile (L "default") (L "mfa-source") (world_of two_profiles) = (Ok tt, w1)
    /\ copy_profile (L "default") (L "mfa-source") w1 = (Ok tt, w1)
    /\ exists d1, read_ini_file_to_dict (credentials w1) = Ok d1
                  /\ get (L "mfa-source") d1
                     = Some [ (L "aws_access_key_id", L "AKIADEFAULT");
                              (L "aws_secret_access_key", L "defaultsecret") ].
Proof.
  apply (copy_profile_idempotent (world_of two_profiles) (L "mfa-source")
           two_profiles_dict
           [ (L "aws_access_key_id", L "AKIADEFAULT");
             (L "aws_secret_access_key", L "defaultsecret") ]
           two_profiles).
  - reflexivity.
  - vm_compute. reflexivity.
  - vm_compute. reflexivity.
  - vm_compute. reflexivity.
  - vm_compute. reflexivity.
Defined.

(** ** Reading and writing the file *)

(** C8, the claim as stated fails: a credentials file that exists and
    cannot be read is not an error for the parser; the mapping read is
    empty and no [OSError] (the [IOError] of the claim) is raised. *)
Lemma unreadable_file_reads_empty :
  read_ini_file_to_dict (Present false true one_section) = Ok []
  /\ read_ini_file_to_dict (Present false true one_section) <> Raise OSError.
Proof.
  split; [vm_compute; reflexivity | vm_compute; discriminate].
Qed.

(** C8, amended: the mapping read is empty when the credentials file does
    not exist and also when it exists and cannot be read; persisting a
    credential with valid values under a valid section name [P] when the
    file does not exist and can be created succeeds and leaves a file whose
    text is the section [P] with its three keys and nothing else. *)
Theorem parse_absent_or_unreadable (w : world) (c : Credentials) (P : str) :
  credentials w = Missing true ->
  valid_name P = true ->
  valid_credentials c = true ->
  (forall creatable, read_ini_file_to_dict (Missing creatable) = Ok [])
  /\ (forall writable text, read_ini_file_to_dict (Present false writable text) = Ok [])
  /\ exists w',
       save_session_credentials c P w = (Ok tt, w')
       /\ credentials w' = Present true true (_write_section P (session_section c))
       /\ read_ini_file_to_dict (credentials w') = Ok [(P, session_section c)].
Proof.
  intros Hf HP Hc. split; [reflexivity|]. split; [reflexivity|].
  assert (Hr : read_ini_file_to_dict (credentials w) = Ok []) by (now rewrite Hf).
  assert (Hv : valid_dict [(P, session_section c)] = true).
  { apply (valid_dict_set [] P (session_section c)); [reflexivity | assumption|].
    now apply session_section_valid. }
  rewrite (save_run w c P [] Hr), Hf.
  destruct (write_then_read [(P, session_section c)] (Missing true) Hv eq_refl)
    as (f' & Hw & Hf' & Hread).
  cbn [set]. rewrite Hw. eexists. split; [reflexivity|].
  cbn [credentials logged with_credentials]. rewrite Hf'. split.
  - unfold write. cbn. now rewrite app_nil_r.
  - rewrite <- Hf'. now apply Hread.
Qed.

Lemma parse_absent_or_unreadable_witness :
  (forall creatable, read_ini_file_to_dict (Missing creatable) = Ok [])
  /\ (forall writable text, read_ini_file_to_dict (Present false writable text) = Ok [])
  /\ exists w',
       save_session_credentials session_creds (L "default")
                                (mkWorld path (Missing true) [] [])
       = (Ok tt, w')
       /\ credentials w'
          = Present true true (_write_section (L "default") (session_section session_creds))
       /\ read_ini_file_to_dict (credentials w')
          = Ok [(L "default", session_section session_creds)].
Proof.
  apply (parse_absent_or_unreadable (mkWorld path (Missing true) [] [])
                                    session_creds (L "default")).
  - reflexivity.
  - vm_compute. reflexivity.
  - vm_compute. reflexivity.
Defined.

(** C10, the claim as stated fails: [DEFAULT] is not a section of
    [one_section]; persisting under the target profile [DEFAULT] succeeds
    and writes the new section first, before the existing section [a], and
    the file reads back with the single section [a], not with [a] followed
    by [DEFAULT]. *)
Lemma default_target_written_first :
  let w := world_of one_section in
  let run := save_session_credentials session_creds (L "DEFAULT") w in
  fst run = Ok tt
  /\ exists d d' text',
       read_ini_file_to_dict (credentials w) = Ok d
       /\ get (L "DEFAULT") d = None
       /\ credentials (snd run) = Present true true text'
       /\ firstn 10 text' = L "[DEFAULT]" ++ [LF]
       /\ read_ini_file_to_dict (credentials (snd run)) = Ok d'
       /\ keys d = [L "a"]
       /\ keys d' = [L "a"]
       /\ keys d' <> keys d ++ [L "DEFAULT"].
Proof.
  cbv zeta. split; [vm_compute; reflexivity|].
  eexists. eexists. eexists.
  split; [vm_compute; reflexivity|].
  split; [vm_compute; reflexivity|].
  split; [vm_compute; reflexivity|].
  split; [vm_compute; reflexivity|].
  split; [vm_compute; reflexivity|].
  split; [vm_compute; reflexivity|].
  split; [vm_compute; reflexivity|].
  vm_compute. discriminate.
Qed.

(** C10, amended: when the credentials file can be read and written, its
    text holds no [%] and is read as the mapping [d], the target profile
    [P] is a valid section name (so not [DEFAULT]) and the credential has
    valid values, persisting succeeds and the file reads back with the
    sections of [d] in their order when [P] is one of them, and with the
    sections of [d] in their order followed by [P] when it is not. *)
Theorem persist_keeps_section_order (w : world) (c : Credentials) (P : str)
        (d : dict (dict str)) (text : str) :
  credentials w = Present true true text ->
  contains "%" text = false ->
  read_ini_file_to_dict (credentials w) = Ok d ->
  valid_name P = true ->
  valid_credentials c = true ->
  exists w' d',
    save_session_credentials c P w = (Ok tt, w')
    /\ read_ini_file_to_dict (credentials w') = Ok d'
    /\ keys d' = (if mem P d then keys d else keys d ++ [P]).
Proof.
  intros Hf Hp Hr HP Hc.
  assert (Hd : valid_dict d = true) by (now apply (read_plain w d text)).
  assert (Hv : valid_dict (set P (session_section c) d) = true)
    by (apply valid_dict_set; [assumption | assumption | now apply session_section_valid]).
  destruct (save_valid w c P d text Hf Hr Hv) as [Hrun Hread].
  eexists. eexists. split; [exact Hrun|]. split; [exact Hread|].
  unfold mem. destruct (get P d) eqn:E.
  - apply keys_set_in. congruence.
  - now apply keys_set_notin.
Qed.

Lemma persist_keeps_section_order_witness :
  exists w' d',
    save_session_credentials session_creds (L "default") (world_of two_profiles)
    = (Ok tt, w')
    /\ read_ini_file_to_dict (credentials w') = Ok d'
    /\ keys d' = (if mem (L "default") two_profiles_dict
                  then keys two_profiles_dict
                  else keys two_profiles_dict ++ [L "default"]).
Proof.
  apply (persist_keeps_section_order (world_of two_profiles) session_creds
                                     (L "default") two_profiles_dict two_profiles).
  - reflexivity.
  - vm_compute. reflexivity.
  - vm_compute. reflexivity.
  - vm_compute. reflexivity.
  - vm_compute. reflexivity.
Defined.

(** C2, the claim as stated fails: [colon_delimited] is accepted by the
    parser, its section and key are made of letters and its value is on one
    line; reading it and writing the mapping back gives a text with the
    delimiter [=] in place of [:], which differs from it even when white
    space is left out. *)
Lemma roundtrip_rewrites_delimiter :
  well_formed colon_delimited = true
  /\ serialize_parse colon_delimited = Ok (text_of_lines [L "[a]"; L "k = v"; L ""])
  /\ without_space (text_of_lines [L "[a]"; L "k = v"; L ""])
     <> without_space colon_delimited.
Proof.
  split; [vm_compute; reflexivity|].
  split; [vm_compute; reflexivity|].
  vm_compute. discriminate.
Qed.

(** C2, amended: for every text [x] without [%] that the parser accepts,
    reading [x] and writing the mapping back gives a text [y] that reads
    as the same mapping as [x] and that is in the form of the writer:
    reading [y] and writing the mapping back gives [y] itself. *)
Theorem roundtrip_normal_form (x : str) (d : dict (dict str)) :
  contains "%" x = false ->
  read_ini_file_to_dict (Present true true x) = Ok d ->
  serialize_parse x = Ok (write (mkParser d []))
  /\ read_ini_file_to_dict (Present true true (write (mkParser d []))) = Ok d
  /\ serialize_parse (write (mkParser d [])) = Ok (write (mkParser d [])).
Proof.
  intros Hp Hr.
  assert (Hd : valid_dict d = true).
  { apply (read_valid (Present true true x)); [|assumption].
    cbn [plain_file]. now rewrite Hp. }
  split; [|split].
  - unfold serialize_parse. rewrite Hr. cbn [rbind].
    now rewrite ReadDictFacts.read_dict_valid.
  - apply read_ini_of_text; [now apply WriteFacts.read_string_write | assumption].
  - now apply serialize_parse_write.
Qed.

Lemma roundtrip_normal_form_witness :
  serialize_parse colon_delimited = Ok (write (mkParser one_key_dict []))
  /\ read_ini_file_to_dict (Present true true (write (mkParser one_key_dict [])))
     = Ok one_key_dict
  /\ serialize_parse (write (mkParser one_key_dict []))
     = Ok (write (mkParser one_key_dict [])).
Proof.
  apply (roundtrip_normal_form colon_delimited one_key_dict).
  - vm_compute. reflexivity.
  - vm_compute. reflexivity.
Defined.

(** * Further properties

    Properties of the same functions beyond the claims: the two commands
    from end to end, what persisting and copying do when they fail and
    when they are repeated, and what the reader accepts, rejects and
    normalises. *)

Module CommandFacts.

(** [get_session] when the first call of [boto3.Session] succeeds. *)
Lemma get_session_found (pv : Provider) sp w s :
  boto3_Session (credentials w) sp = Ok s ->
  get_session sp w = (Ok s, session_opened w sp).
Proof.
  intros Hb. unfold get_session, try_except, open_session. now rewrite Hb.
Qed.

(** Persisting on a file without [%]. *)
Lemma save_plain w c P d text :
  credentials w = Present true true text ->
  contains "%" text = false ->
  read_ini_file_to_dict (credentials w) = Ok d ->
  valid_name P = true -> valid_credentials c = true ->
  let f' := Present true true (write (mkParser (set P (session_section c) d) [])) in
  save_session_credentials c P w
  = (Ok tt, logged (with_credentials w f') INFO (save_message w P))
  /\ read_ini_file_to_dict f' = Ok (set P (session_section c) d)
  /\ valid_dict (set P (session_section c) d) = true.
Proof.
  intros Hf Hp Hr HP Hc f'.
  assert (Hd : valid_dict d = true) by (now apply (read_plain w d text)).
  assert (Hv : valid_dict (set P (session_section c) d) = true)
    by (apply valid_dict_set; [assumption | assumption | now apply session_section_valid]).
  destruct (save_valid w c P d text Hf Hr Hv) as [Hrun Hread].
  split; [exact Hrun|]. split; [exact Hread | exact Hv].
Qed.

(** [get_session] when the first call fails with [ProfileNotFound]. *)
Lemma get_session_fallback (pv : Provider) sp w p :
  boto3_Session (credentials w) sp = Raise (ProfileNotFound p) ->
  get_session sp w
  = match copy_profile (L "default") sp
                       (logged (session_opened w sp) WARNING
                               (profile_not_found_message sp)) with
    | (Ok _, w2) => (boto3_Session (credentials w2) sp, session_opened w2 sp)
    | (Raise e, w2) => (Raise e, w2)
    end.
Proof.
  intros Hb. unfold get_session, try_except, open_session, bind, logger.
  fold (session_opened w sp). now rewrite Hb.
Qed.



End CommandFacts.
Import CommandFacts.

(** X1: [mfa_cli] with a device given on the command line.  When the source
    profile is found, the provider returns the credential [c] for the given
    device, code and duration, and the credentials file (without [%]) reads
    as [d], the command succeeds: the devices of the account are not
    listed, the file is rewritten with section [tp] holding the three keys
    of [c], and the only log record is the one of
    [save_session_credentials]. *)
Theorem mfa_cli_with_device (pv : Provider) (w : world) (s : Session)
        (c : Credentials) (arn code sp tp : str) (duration : nat)
        (d : dict (dict str)) (text : str) :
  credentials w = Present true true text ->
  contains "%" text = false ->
  read_ini_file_to_dict (credentials w) = Ok d ->
  boto3_Session (credentials w) sp = Ok s ->
  get_session_token s duration arn code = Ok c ->
  valid_name tp = true ->
  valid_credentials c = true ->
  exists w',
    mfa_cli (Some arn) code duration sp tp w = (Ok tt, w')
    /\ credentials w'
       = Present true true (write (mkParser (set tp (session_section c) d) []))
    /\ read_ini_file_to_dict (credentials w') = Ok (set tp (session_section c) d)
    /\ log w' = (INFO, save_message w tp) :: log w
    /\ opened w' = sp :: opened w.
Proof.
  intros Hf Hp Hr Hb Ht Htp Hc.
  unfold mfa_cli, bind. rewrite (get_session_found pv sp w s Hb).
  unfold ret, lift. rewrite Ht.
  destruct (save_plain (session_opened w sp) c tp d text Hf Hp Hr Htp Hc)
    as (Hrun & Hread & _).
  rewrite Hrun. eexists. split; [reflexivity|].
  split; [reflexivity|]. split; [exact Hread|]. split; reflexivity.
Qed.

Lemma mfa_cli_with_device_witness :
  exists w',
    @mfa_cli file_provider (Some (L "arn:aws:iam::123456789012:mfa/tony.stark"))
             (L "123456") 3600 (L "work") (L "default") (world_of two_profiles)
    = (Ok tt, w')
    /\ credentials w'
       = Present true true
           (write (mkParser (set (L "default") (session_section session_creds)
                                 two_profiles_dict) []))
    /\ read_ini_file_to_dict (credentials w')
       = Ok (set (L "default") (session_section session_creds) two_profiles_dict)
    /\ log w' = (INFO, save_message (world_of two_profiles) (L "default"))
                  :: log (world_of two_profiles)
    /\ opened w' = L "work" :: opened (world_of two_profiles).
Proof.
  apply (@mfa_cli_with_device file_provider (world_of two_profiles) (L "work")
           session_creds (L "arn:aws:iam::123456789012:mfa/tony.stark")
           (L "123456") (L "work") (L "default") 3600 two_profiles_dict two_profiles).
  - reflexivity.
  - vm_compute. reflexivity.
  - vm_compute. reflexivity.
  - vm_compute. reflexivity.
  - reflexivity.
  - vm_compute. reflexivity.
  - vm_compute. reflexivity.
Defined.

(** X2: [assume_cli] without a device.  When the source profile is found,
    the account has at least one device, the provider returns the
    credential [c] for the role, the session name, the first device, the
    code and the duration, and the credentials file (without [%]) reads as
    [d], the command succeeds with section [tp] holding the three keys of
    [c]; the log holds the debug record of the detection, the warning when
    there are several devices, and the record of
    [save_session_credentials]. *)
Theorem assume_cli_detects_device (pv : Provider) (w : world) (s : Session)
        (c : Credentials) (role_arn session_name code sp tp : str) (duration : nat)
        (first : MFADevice) (others : list MFADevice)
        (d : dict (dict str)) (text : str) :
  credentials w = Present true true text ->
  contains "%" text = false ->
  read_ini_file_to_dict (credentials w) = Ok d ->
  boto3_Session (credentials w) sp = Ok s ->
  list_mfa_devices s = Ok (first :: others) ->
  assume_role s duration role_arn session_name (SerialNumber first) code = Ok c ->
  valid_name tp = true ->
  valid_credentials c = true ->
  exists w',
    assume_cli role_arn session_name None code duration sp tp w = (Ok tt, w')
    /\ read_ini_file_to_dict (credentials w') = Ok (set tp (session_section c) d)
    /\ log w'
       = (INFO, save_message w tp)
           :: match others with
              | [] => []
              | _ => [(WARNING, multiple_devices_message (SerialNumber first))]
              end
           ++ (DEBUG, autodetect_message) :: log w.
Proof.
  intros Hf Hp Hr Hb Hl Ht Htp Hc.
  unfold assume_cli, bind. rewrite (get_session_found pv sp w s Hb).
  unfold auto_detect_mfa_device, bind, lift, logger. cbn [fst snd]. rewrite Hl.
  destruct others as [|second rest].
  - unfold ret. rewrite Ht.
    match goal with |- context [save_session_credentials c tp ?w1] =>
      destruct (save_plain w1 c tp d text Hf Hp Hr Htp Hc) as (Hrun & Hread & _);
      rewrite Hrun end.
    eexists. split; [reflexivity|]. split; [exact Hread | reflexivity].
  - unfold ret. cbn [fst snd]. rewrite Ht.
    match goal with |- context [save_session_credentials c tp ?w1] =>
      destruct (save_plain w1 c tp d text Hf Hp Hr Htp Hc) as (Hrun & Hread & _);
      rewrite Hrun end.
    eexists. split; [reflexivity|]. split; [exact Hread | reflexivity].
Qed.

Lemma assume_cli_detects_device_witness :
  exists w',
    @assume_cli file_provider (L "arn:aws:iam::111111111111:role/Test") (L "t") None
                (L "123456") 3600 (L "work") (L "default") (world_of two_profiles)
    = (Ok tt, w')
    /\ read_ini_file_to_dict (credentials w')
       = Ok (set (L "default") (session_section session_creds) two_profiles_dict)
    /\ log w'
       = (INFO, save_message (world_of two_profiles) (L "default"))
           :: [] ++ (DEBUG, autodetect_message) :: log (world_of two_profiles).
Proof.
  apply (@assume_cli_detects_device file_provider (world_of two_profiles) (L "work")
           session_creds (L "arn:aws:iam::111111111111:role/Test") (L "t")
           (L "123456") (L "work") (L "default") 3600
           (mkDevice (L "arn:aws:iam::123456789012:mfa/tony.stark") (L "tony.stark"))
           [] two_profiles_dict two_profiles).
  - reflexivity.
  - vm_compute. reflexivity.
  - vm_compute. reflexivity.
  - vm_compute. reflexivity.
  - reflexivity.
  - reflexivity.
  - vm_compute. reflexivity.
  - vm_compute. reflexivity.
Defined.



(** X4: the whole of [assume_cli] when the source profile is missing.  The
    credentials file (without [%]) reads as [d], which has a [default]
    section [sec] and no section [S]; the first opening of a session for
    [S] fails with [ProfileNotFound]; once [default] has been copied under
    [S] the session opens, and the provider returns the credential [c].
    Then the command succeeds, and the file reads back as [d] followed by
    section [S], with section [tp] set to the three keys of [c]: section
    [S] still equals the former [default] section when [tp] is another
    profile. *)
Theorem assume_cli_provisions_source (pv : Provider) (w : world) (s : Session)
        (c : Credentials) (role_arn session_name arn code S tp p : str)
        (duration : nat) (d : dict (dict str)) (sec : dict str) (text : str) :
  credentials w = Present true true text ->
  contains "%" text = false ->
  read_ini_file_to_dict (credentials w) = Ok d ->
  get (L "default") d = Some sec ->
  get S d = None ->
  valid_name S = true ->
  boto3_Session (credentials w) S = Raise (ProfileNotFound p) ->
  boto3_Session (Present true true (write (mkParser (d ++ [(S, sec)]) []))) S = Ok s ->
  assume_role s duration role_arn session_name arn code = Ok c ->
  valid_name tp = true ->
  valid_credentials c = true ->
  let d' := set tp (session_section c) (d ++ [(S, sec)]) in
  exists w',
    assume_cli role_arn session_name (Some arn) code duration S tp w = (Ok tt, w')
    /\ read_ini_file_to_dict (credentials w') = Ok d'
    /\ get tp d' = Some (session_section c)
    /\ (tp <> S -> get S d' = Some sec)
    /\ opened w' = [S; S] ++ opened w.
Proof.
  intros Hf Hp Hr Hdef HS Hname Hb Hb2 Ht Htp Hc d'.
  assert (Hd : valid_dict d = true) by (now apply (read_plain w d text)).
  assert (Hsec : valid_section sec = true) by (eapply valid_section_of_dict; eassumption).
  assert (Hv : valid_dict (set S sec d) = true) by (now apply valid_dict_set).
  unfold assume_cli, bind.
  rewrite (get_session_fallback pv S w p Hb).
  destruct (copy_valid (logged (session_opened w S) WARNING (profile_not_found_message S))
                       (L "default") S d sec text Hf Hr Hdef Hv) as [Hcopy Hread].
  rewrite Hcopy. cbn [credentials with_credentials].
  rewrite (set_notin S sec d HS) in *. rewrite Hb2.
  assert (Hv' : valid_dict d' = true)
    by (apply valid_dict_set; [assumption | assumption | now apply session_section_valid]).
  unfold ret, lift. rewrite Ht.
  match goal with |- context [save_session_credentials c tp ?w2] =>
    destruct (save_valid w2 c tp (d ++ [(S, sec)]) _ eq_refl Hread Hv') as [Hsave Hread'];
    rewrite Hsave end.
  eexists. split; [reflexivity|]. split; [exact Hread'|].
  split; [apply get_set_same|]. split.
  - intros Hne. unfold d'. rewrite get_set_other by congruence. now apply get_snoc.
  - reflexivity.
Qed.

Lemma assume_cli_provisions_source_witness :
  let sec := [ (L "aws_access_key_id", L "AKIADEFAULT");
               (L "aws_secret_access_key", L "defaultsecret") ] in
  let d' := set (L "default") (session_section session_creds)
                (two_profiles_dict ++ [(L "missing-profile", sec)]) in
  exists w',
    @assume_cli file_provider (L "arn:aws:iam::111111111111:role/Test") (L "t")
                (Some (L "arn:aws:iam::123456789012:mfa/tony.stark")) (L "123456") 3600
                (L "missing-profile") (L "default") (world_of two_profiles)
    = (Ok tt, w')
    /\ read_ini_file_to_dict (credentials w') = Ok d'
    /\ get (L "default") d' = Some (session_section session_creds)
    /\ (L "default" <> L "missing-profile" -> get (L "missing-profile") d' = Some sec)
    /\ opened w' = [L "missing-profile"; L "missing-profile"]
                     ++ opened (world_of two_profiles).
Proof.
  apply (@assume_cli_provisions_source file_provider (world_of two_profiles)
           (L "missing-profile") session_creds
           (L "arn:aws:iam::111111111111:role/Test") (L "t")
           (L "arn:aws:iam::123456789012:mfa/tony.stark") (L "123456")
           (L "missing-profile") (L "default") (L "missing-profile") 3600
           two_profiles_dict
           [ (L "aws_access_key_id", L "AKIADEFAULT");
             (L "aws_secret_access_key", L "defaultsecret") ]
           two_profiles).
  - reflexivity.
  - vm_compute. reflexivity.
  - vm_compute. reflexivity.
  - vm_compute. reflexivity.
  - vm_compute. reflexivity.
  - vm_compute. reflexivity.
  - vm_compute. reflexivity.
  - vm_compute. reflexivity.
  - reflexivity.
  - vm_compute. reflexivity.
  - vm_compute. reflexivity.
Defined.

Module OutcomeFacts.

(** The outcome of [save_session_credentials] and the file it leaves depend
    on the file alone, not on the log or on the sessions opened. *)
Lemma save_depends_on_file c P w w' :
  credentials w = credentials w' ->
  fst (save_session_credentials c P w) = fst (save_session_credentials c P w')
  /\ credentials (snd (save_session_credentials c P w))
     = credentials (snd (save_session_credentials c P w')).
Proof.
  intros Hc. destruct (read_ini_file_to_dict (credentials w)) as [d|e] eqn:Hr.
  - assert (Hr' : read_ini_file_to_dict (credentials w') = Ok d) by (now rewrite <- Hc).
    rewrite (save_run w c P d Hr), (save_run w' c P d Hr'), <- Hc.
    destruct (write_dict_to_ini_file _ _); split; try reflexivity. exact Hc.
  - assert (Hr' : read_ini_file_to_dict (credentials w') = Raise e) by (now rewrite <- Hc).
    rewrite (save_raises_unread w c P e Hr), (save_raises_unread w' c P e Hr').
    split; [reflexivity | exact Hc].
Qed.

Lemma auto_detect_first (pv : Provider) s first others w :
  list_mfa_devices s = Ok (first :: others) ->
  exists w', auto_detect_mfa_device s w = (Ok (SerialNumber first), w')
             /\ credentials w' = credentials w.
Proof.
  intros Hl. unfold auto_detect_mfa_device, bind, lift, logger. cbn [fst snd].
  rewrite Hl. destruct others; eexists; split; reflexivity.
Qed.

End OutcomeFacts.
Import OutcomeFacts.

(** X5: detecting the device or naming it comes to the same.  When the
    session lists at least one device, each command run without a device
    has the outcome, and leaves the credentials file, of the same command
    run with the serial number of the first device; the runs differ by
    their log records only. *)
Theorem detected_device_as_given (pv : Provider) (w w1 : world) (s : Session)
        (first : MFADevice) (others : list MFADevice)
        (code sp tp role_arn session_name : str) (duration : nat) :
  get_session sp w = (Ok s, w1) ->
  list_mfa_devices s = Ok (first :: others) ->
  let given := Some (SerialNumber first) in
  (fst (mfa_cli None code duration sp tp w) = fst (mfa_cli given code duration sp tp w)
   /\ credentials (snd (mfa_cli None code duration sp tp w))
      = credentials (snd (mfa_cli given code duration sp tp w)))
  /\ (fst (assume_cli role_arn session_name None code duration sp tp w)
      = fst (assume_cli role_arn session_name given code duration sp tp w)
      /\ credentials (snd (assume_cli role_arn session_name None code duration sp tp w))
         = credentials (snd (assume_cli role_arn session_name given code duration sp tp w))).
Proof.
  intros Hs Hl given. destruct (auto_detect_first pv s first others w1 Hl) as (w2 & Hd & Hc).
  split.
  - unfold mfa_cli, bind. rewrite Hs, Hd. unfold given, ret, lift.
    destruct (get_session_token s duration (SerialNumber first) code) as [c|e].
    + now apply save_depends_on_file.
    + split; [reflexivity | exact Hc].
  - unfold assume_cli, bind. rewrite Hs, Hd. unfold given, ret, lift.
    destruct (assume_role s duration role_arn session_name (SerialNumber first) code)
      as [c|e].
    + now apply save_depends_on_file.
    + split; [reflexivity | exact Hc].
Qed.

Lemma detected_device_as_given_witness :
  let w := world_of two_profiles in
  let given := Some (L "arn:aws:iam::123456789012:mfa/tony.stark") in
  (fst (@mfa_cli file_provider None (L "123456") 3600 (L "work") (L "default") w)
   = fst (@mfa_cli file_provider given (L "123456") 3600 (L "work") (L "default") w)
   /\ credentials (snd (@mfa_cli file_provider None (L "123456") 3600 (L "work")
                                 (L "default") w))
      = credentials (snd (@mfa_cli file_provider given (L "123456") 3600 (L "work")
                                   (L "default") w)))
  /\ (fst (@assume_cli file_provider (L "role") (L "t") None (L "123456") 3600 (L "work")
                       (L "default") w)
      = fst (@assume_cli file_provider (L "role") (L "t") given (L "123456") 3600
                         (L "work") (L "default") w)
      /\ credentials (snd (@assume_cli file_provider (L "role") (L "t") None (L "123456")
                                       3600 (L "work") (L "default") w))
         = credentials (snd (@assume_cli file_provider (L "role") (L "t") given
                                         (L "123456") 3600 (L "work") (L "default") w))).
Proof.
  apply (@detected_device_as_given file_provider (world_of two_profiles)
           (session_opened (world_of two_profiles) (L "work")) (L "work")
           (mkDevice (L "arn:aws:iam::123456789012:mfa/tony.stark") (L "tony.stark")) []).
  - vm_compute. reflexivity.
  - reflexivity.
Defined.

(** X6: resolving a profile twice.  Whenever [get_session] returns a
    session, by the first call or after the fallback copy, a second
    [get_session] for the same profile returns the same session by its
    first call: it logs nothing, copies nothing and leaves the credentials
    file as it is. *)
Theorem get_session_twice (pv : Provider) (sp : str) (w w' : world) (s : Session) :
  get_session sp w = (Ok s, w') ->
  get_session sp w' = (Ok s, session_opened w' sp).
Proof.
  intros Hrun. apply get_session_found.
  destruct (boto3_Session (credentials w) sp) as [s0|e] eqn:Hb.
  - rewrite (get_session_found pv sp w s0 Hb) in Hrun.
    injection Hrun as <- <-. exact Hb.
  - destruct e; try (unfold get_session, try_except, open_session in Hrun;
                     rewrite Hb in Hrun; discriminate).
    rewrite (get_session_fallback pv sp w profile Hb) in Hrun.
    destruct (copy_profile _ _ _) as [[u|e] w2]; [|discriminate].
    destruct (boto3_Session (credentials w2) sp) as [s2|e2] eqn:Hb2; [|discriminate].
    injection Hrun as <- <-. exact Hb2.
Qed.

Lemma get_session_twice_witness :
  exists w',
    @get_session file_provider (L "mfa-source") (world_of two_profiles)
    = (Ok (L "mfa-source"), w')
    /\ @get_session file_provider (L "mfa-source") w'
       = (Ok (L "mfa-source"), session_opened w' (L "mfa-source")).
Proof.
  eexists. split; [vm_compute; reflexivity|].
  apply (@get_session_twice file_provider (L "mfa-source") (world_of two_profiles)).
  vm_compute. reflexivity.
Defined.

Module UpdateFacts.

Lemma get_set {V} k k' v (d : dict V) :
  get k' (set k v d) = if str_eqb k' k then Some v else get k' d.
Proof.
  destruct (str_eqb k' k) eqn:E.
  - apply str_eqb_eq in E. subst. apply get_set_same.
  - apply str_eqb_neq in E. now apply get_set_other.
Qed.

Lemma get_set_swap {V} k1 k2 v1 v2 (d : dict V) s :
  k1 <> k2 ->
  get s (set k2 v2 (set k1 v1 d)) = get s (set k1 v1 (set k2 v2 d)).
Proof.
  intros Hne. rewrite !get_set.
  destruct (str_eqb s k2) eqn:E2; destruct (str_eqb s k1) eqn:E1; try reflexivity.
  apply str_eqb_eq in E1, E2. congruence.
Qed.

End UpdateFacts.
Import UpdateFacts.

(** X9: the last credential persisted under a profile wins.  On a
    credentials file without [%], persisting [c1] and then [c2] under [P]
    leaves the same file as persisting [c2] alone; with [c1 = c2],
    persisting is idempotent. *)
Theorem save_last_wins (w : world) (c1 c2 : Credentials) (P : str)
        (d : dict (dict str)) (text : str) :
  credentials w = Present true true text ->
  contains "%" text = false ->
  read_ini_file_to_dict (credentials w) = Ok d ->
  valid_name P = true ->
  valid_credentials c1 = true ->
  valid_credentials c2 = true ->
  exists w1 w12 w2,
    save_session_credentials c1 P w = (Ok tt, w1)
    /\ save_session_credentials c2 P w1 = (Ok tt, w12)
    /\ save_session_credentials c2 P w = (Ok tt, w2)
    /\ credentials w12 = credentials w2.
Proof.
  intros Hf Hp Hr HP Hc1 Hc2.
  destruct (save_plain w c1 P d text Hf Hp Hr HP Hc1) as (Hrun1 & Hread1 & Hv1).
  destruct (save_plain w c2 P d text Hf Hp Hr HP Hc2) as (Hrun2 & Hread2 & Hv2).
  assert (Hv12 : valid_dict (set P (session_section c2) (set P (session_section c1) d)) = true)
    by (now rewrite set_set).
  eexists. eexists. eexists. split; [exact Hrun1|].
  match goal with |- save_session_credentials c2 P ?w1 = _ /\ _ =>
    destruct (save_valid w1 c2 P (set P (session_section c1) d) _ eq_refl Hread1 Hv12)
      as [Hrun12 _] end.
  split; [exact Hrun12|]. split; [exact Hrun2|].
  cbn [credentials logged with_credentials]. now rewrite set_set.
Qed.

Lemma save_last_wins_witness :
  exists w1 w12 w2,
    save_session_credentials session_creds (L "default") (world_of two_profiles) = (Ok tt, w1)
    /\ save_session_credentials session_creds (L "default") w1 = (Ok tt, w12)
    /\ save_session_credentials session_creds (L "default") (world_of two_profiles)
       = (Ok tt, w2)
    /\ credentials w12 = credentials w2.
Proof.
  apply (save_last_wins (world_of two_profiles) session_creds session_creds (L "default")
                        two_profiles_dict two_profiles).
  - reflexivity.
  - vm_compute. reflexivity.
  - vm_compute. reflexivity.
  - vm_compute. reflexivity.
  - vm_compute. reflexivity.
  - vm_compute. reflexivity.
Defined.

(** X10: persisting under two different profiles in either order gives files
    with the same sections: on a credentials file without [%], after [c1]
    under [P] then [c2] under [Q], every profile reads as it does after
    [c2] under [Q] then [c1] under [P]. *)
Theorem save_two_profiles_commute (w : world) (c1 c2 : Credentials) (P Q : str)
        (d : dict (dict str)) (text : str) :
  credentials w = Present true true text ->
  contains "%" text = false ->
  read_ini_file_to_dict (credentials w) = Ok d ->
  valid_name P = true -> valid_name Q = true -> P <> Q ->
  valid_credentials c1 = true -> valid_credentials c2 = true ->
  exists w1 w12 w2 w21 d12 d21,
    save_session_credentials c1 P w = (Ok tt, w1)
    /\ save_session_credentials c2 Q w1 = (Ok tt, w12)
    /\ save_session_credentials c2 Q w = (Ok tt, w2)
    /\ save_session_credentials c1 P w2 = (Ok tt, w21)
    /\ read_ini_file_to_dict (credentials w12) = Ok d12
    /\ read_ini_file_to_dict (credentials w21) = Ok d21
    /\ get P d12 = Some (session_section c1)
    /\ get Q d12 = Some (session_section c2)
    /\ forall s, get s d12 = get s d21.
Proof.
  intros Hf Hp Hr HP HQ Hne Hc1 Hc2.
  destruct (save_plain w c1 P d text Hf Hp Hr HP Hc1) as (Hrun1 & Hread1 & Hv1).
  destruct (save_plain w c2 Q d text Hf Hp Hr HQ Hc2) as (Hrun2 & Hread2 & Hv2).
  assert (Hv12 : valid_dict (set Q (session_section c2) (set P (session_section c1) d)) = true)
    by (apply valid_dict_set; [assumption | assumption | now apply session_section_valid]).
  assert (Hv21 : valid_dict (set P (session_section c1) (set Q (session_section c2) d)) = true)
    by (apply valid_dict_set; [assumption | assumption | now apply session_section_valid]).
  eexists. eexists. eexists. eexists. eexists. eexists.
  split; [exact Hrun1|].
  match goal with |- save_session_credentials c2 Q ?w1 = _ /\ _ =>
    destruct (save_valid w1 c2 Q (set P (session_section c1) d) _ eq_refl Hread1 Hv12)
      as [Hrun12 Hread12] end.
  split; [exact Hrun12|]. split; [exact Hrun2|].
  match goal with |- save_session_credentials c1 P ?w2 = _ /\ _ =>
    destruct (save_valid w2 c1 P (set Q (session_section c2) d) _ eq_refl Hread2 Hv21)
      as [Hrun21 Hread21] end.
  split; [exact Hrun21|]. split; [exact Hread12|]. split; [exact Hread21|].
  split; [rewrite get_set_other by assumption; apply get_set_same|].
  split; [apply get_set_same|].
  intros s. now apply get_set_swap.
Qed.

Lemma save_two_profiles_commute_witness :
  exists w1 w12 w2 w21 d12 d21,
    save_session_credentials session_creds (L "mfa") (world_of two_profiles) = (Ok tt, w1)
    /\ save_session_credentials session_creds (L "default") w1 = (Ok tt, w12)
    /\ save_session_credentials session_creds (L "default") (world_of two_profiles)
       = (Ok tt, w2)
    /\ save_session_credentials session_creds (L "mfa") w2 = (Ok tt, w21)
    /\ read_ini_file_to_dict (credentials w12) = Ok d12
    /\ read_ini_file_to_dict (credentials w21) = Ok d21
    /\ get (L "mfa") d12 = Some (session_section session_creds)
    /\ get (L "default") d12 = Some (session_section session_creds)
    /\ forall s, get s d12 = get s d21.
Proof.
  apply (save_two_profiles_commute (world_of two_profiles) session_creds session_creds
           (L "mfa") (L "default") two_profiles_dict two_profiles).
  - reflexivity.
  - vm_compute. reflexivity.
  - vm_compute. reflexivity.
  - vm_compute. reflexivity.
  - vm_compute. reflexivity.
  - vm_compute. discriminate.
  - vm_compute. reflexivity.
  - vm_compute. reflexivity.
Defined.

(** X11: what [copy_profile] does in general.  On a credentials file without
    [%] that reads as [d], with a source profile [s] whose section is
    [sec] and a valid target name [t], the copy succeeds; the file reads
    back with [t] equal to [sec] (whatever [t] held before is gone, nothing
    is merged), every other profile, [s] included, as it was, and the
    sections in the order of [d], with [t] last when it is new. *)
Theorem copy_profile_overwrites_target (w : world) (s t : str)
        (d : dict (dict str)) (sec : dict str) (text : str) :
  credentials w = Present true true text ->
  contains "%" text = false ->
  read_ini_file_to_dict (credentials w) = Ok d ->
  get s d = Some sec ->
  valid_name t = true ->
  exists w' d',
    copy_profile s t w = (Ok tt, w')
    /\ read_ini_file_to_dict (credentials w') = Ok d'
    /\ get t d' = Some sec
    /\ (forall n, n <> t -> get n d' = get n d)
    /\ keys d' = (if mem t d then keys d else keys d ++ [t])
    /\ log w' = log w.
Proof.
  intros Hf Hp Hr Hg Ht.
  assert (Hd : valid_dict d = true) by (now apply (read_plain w d text)).
  assert (Hsec : valid_section sec = true) by (eapply valid_section_of_dict; eassumption).
  assert (Hv : valid_dict (set t sec d) = true) by (now apply valid_dict_set).
  destruct (copy_valid w s t d sec text Hf Hr Hg Hv) as [Hcopy Hread].
  eexists. eexists. split; [exact Hcopy|]. split; [exact Hread|].
  split; [apply get_set_same|]. split.
  - intros n Hn. now apply get_set_other.
  - split; [|reflexivity]. unfold mem. destruct (get t d) eqn:E.
    + apply keys_set_in. congruence.
    + now apply keys_set_notin.
Qed.

Lemma copy_profile_overwrites_target_witness :
  exists w' d',
    copy_profile (L "work") (L "default") (world_of two_profiles) = (Ok tt, w')
    /\ read_ini_file_to_dict (credentials w') = Ok d'
    /\ get (L "default") d'
       = Some [ (L "aws_access_key_id", L "AKIAWORK");
                (L "aws_secret_access_key", L "worksecret");
                (L "region", L "eu-west-1") ]
    /\ (forall n, n <> L "default" -> get n d' = get n two_profiles_dict)
    /\ keys d' = (if mem (L "default") two_profiles_dict then keys two_profiles_dict
                  else keys two_profiles_dict ++ [L "default"])
    /\ log w' = log (world_of two_profiles).
Proof.
  apply (copy_profile_overwrites_target (world_of two_profiles) (L "work") (L "default")
           two_profiles_dict
           [ (L "aws_access_key_id", L "AKIAWORK");
             (L "aws_secret_access_key", L "worksecret");
             (L "region", L "eu-west-1") ]
           two_profiles).
  - reflexivity.
  - vm_compute. reflexivity.
  - vm_compute. reflexivity.
  - vm_compute. reflexivity.
  - vm_compute. reflexivity.
Defined.

(** X12: a credentials file that cannot be written.  When the file (without
    [%]) can be read and not written, [save_session_credentials] reads it,
    builds the parser and fails with [OSError] when it opens the file for
    writing: the world is as it was.  The same holds when there is no file
    and it cannot be created. *)
Theorem save_read_only_file (w : world) (c : Credentials) (P : str) (text : str) :
  (credentials w = Present true false text /\ contains "%" text = false
   /\ (exists d, read_ini_file_to_dict (credentials w) = Ok d))
  \/ credentials w = Missing false ->
  valid_name P = true ->
  valid_credentials c = true ->
  save_session_credentials c P w = (Raise OSError, w).
Proof.
  intros Hcase HP Hc.
  assert (Hsec : valid_section (session_section c) = true)
    by (now apply session_section_valid).
  destruct Hcase as [(Hf & Hp & d & Hr) | Hf].
  - assert (Hd : valid_dict d = true).
    { apply (read_valid (credentials w)); [|assumption].
      rewrite Hf. cbn [plain_file]. now rewrite Hp. }
    rewrite (save_run w c P d Hr). unfold write_dict_to_ini_file.
    rewrite ReadDictFacts.read_dict_valid by (now apply valid_dict_set).
    cbn [rbind]. now rewrite Hf.
  - assert (Hr : read_ini_file_to_dict (credentials w) = Ok []) by (now rewrite Hf).
    rewrite (save_run w c P [] Hr). unfold write_dict_to_ini_file.
    rewrite ReadDictFacts.read_dict_valid
      by (apply (valid_dict_set [] P); [reflexivity | assumption | assumption]).
    cbn [rbind]. now rewrite Hf.
Qed.

Lemma save_read_only_file_witness :
  save_session_credentials session_creds (L "default")
                           (mkWorld path (Present true false two_profiles) [] [])
  = (Raise OSError, mkWorld path (Present true false two_profiles) [] []).
Proof.
  apply (save_read_only_file (mkWorld path (Present true false two_profiles) [] [])
                             session_creds (L "default") two_profiles).
  - left. split; [reflexivity|]. split; [vm_compute; reflexivity|].
    exists two_profiles_dict. vm_compute. reflexivity.
  - vm_compute. reflexivity.
  - vm_compute. reflexivity.
Defined.

Module WordFacts.
Import ClassifyFacts SectionFacts LineFacts.

Lemma is_base64_plain c : is_base64 c = true -> plain_chr c = true.
Proof.
  destruct c as [b0 b1 b2 b3 b4 b5 b6 b7].
  destruct b0, b1, b2, b3, b4, b5, b6, b7; vm_compute; trivial.
Qed.

Lemma is_alnum_plain c : is_alnum c = true -> plain_chr c = true.
Proof.
  destruct c as [b0 b1 b2 b3 b4 b5 b6 b7].
  destruct b0, b1, b2, b3, b4, b5, b6, b7; vm_compute; trivial.
Qed.

Lemma plain_chr_spec c :
  plain_chr c = true ->
  isspace c = false /\ chr_eqb c LF = false /\ chr_eqb c CR = false
  /\ chr_eqb c "%" = false /\ chr_eqb c "#" = false /\ chr_eqb c ";" = false.
Proof. unfold plain_chr. rewrite !andb_true_iff, !negb_true_iff. tauto. Qed.

Lemma plain_contains x s :
  forallb plain_chr s = true ->
  (forall c, plain_chr c = true -> chr_eqb c x = false) ->
  contains x s = false.
Proof.
  intros Hs Hx. unfold contains. induction s as [|c r IH]; [reflexivity|].
  cbn [forallb existsb] in *. apply andb_true_iff in Hs as [Hc Hr].
  rewrite chr_eqb_sym, (Hx c Hc). now apply IH.
Qed.

Lemma plain_lstrip s : forallb plain_chr s = true -> lstrip s = s.
Proof.
  destruct s as [|c r]; [reflexivity|]. cbn [forallb]. intros H.
  apply andb_true_iff in H as [Hc _]. apply plain_chr_spec in Hc as (Hc & _).
  cbn [lstrip]. now rewrite Hc.
Qed.

Lemma plain_rstrip s : forallb plain_chr s = true -> rstrip s = s.
Proof.
  induction s as [|c r IH]; [reflexivity|]. cbn [forallb]. intros H.
  apply andb_true_iff in H as [Hc Hr]. apply plain_chr_spec in Hc as (Hc & _).
  rewrite rstrip_cons_nonspace by assumption. now rewrite IH.
Qed.

(** A word is a valid value. *)
Lemma plain_valid_value v : forallb plain_chr v = true -> valid_value v = true.
Proof.
  intros H. unfold valid_value.
  assert (HLF : contains LF v = false)
    by (apply plain_contains; [assumption | intros c Hc; now apply plain_chr_spec in Hc]).
  assert (HCR : contains CR v = false)
    by (apply plain_contains; [assumption | intros c Hc; now apply plain_chr_spec in Hc]).
  assert (Hpc : contains "%" v = false)
    by (apply plain_contains; [assumption | intros c Hc; now apply plain_chr_spec in Hc]).
  rewrite Hpc, HCR, (split_nl_single v HLF). cbn [negb andb forallb tl].
  assert (Hst : stripped v = true)
    by (apply stripped_spec; split; [now apply plain_lstrip | now apply plain_rstrip]).
  rewrite Hst, (plain_rstrip v H), str_eqb_refl. reflexivity.
Qed.

Lemma forallb_impl {A} (f g : A -> bool) l :
  (forall a, f a = true -> g a = true) -> forallb f l = true -> forallb g l = true.
Proof.
  intros Hfg. induction l as [|a r IH]; [trivial|]. cbn [forallb].
  rewrite !andb_true_iff. intros [Ha Hr]. split; [now apply Hfg | now apply IH].
Qed.

Lemma base64_valid c : base64_credentials c = true -> valid_credentials c = true.
Proof.
  unfold base64_credentials, valid_credentials. rewrite !andb_true_iff.
  intros [[H1 H2] H3].
  repeat split; apply plain_valid_value; eapply forallb_impl; try eassumption;
    apply is_base64_plain.
Qed.

Lemma profile_name_valid P : profile_name P = true -> valid_name P = true.
Proof.
  unfold profile_name, representable, valid_name. rewrite andb_true_iff.
  intros [Hr Hd]. destruct P as [|a r]; [discriminate|].
  assert (Hp : forallb plain_chr (a :: r) = true)
    by (eapply forallb_impl; [apply is_alnum_plain | exact Hr]).
  assert (HLF : contains LF (a :: r) = false)
    by (apply plain_contains; [assumption | intros c Hc; now apply plain_chr_spec in Hc]).
  assert (HCR : contains CR (a :: r) = false)
    by (apply plain_contains; [assumption | intros c Hc; now apply plain_chr_spec in Hc]).
  now rewrite HLF, HCR, Hd.
Qed.

End WordFacts.
Import WordFacts.

(** X16: the usual case.  When the credentials file can be read and written,
    holds no [%] and is accepted by the parser, the profile name is made
    of letters, digits, [_] and [-] and is not [DEFAULT], and the three
    values of the credential are made of letters, digits, [+], [/] and
    [=], [save_session_credentials] succeeds; the file reads back with the
    three values under the profile, as they were given, and with every
    other profile as it was. *)
Theorem save_word_credentials (w : world) (c : Credentials) (P : str)
        (d : dict (dict str)) (text : str) :
  credentials w = Present true true text ->
  contains "%" text = false ->
  read_ini_file_to_dict (credentials w) = Ok d ->
  profile_name P = true ->
  base64_credentials c = true ->
  exists w' d',
    save_session_credentials c P w = (Ok tt, w')
    /\ read_ini_file_to_dict (credentials w') = Ok d'
    /\ get P d' = Some [ (L "aws_access_key_id", AccessKeyId c);
                         (L "aws_secret_access_key", SecretAccessKey c);
                         (L "aws_session_token", SessionToken c) ]
    /\ forall s, s <> P -> get s d' = get s d.
Proof.
  intros Hf Hp Hr HP Hc.
  destruct (save_plain w c P d text Hf Hp Hr (profile_name_valid P HP) (base64_valid c Hc))
    as (Hrun & Hread & _).
  eexists. eexists. split; [exact Hrun|]. split; [exact Hread|].
  split; [apply get_set_same|]. intros s Hs. now apply get_set_other.
Qed.

Lemma save_word_credentials_witness :
  exists w' d',
    save_session_credentials session_creds (L "mfa-session") (world_of two_profiles)
    = (Ok tt, w')
    /\ read_ini_file_to_dict (credentials w') = Ok d'
    /\ get (L "mfa-session") d'
       = Some [ (L "aws_access_key_id", AccessKeyId session_creds);
                (L "aws_secret_access_key", SecretAccessKey session_creds);
                (L "aws_session_token", SessionToken session_creds) ]
    /\ forall s, s <> L "mfa-session" -> get s d' = get s two_profiles_dict.
Proof.
  apply (save_word_credentials (world_of two_profiles) session_creds (L "mfa-session")
                               two_profiles_dict two_profiles).
  - reflexivity.
  - vm_compute. reflexivity.
  - vm_compute. reflexivity.
  - vm_compute. reflexivity.
  - vm_compute. reflexivity.
Defined.

(** X14: [copy_profile] without a readable file.  When the credentials file
    does not exist, or exists and cannot be read, the mapping read is
    empty, so [copy_profile] raises [KeyError] for the source profile and
    leaves the world as it was: no file is created. *)
Theorem copy_profile_without_file (w : world) (s t : str) :
  (exists creatable, credentials w = Missing creatable)
  \/ (exists writable text, credentials w = Present false writable text) ->
  copy_profile s t w = (Raise (KeyError s), w).
Proof.
  intros Hf.
  assert (Hr : read_ini_file_to_dict (credentials w) = Ok []).
  { destruct Hf as [[cr ->] | (wr & text & ->)]; reflexivity. }
  now rewrite (copy_run w s t [] Hr).
Qed.

Lemma copy_profile_without_file_witness :
  copy_profile (L "default") (L "mfa-source") (mkWorld path (Missing true) [] [])
  = (Raise (KeyError (L "default")), mkWorld path (Missing true) [] []).
Proof.
  apply (copy_profile_without_file (mkWorld path (Missing true) [] [])).
  left. now exists true.
Defined.

(** X13: a credentials file that can be written and not read is replaced.
    The parser skips the file it cannot open, so the mapping read is
    empty; [save_session_credentials] then succeeds and the file holds the
    section of the target profile and nothing else, whatever its text
    was. *)
Theorem save_replaces_unreadable_file (w : world) (c : Credentials) (P : str)
        (text : str) :
  credentials w = Present false true text ->
  valid_name P = true ->
  valid_credentials c = true ->
  save_session_credentials c P w
  = (Ok tt, logged (with_credentials w
                      (Present false true (_write_section P (session_section c))))
                   INFO (save_message w P)).
Proof.
  intros Hf HP Hc.
  assert (Hr : read_ini_file_to_dict (credentials w) = Ok []) by (now rewrite Hf).
  assert (Hv : valid_dict [(P, session_section c)] = true).
  { apply (valid_dict_set [] P (session_section c)); [reflexivity | assumption|].
    now apply session_section_valid. }
  rewrite (save_run w c P [] Hr), Hf. unfold write_dict_to_ini_file.
  cbn [set]. rewrite (ReadDictFacts.read_dict_valid _ Hv). cbn [rbind open_write].
  unfold write. cbn [_defaults _sections List.map List.concat fst snd app].
  now rewrite app_nil_r.
Qed.

Lemma save_replaces_unreadable_file_witness :
  save_session_credentials session_creds (L "default")
                           (mkWorld path (Present false true two_profiles) [] [])
  = (Ok tt,
     logged (with_credentials (mkWorld path (Present false true two_profiles) [] [])
               (Present false true
                  (_write_section (L "default") (session_section session_creds))))
            INFO (save_message (mkWorld path (Present false true two_profiles) [] [])
                               (L "default"))).
Proof.
  apply (save_replaces_unreadable_file
           (mkWorld path (Present false true two_profiles) [] [])
           session_creds (L "default") two_profiles).
  - reflexivity.
  - vm_compute. reflexivity.
  - vm_compute. reflexivity.
Defined.

Module RejectFacts.
Import ResFacts SectionFacts ParserFacts ReadDictFacts.

Lemma before_set_cases v : before_set v = Ok v \/ before_set v = Raise ValueError.
Proof. unfold before_set. cbv zeta. destruct (contains _ _); [now right | now left]. Qed.

(** The marks [read_dict_key] adds are marks of its section. *)
Lemma read_dict_key_marks n its : forall st r,
  rfold (read_dict_key n) its st = Ok r ->
  forall q, In q (snd r) -> In q (snd st) \/ fst q = n.
Proof.
  induction its as [|kv rest IH]; intros st r Hrun q Hq.
  - injection Hrun as <-. now left.
  - cbn [rfold] in Hrun. unfold read_dict_key at 1 in Hrun.
    destruct (existsb _ (snd st)); [discriminate|].
    destruct (set_option (fst st) n (lower (fst kv)) (snd kv)) as [p|e]; [|discriminate].
    cbn [rbind] in Hrun. destruct (IH _ _ Hrun q Hq) as [[<- | Hin] | Hn].
    + now right.
    + now left.
    + now right.
Qed.

Lemma read_dict_section_marks l : forall st r,
  rfold read_dict_section l st = Ok r ->
  forall q, In q (snd (snd r)) -> In q (snd (snd st)) \/ In (fst q) (keys l).
Proof.
  induction l as [|[n its] rest IH]; intros st r Hrun q Hq.
  - injection Hrun as <-. now left.
  - cbn [rfold] in Hrun.
    destruct (read_dict_section st (n, its)) as [st1|e] eqn:E; [|discriminate].
    cbn [rbind] in Hrun. destruct (IH _ _ Hrun q Hq) as [Hin | Hin].
    + unfold read_dict_section in E. cbn [fst snd] in E.
      destruct (match add_section (fst st) n with Ok p' => Ok p' | Raise e => _ end)
        as [p1|e1]; [|discriminate].
      cbn [rbind] in E.
      destruct (rfold (read_dict_key n) its (p1, snd (snd st))) as [r1|e1] eqn:E1;
        [|discriminate].
      cbn [rbind] in E. injection E as <-. cbn [fst snd] in Hin.
      destruct (read_dict_key_marks n its _ _ E1 q Hin) as [H | H].
      * now left.
      * right. cbn [keys List.map fst]. left. now symmetry.
    + right. cbn [keys List.map fst]. now right.
Qed.

(** Where [set] puts the section: after a part of the mapping that has no
    such section. *)
Lemma set_split {V} P (v : V) : forall d,
  exists pre post tl,
    set P v d = pre ++ (P, v) :: post /\ d = pre ++ tl /\ get P pre = None.
Proof.
  induction d as [|[k x] r (pre & post & tl & Hs & Hd & Hg)].
  - exists [], [], []. repeat split.
  - cbn [set]. destruct (str_eqb P k) eqn:E.
    + exists [], r, ((k, x) :: r). repeat split.
    + exists ((k, x) :: pre), post, tl. rewrite Hs. split; [reflexivity|].
      split; [now rewrite Hd at 1|]. cbn [get]. now rewrite E.
Qed.

(** One key of a section that is there: the value is checked unless it is
    empty, then stored. *)
Lemma read_dict_key_step P p sd ado k v :
  P <> [] -> str_eqb P DEFAULTSECT = false ->
  get P (_sections p) = Some sd ->
  lower k = k ->
  existsb (fun q => str_eqb (fst q) P && str_eqb (snd q) k) ado = false ->
  (before_set v = Raise ValueError ->
   read_dict_key P (p, ado) (k, v) = Raise ValueError)
  /\ (before_set v <> Raise ValueError ->
      read_dict_key P (p, ado) (k, v)
      = Ok (mkParser (set P (set k v sd) (_sections p)) (_defaults p), (P, k) :: ado)).
Proof.
  intros Hne Hd Hg Hlow Hdup. unfold read_dict_key. cbn [fst snd].
  rewrite Hlow, Hdup. unfold set_option. rewrite Hlow.
  destruct P as [|a r]; [congruence|]. rewrite Hd, Hg.
  destruct v as [|x y].
  - split; [discriminate | reflexivity].
  - destruct (before_set_cases (x :: y)) as [H | H]; rewrite H; split;
      try reflexivity; try discriminate; congruence.
Qed.

Lemma no_mark_of pre (ado : list (str * str)) P k :
  get P pre = None ->
  (forall q, In q ado -> In (fst q) (@keys (dict str) pre)) ->
  existsb (fun q => str_eqb (fst q) P && str_eqb (snd q) k) ado = false.
Proof.
  intros Hg Hado. apply not_true_is_false. intros He.
  apply existsb_exists in He as (q & Hin & Hq).
  apply andb_true_iff in Hq as [H1 _]. apply str_eqb_eq in H1.
  apply Hado in Hin. rewrite H1 in Hin. now apply get_None_notin in Hg.
Qed.

Lemma before_set_dec v :
  before_set v = Raise ValueError \/ before_set v <> Raise ValueError.
Proof.
  destruct (before_set_cases v) as [H | H]; [right; congruence | now left].
Qed.

Ltac step_by H :=
  match goal with
  | |- context [rbind ?x _] =>
      let E := fresh "E" in
      assert (E : x = _) by (apply H); rewrite E; clear E
  | |- ?x = _ =>
      let E := fresh "E" in
      assert (E : x = _) by (apply H); rewrite E; clear E
  end.

(** The three keys of a credential, one of them refused. *)
Lemma session_section_refused P p ado c :
  P <> [] -> str_eqb P DEFAULTSECT = false ->
  get P (_sections p) <> None ->
  (forall k, existsb (fun q => str_eqb (fst q) P && str_eqb (snd q) k) ado = false) ->
  before_set (AccessKeyId c) = Raise ValueError
  \/ before_set (SecretAccessKey c) = Raise ValueError
  \/ before_set (SessionToken c) = Raise ValueError ->
  rfold (read_dict_key P) (session_section c) (p, ado) = Raise ValueError.
Proof.
  intros Hne Hd Hg Hdup Hbad. unfold session_section. cbn [rfold].
  destruct (get P (_sections p)) as [sd|] eqn:Eg; [|congruence].
  destruct (read_dict_key_step P p sd ado (L "aws_access_key_id") (AccessKeyId c)
              Hne Hd Eg eq_refl (Hdup _)) as [Hr1 Ho1].
  destruct (before_set_dec (AccessKeyId c)) as [B1 | B1];
    [now rewrite (Hr1 B1) | rewrite (Ho1 B1)].
  cbn [rbind rfold].
  assert (Hdup1 : forall k, k <> L "aws_access_key_id" ->
            existsb (fun q => str_eqb (fst q) P && str_eqb (snd q) k)
                    ((P, L "aws_access_key_id") :: ado) = false).
  { intros k Hk. cbn [existsb fst snd]. rewrite Hdup, orb_false_r.
    assert (E : str_eqb (L "aws_access_key_id") k = false) by (apply str_eqb_neq; congruence).
    now rewrite E, andb_false_r. }
  destruct (read_dict_key_step P
              (mkParser (set P (set (L "aws_access_key_id") (AccessKeyId c) sd) (_sections p))
                        (_defaults p))
              (set (L "aws_access_key_id") (AccessKeyId c) sd)
              ((P, L "aws_access_key_id") :: ado)
              (L "aws_secret_access_key") (SecretAccessKey c) Hne Hd
              (get_set_same _ _ _) eq_refl (Hdup1 (L "aws_secret_access_key") ltac:(intros E; vm_compute in E; discriminate E)))
    as [Hr2 Ho2].
  destruct (before_set_dec (SecretAccessKey c)) as [B2 | B2];
    [step_by (Hr2 B2); reflexivity | step_by (Ho2 B2)].
  cbn [rbind _sections _defaults].
  assert (Hdup2 : forall k, k <> L "aws_access_key_id" -> k <> L "aws_secret_access_key" ->
            existsb (fun q => str_eqb (fst q) P && str_eqb (snd q) k)
                    ((P, L "aws_secret_access_key") :: (P, L "aws_access_key_id") :: ado)
            = false).
  { intros k Hk Hk'. cbn [existsb fst snd]. rewrite Hdup, orb_false_r.
    assert (E : str_eqb (L "aws_access_key_id") k = false) by (apply str_eqb_neq; congruence).
    assert (E' : str_eqb (L "aws_secret_access_key") k = false)
      by (apply str_eqb_neq; congruence).
    now rewrite E, E', !andb_false_r. }
  destruct (read_dict_key_step P
              (mkParser (set P (set (L "aws_secret_access_key") (SecretAccessKey c)
                                    (set (L "aws_access_key_id") (AccessKeyId c) sd))
                             (set P (set (L "aws_access_key_id") (AccessKeyId c) sd)
                                  (_sections p)))
                        (_defaults p))
              (set (L "aws_secret_access_key") (SecretAccessKey c)
                   (set (L "aws_access_key_id") (AccessKeyId c) sd))
              ((P, L "aws_secret_access_key") :: (P, L "aws_access_key_id") :: ado)
              (L "aws_session_token") (SessionToken c) Hne Hd
              (get_set_same _ _ _) eq_refl
              (Hdup2 (L "aws_session_token")
                     ltac:(intros E; vm_compute in E; discriminate E)
                     ltac:(intros E; vm_compute in E; discriminate E)))
    as [Hr3 Ho3].
  destruct Hbad as [Hb | [Hb | Hb]]; [contradiction | contradiction |].
  step_by (Hr3 Hb). reflexivity.
Qed.

Lemma Forall_app_l {A} (P : A -> Prop) a b : Forall P (a ++ b) -> Forall P a.
Proof. intros H. now apply Forall_app in H. Qed.

Lemma NoDup_app_l {A} (a b : list A) : NoDup (a ++ b) -> NoDup a.
Proof.
  induction a as [|x r IH]; intros H; [constructor|].
  cbn in H. inversion H; subst. constructor; [|now apply IH].
  intros Hin. apply H2. apply in_or_app. now left.
Qed.

(** [read_dict] of a valid mapping in which a profile is given a
    credential with a refused value. *)
Lemma read_dict_refused d P c :
  valid_dict d = true -> valid_name P = true ->
  before_set (AccessKeyId c) = Raise ValueError
  \/ before_set (SecretAccessKey c) = Raise ValueError
  \/ before_set (SessionToken c) = Raise ValueError ->
  read_dict (set P (session_section c) d) = Raise ValueError.
Proof.
  intros Hv HP Hbad. apply valid_dict_spec in Hv as [Hnd Hall].
  apply ReaderFacts.valid_name_spec in HP as (Hne & _ & _ & Hdef).
  destruct (set_split P (session_section c) d) as (pre & post & tl & Hs & Hd & Hg).
  rewrite Hs. unfold read_dict. rewrite rfold_app.
  assert (Hndp : NoDup (keys pre)).
  { rewrite Hd in Hnd. unfold keys in *. rewrite map_app in Hnd.
    now apply NoDup_app_l in Hnd. }
  assert (Hallp : Forall valid_entry pre) by (rewrite Hd in Hall; now apply Forall_app_l in Hall).
  destruct (read_dict_sections pre [] [] [] Hndp Hallp) as (ads & ado & Hrun);
    [intros q []|].
  change (mkParser (@nil (str * dict str)) []) with (@empty_parser str) in Hrun.
  rewrite Hrun. cbn [rbind rfold app].
  pose proof (read_dict_section_marks pre _ _ Hrun) as Hmarks. cbn [fst snd] in Hmarks.
  assert (Hado : forall q, In q ado -> In (fst q) (keys pre)).
  { intros q Hq. destruct (Hmarks q Hq) as [[] | H]. exact H. }
  unfold read_dict_section at 1. cbn [fst snd]. unfold add_section.
  rewrite Hdef. cbn [_sections _defaults].
  apply mem_false in Hg as Hm. rewrite Hm. cbn [rbind].
  rewrite session_section_refused; try assumption; [reflexivity | |].
  - cbn [_sections]. rewrite get_set_same. discriminate.
  - intros k. now apply (no_mark_of pre).
Qed.

End RejectFacts.
Import RejectFacts.

(** X15: a credential with a stray [%] is refused before anything is
    written.  When the credentials file (without [%]) is read, the profile
    name is valid and one of the three values of the credential is refused
    by the interpolation check of the parser (a [%] that is not doubled and
    does not start a reference), [save_session_credentials] raises
    [ValueError] and leaves the world as it was: the file is not opened for
    writing. *)
Theorem save_rejects_percent (w : world) (c : Credentials) (P : str)
        (d : dict (dict str)) (text : str) (writable : bool) :
  credentials w = Present true writable text ->
  contains "%" text = false ->
  read_ini_file_to_dict (credentials w) = Ok d ->
  valid_name P = true ->
  before_set (AccessKeyId c) = Raise ValueError
  \/ before_set (SecretAccessKey c) = Raise ValueError
  \/ before_set (SessionToken c) = Raise ValueError ->
  save_session_credentials c P w = (Raise ValueError, w).
Proof.
  intros Hf Hp Hr HP Hbad.
  assert (Hd : valid_dict d = true).
  { apply (read_valid (credentials w)); [|assumption].
    rewrite Hf. cbn [plain_file]. now rewrite Hp. }
  rewrite (save_run w c P d Hr). unfold write_dict_to_ini_file.
  now rewrite (read_dict_refused d P c Hd HP Hbad).
Qed.

Lemma save_rejects_percent_witness :
  save_session_credentials percent_creds (L "default") (world_of two_profiles)
  = (Raise ValueError, world_of two_profiles).
Proof.
  apply (save_rejects_percent (world_of two_profiles) percent_creds (L "default")
                              two_profiles_dict two_profiles true).
  - reflexivity.
  - vm_compute. reflexivity.
  - vm_compute. reflexivity.
  - vm_compute. reflexivity.
  - right. right. vm_compute. reflexivity.
Defined.

Module LinesFacts.
Import ResFacts.

(** A comment line leaves the reader as it is. *)
Lemma read_line_comment st c : is_comment c = true -> read_line st c = Ok st.
Proof. intros H. unfold read_line. now rewrite H. Qed.

(** Before the first header, an empty line leaves the reader as it is. *)
Lemma read_line_blank_start st x :
  cursect st = NoSect -> strip x = [] -> read_line st x = Ok st.
Proof.
  intros Hc Hx. unfold read_line. rewrite Hc.
  destruct (is_comment x); [reflexivity|]. rewrite Hx. cbn [cursor_is_none negb].
  now rewrite andb_false_r.
Qed.

Lemma skip_start skipped : forall st,
  cursect st = NoSect ->
  Forall (fun x => is_comment x = true \/ strip x = []) skipped ->
  rfold read_line skipped st = Ok st.
Proof.
  induction skipped as [|x r IH]; intros st Hc H; [reflexivity|].
  inversion H as [|? ? Hx Hr]; subst. cbn [rfold].
  assert (Hstep : read_line st x = Ok st).
  { destruct Hx as [Hx | Hx]; [now apply read_line_comment | now apply read_line_blank_start]. }
  rewrite Hstep. cbn [rbind]. now apply IH.
Qed.

Lemma read_line_no_header st l :
  cursect st = NoSect -> is_comment l = false -> strip l <> [] ->
  sect_header (strip l) = None ->
  read_line st l = Raise MissingSectionHeaderError.
Proof.
  intros Hc Hcom Hne Hh. unfold read_line. rewrite Hcom, Hc.
  destruct (strip l) as [|a r] eqn:E; [congruence|].
  cbn [cursor_is_none negb andb]. now rewrite Hh.
Qed.

Lemma rfold_comment pre c post st :
  is_comment c = true ->
  rfold read_line (pre ++ c :: post) st = rfold read_line (pre ++ post) st.
Proof.
  intros Hc. rewrite !rfold_app. destruct (rfold read_line pre st) as [st1|e]; [|reflexivity].
  cbn [rbind rfold]. now rewrite read_line_comment.
Qed.

End LinesFacts.
Import LinesFacts.

(** X17: an option before the first section header.  When the first line of
    the credentials file that is neither empty nor a comment is not a
    section header, [read_ini_file_to_dict] raises
    [MissingSectionHeaderError], whatever follows; [save_session_credentials]
    and [copy_profile] then raise it too and leave the world as it was. *)
Theorem option_before_header_is_rejected (w : world) (text : str) (writable : bool)
        (skipped rest : list str) (l : str) :
  credentials w = Present true writable text ->
  readlines (universal_newlines text) = skipped ++ l :: rest ->
  Forall (fun x => is_comment x = true \/ strip x = []) skipped ->
  is_comment l = false ->
  strip l <> [] ->
  sect_header (strip l) = None ->
  read_ini_file_to_dict (credentials w) = Raise MissingSectionHeaderError
  /\ (forall c P, save_session_credentials c P w = (Raise MissingSectionHeaderError, w))
  /\ (forall s t, copy_profile s t w = (Raise MissingSectionHeaderError, w)).
Proof.
  intros Hf Hl Hs Hcom Hne Hh.
  assert (Hr : read_ini_file_to_dict (credentials w) = Raise MissingSectionHeaderError).
  { rewrite Hf. unfold read_ini_file_to_dict, read. cbn [open_read].
    unfold read_string, _read. rewrite Hl, ResFacts.rfold_app.
    rewrite (skip_start skipped reader0 eq_refl Hs). cbn [rbind rfold].
    now rewrite (read_line_no_header reader0 l eq_refl Hcom Hne Hh). }
  split; [exact Hr|]. split.
  - intros c P. now apply save_raises_unread.
  - intros s t. unfold copy_profile, bind, read_creds. now rewrite Hr.
Qed.

Lemma option_before_header_is_rejected_witness :
  read_ini_file_to_dict (credentials (world_of headless)) = Raise MissingSectionHeaderError
  /\ (forall c P, save_session_credentials c P (world_of headless)
                  = (Raise MissingSectionHeaderError, world_of headless))
  /\ (forall s t, copy_profile s t (world_of headless)
                  = (Raise MissingSectionHeaderError, world_of headless)).
Proof.
  apply (option_before_header_is_rejected (world_of headless) headless true
           [L "# my keys"; L ""] [L "[default]"] (L "aws_access_key_id = AKIADEFAULT")).
  - reflexivity.
  - vm_compute. reflexivity.
  - constructor; [left; vm_compute; reflexivity|].
    constructor; [right; vm_compute; reflexivity | constructor].
  - vm_compute. reflexivity.
  - vm_compute. discriminate.
  - vm_compute. reflexivity.
Defined.

(** X19: comment lines are not read.  A line whose first character that is
    not white space is [#] or [;] can be added anywhere in the credentials
    file without changing what [read_ini_file_to_dict] returns; so
    [save_session_credentials] has the same outcome on both files and,
    when it succeeds, writes the same text: the comment is not written
    back. *)
Theorem comment_lines_are_dropped (w w' : world) (text text' : str)
        (pre post : list str) (com : str) (c : Credentials) (P : str) :
  credentials w = Present true true text ->
  credentials w' = Present true true text' ->
  readlines (universal_newlines text) = pre ++ post ->
  readlines (universal_newlines text') = pre ++ com :: post ->
  is_comment com = true ->
  read_ini_file_to_dict (credentials w') = read_ini_file_to_dict (credentials w)
  /\ fst (save_session_credentials c P w') = fst (save_session_credentials c P w)
  /\ (fst (save_session_credentials c P w) = Ok tt ->
      credentials (snd (save_session_credentials c P w'))
      = credentials (snd (save_session_credentials c P w))).
Proof.
  intros Hf Hf' Hl Hl' Hcom.
  assert (Hs : read_string text' = read_string text).
  { unfold read_string, _read. rewrite Hl, Hl'. now rewrite rfold_comment. }
  assert (Hr : read_ini_file_to_dict (credentials w') = read_ini_file_to_dict (credentials w)).
  { rewrite Hf, Hf'. unfold read_ini_file_to_dict, read. cbn [open_read]. now rewrite Hs. }
  split; [exact Hr|].
  destruct (read_ini_file_to_dict (credentials w)) as [d|e] eqn:E.
  - rewrite (save_run w c P d E), (save_run w' c P d Hr).
    unfold write_dict_to_ini_file. rewrite Hf, Hf'.
    destruct (read_dict (set P (session_section c) d)) as [p|e]; cbn [rbind open_write fst snd].
    + split; reflexivity.
    + split; [reflexivity | discriminate].
  - rewrite (save_raises_unread w c P e E), (save_raises_unread w' c P e Hr).
    split; [reflexivity | discriminate].
Qed.

Lemma comment_lines_are_dropped_witness :
  read_ini_file_to_dict (credentials (world_of two_profiles_commented))
  = read_ini_file_to_dict (credentials (world_of two_profiles))
  /\ fst (save_session_credentials session_creds (L "default")
                                   (world_of two_profiles_commented))
     = fst (save_session_credentials session_creds (L "default") (world_of two_profiles))
  /\ (fst (save_session_credentials session_creds (L "default") (world_of two_profiles))
      = Ok tt ->
      credentials (snd (save_session_credentials session_creds (L "default")
                                                 (world_of two_profiles_commented)))
      = credentials (snd (save_session_credentials session_creds (L "default")
                                                   (world_of two_profiles)))).
Proof.
  apply (comment_lines_are_dropped (world_of two_profiles) (world_of two_profiles_commented)
           two_profiles two_profiles_commented
           [L "[default]"; L "aws_access_key_id = AKIADEFAULT"]
           [L "aws_secret_access_key = defaultsecret"; L "";
            L "[work]"; L "aws_access_key_id = AKIAWORK";
            L "aws_secret_access_key = worksecret"; L "region = eu-west-1"]
           (L "; rotated in March") session_creds (L "default")).
  - reflexivity.
  - reflexivity.
  - vm_compute. reflexivity.
  - vm_compute. reflexivity.
  - vm_compute. reflexivity.
Defined.

Module DuplicateFacts.
Import ResFacts ClassifyFacts SectionFacts.

Lemma mem_set {V} n k (v : V) d : mem n d = true -> mem n (set k v d) = true.
Proof.
  unfold mem. rewrite get_set. destruct (str_eqb n k); [reflexivity | trivial].
Qed.

Lemma mem_set_same {V} k (v : V) d : mem k (set k v d) = true.
Proof. unfold mem. now rewrite get_set_same. Qed.

Lemma mem_cursect_store n st d :
  mem n (_sections (r_parser st)) = true ->
  mem n (_sections (cursect_store st d)) = true.
Proof.
  intros H. unfold cursect_store. destruct (cursect st); cbn [_sections]; try assumption.
  now apply mem_set.
Qed.

Lemma append_value_seen n st v st' :
  append_value st v = Ok st' -> header_seen n st -> header_seen n st'.
Proof.
  intros Hrun [Ha Hm]. unfold append_value in Hrun.
  destruct (cursect_dict st) as [d|]; [|injection Hrun as <-; now split].
  destruct (optname st) as [o|]; [|injection Hrun as <-; now split].
  destruct (get o d); [|discriminate]. injection Hrun as <-.
  split; [exact Ha|]. cbn [r_parser with_parser]. now apply mem_cursect_store.
Qed.

Lemma read_header_seen n st h st' :
  read_header st h = Ok st' -> header_seen n st -> header_seen n st'.
Proof.
  intros Hrun [Ha Hm]. unfold read_header in Hrun.
  destruct (mem h (_sections (r_parser st))).
  - destruct (mem_str h (added_sections st)); [discriminate|]. injection Hrun as <-.
    split; [now right | exact Hm].
  - destruct (str_eqb h DEFAULTSECT); injection Hrun as <-.
    + now split.
    + split; [now right|]. cbn [r_parser _sections]. now apply mem_set.
Qed.

Lemma read_option_seen n st value st' :
  read_option st value = Ok st' -> header_seen n st -> header_seen n st'.
Proof.
  intros Hrun [Ha Hm]. unfold read_option in Hrun.
  destruct (opt_match value) as [[opt optval]|].
  - destruct (mem_pair _ _); [discriminate|].
    destruct (cursect_dict st); [|discriminate]. injection Hrun as <-.
    split; [exact Ha|]. cbn [r_parser]. now apply mem_cursect_store.
  - injection Hrun as <-. now split.
Qed.

(** Once a header of [n] has been met, it stays so. *)
Lemma read_line_seen n st l st' :
  read_line st l = Ok st' -> header_seen n st -> header_seen n st'.
Proof.
  intros Hrun Hs. unfold read_line in Hrun.
  destruct (if is_comment l then [] else strip l).
  - destruct (_ && _ && _); [now apply (append_value_seen n st []) | now injection Hrun as <-].
  - destruct (_ && _ && _); [eapply append_value_seen; eassumption|].
    destruct (sect_header _).
    + eapply read_header_seen; [eassumption | exact Hs].
    + destruct (cursor_is_none _); [discriminate|].
      eapply read_option_seen; [eassumption | exact Hs].
Qed.

Lemma run_seen n lines : forall st st',
  rfold read_line lines st = Ok st' -> header_seen n st -> header_seen n st'.
Proof.
  induction lines as [|l r IH]; intros st st' Hrun Hs.
  - now injection Hrun as <-.
  - cbn [rfold] in Hrun. destruct (read_line st l) as [st1|] eqn:E; [|discriminate].
    cbn [rbind] in Hrun. eapply IH; [eassumption|]. eapply read_line_seen; eassumption.
Qed.

(** A header line is handed to [read_header]. *)
Lemma read_line_header st n :
  n <> [] ->
  read_line st (L "[" ++ n ++ L "]")
  = read_header (set_indent st 0) n.
Proof.
  intros Hne. unfold read_line.
  rewrite header_not_comment, header_strip by assumption.
  change (L "[" ++ n ++ L "]") with ("["%char :: n ++ L "]") at 1.
  cbv iota beta zeta.
  rewrite header_indent, header_match by assumption.
  replace (indent_level st <? 0) with false by (symmetry; apply Nat.ltb_ge; lia).
  now rewrite !andb_false_r.
Qed.

Lemma mem_str_true n l : In n l -> mem_str n l = true.
Proof.
  intros H. unfold mem_str. apply existsb_exists. exists n. split; [exact H|].
  apply str_eqb_refl.
Qed.

(** The first header of [n]: an error, or the header has been met. *)
Lemma first_header st n :
  n <> [] -> str_eqb n DEFAULTSECT = false ->
  read_line st (L "[" ++ n ++ L "]") = Raise (DuplicateSectionError n)
  \/ exists st', read_line st (L "[" ++ n ++ L "]") = Ok st' /\ header_seen n st'.
Proof.
  intros Hne Hd. rewrite read_line_header by assumption.
  unfold read_header. cbn [r_parser set_indent added_sections].
  destruct (mem n (_sections (r_parser st))) eqn:Em.
  - destruct (mem_str n (added_sections st)); [now left|].
    right. eexists. split; [reflexivity|]. split; [now left | exact Em].
  - rewrite Hd. right. eexists. split; [reflexivity|].
    split; [now left | apply mem_set_same].
Qed.

(** A second header of [n] is refused. *)
Lemma second_header st n :
  n <> [] -> header_seen n st ->
  read_line st (L "[" ++ n ++ L "]") = Raise (DuplicateSectionError n).
Proof.
  intros Hne [Ha Hm]. rewrite read_line_header by assumption.
  unfold read_header. cbn [r_parser set_indent added_sections].
  now rewrite Hm, (mem_str_true n _ Ha).
Qed.

(** The lines of a file with two headers of [n] are not read to the
    end. *)
Lemma run_duplicate n pre mid post :
  n <> [] -> str_eqb n DEFAULTSECT = false ->
  exists e,
    rfold read_line (pre ++ (L "[" ++ n ++ L "]") :: mid ++ (L "[" ++ n ++ L "]") :: post)
          reader0 = Raise e
    /\ ((exists st, rfold read_line (pre ++ (L "[" ++ n ++ L "]") :: mid) reader0 = Ok st)
        -> e = DuplicateSectionError n).
Proof.
  intros Hne Hd. rewrite !rfold_app.
  destruct (rfold read_line pre reader0) as [st1|e1].
  - cbn [rbind rfold].
    destruct (first_header st1 n Hne Hd) as [Hr | (st2 & Hr & Hs)]; rewrite Hr.
    + eexists. split; [reflexivity|]. intros [st H]. discriminate.
    + cbn [rbind]. rewrite rfold_app.
      destruct (rfold read_line mid st2) as [st3|e3] eqn:E3.
      * cbn [rbind rfold].
        rewrite (second_header st3 n Hne (run_seen n mid st2 st3 E3 Hs)).
        eexists. split; reflexivity.
      * eexists. split; [reflexivity|]. intros [st H]. discriminate.
  - eexists. split; [reflexivity|]. intros [st H]. discriminate.
Qed.

End DuplicateFacts.
Import DuplicateFacts.

(** X18: a section that comes twice.  When two lines of the credentials file
    are the header of the same section [n] (not [DEFAULT]), the file is
    not read: [read_ini_file_to_dict] raises, with
    [DuplicateSectionError n] when the lines up to the second header are
    read without error, and [save_session_credentials] and [copy_profile]
    raise the same exception and leave the world as it was. *)
Theorem duplicate_section_is_rejected (w : world) (text : str) (writable : bool)
        (n : str) (pre mid post : list str) :
  credentials w = Present true writable text ->
  readlines (universal_newlines text)
  = pre ++ (L "[" ++ n ++ L "]") :: mid ++ (L "[" ++ n ++ L "]") :: post ->
  n <> [] ->
  n <> DEFAULTSECT ->
  exists e,
    read_ini_file_to_dict (credentials w) = Raise e
    /\ ((exists st, rfold read_line (pre ++ (L "[" ++ n ++ L "]") :: mid) reader0 = Ok st)
        -> e = DuplicateSectionError n)
    /\ (forall c P, save_session_credentials c P w = (Raise e, w))
    /\ (forall s t, copy_profile s t w = (Raise e, w)).
Proof.
  intros Hf Hl Hne Hd. apply str_eqb_neq in Hd.
  destruct (run_duplicate n pre mid post Hne Hd) as (e & Hrun & He).
  exists e.
  assert (Hr : read_ini_file_to_dict (credentials w) = Raise e).
  { rewrite Hf. unfold read_ini_file_to_dict, read. cbn [open_read].
    unfold read_string, _read. rewrite Hl.
    match goal with |- context [rfold read_line ?ls reader0] =>
      assert (E : rfold read_line ls reader0 = Raise e) by exact Hrun; now rewrite E end. }
  split; [exact Hr|]. split; [exact He|]. split.
  - intros c P. now apply save_raises_unread.
  - intros s t. unfold copy_profile, bind, read_creds. now rewrite Hr.
Qed.

Lemma duplicate_section_is_rejected_witness :
  exists e,
    read_ini_file_to_dict (credentials (world_of default_twice)) = Raise e
    /\ ((exists st,
           rfold read_line
                 ([] ++ (L "[" ++ L "default" ++ L "]")
                     :: [L "aws_access_key_id = AKIADEFAULT"; L "";
                         L "[work]"; L "region = eu-west-1"; L ""]) reader0 = Ok st)
        -> e = DuplicateSectionError (L "default"))
    /\ (forall c P, save_session_credentials c P (world_of default_twice)
                    = (Raise e, world_of default_twice))
    /\ (forall s t, copy_profile s t (world_of default_twice)
                    = (Raise e, world_of default_twice)).
Proof.
  apply (duplicate_section_is_rejected (world_of default_twice) default_twice true
           (L "default") []
           [L "aws_access_key_id = AKIADEFAULT"; L ""; L "[work]"; L "region = eu-west-1"; L ""]
           [L "aws_secret_access_key = defaultsecret"]).
  - reflexivity.
  - vm_compute. reflexivity.
  - discriminate.
  - intros E. vm_compute in E. discriminate E.
Defined.

Module MergeFacts.
Import SectionFacts ParserFacts.

Lemma get_update {V} (b : dict V) : forall a k,
  NoDup (keys b) ->
  get k (update a b) = match get k b with Some v => Some v | None => get k a end.
Proof.
  unfold update. induction b as [|[k0 v0] r IH]; intros a k Hnd; [reflexivity|].
  cbn [keys List.map fst] in Hnd. inversion Hnd as [|? ? Hnin Hnd']; subst.
  cbn [fold_left fst snd]. rewrite IH by assumption. cbn [get].
  destruct (str_eqb k k0) eqn:E.
  - apply str_eqb_eq in E. subst k0.
    assert (Hr : get k r = None) by (now apply get_None_notin).
    rewrite Hr. apply get_set_same.
  - apply str_eqb_neq in E. destruct (get k r); [reflexivity|]. now apply get_set_other.
Qed.

Lemma get_map {V W} (g : V -> W) (l : dict V) n :
  get n (List.map (fun sd => (fst sd, g (snd sd))) l) = option_map g (get n l).
Proof.
  induction l as [|[k v] r IH]; [reflexivity|]. cbn [List.map get fst snd].
  destruct (str_eqb n k); [reflexivity | exact IH].
Qed.

(** What [read] returns for a file without [%] is a parser with valid
    sections and valid defaults. *)
Lemma read_parser_valid f p :
  plain_file f = true -> read f = Ok p ->
  NoDup (keys (_sections p)) /\ Forall valid_entry (_sections p)
  /\ valid_section (_defaults p) = true.
Proof.
  intros Hp Hr. unfold read in Hr. destruct f as [c | r w text].
  - cbn in Hr. injection Hr as <-. repeat split; constructor.
  - destruct r; cbn [open_read] in Hr.
    + cbn [plain_file] in Hp. apply negb_true_iff in Hp.
      now apply (read_string_valid text).
    + injection Hr as <-. repeat split; constructor.
Qed.

Lemma read_ini_merged f p :
  plain_file f = true -> read f = Ok p ->
  read_ini_file_to_dict f = Ok (merged p) /\ valid_dict (merged p) = true.
Proof.
  intros Hp Hr. destruct (read_parser_valid f p Hp Hr) as (Hnd & Hall & Hdf).
  destruct (dict_of_valid_parser p Hnd Hall Hdf) as [Heq Hv].
  split; [|exact Hv]. unfold read_ini_file_to_dict. rewrite Hr. exact Heq.
Qed.

Lemma valid_dict_names d n sec :
  valid_dict d = true -> In (n, sec) d -> valid_name n = true /\ valid_section sec = true.
Proof.
  intros Hv Hin. apply valid_dict_spec in Hv as [_ Hall].
  rewrite Forall_forall in Hall. apply (Hall _ Hin).
Qed.

Lemma valid_dict_no_default d : valid_dict d = true -> get DEFAULTSECT d = None.
Proof.
  intros Hv. apply get_None_notin. intros Hin. unfold keys in Hin.
  apply in_map_iff in Hin as ([n sec] & Hn & Hin). cbn [fst] in Hn. subst n.
  destruct (valid_dict_names d _ sec Hv Hin) as [Hname _].
  apply ReaderFacts.valid_name_spec in Hname as (_ & _ & _ & Hd).
  now rewrite str_eqb_refl in Hd.
Qed.

End MergeFacts.
Import MergeFacts.

(** X20: the [DEFAULT] section is merged into every profile.  For a
    credentials file without [%] that the parser reads as [p],
    [read_ini_file_to_dict] returns the sections of [p] in their order,
    never a section named [DEFAULT]; in each of them a key reads as in the
    section itself when the section has it, and as in the [DEFAULT]
    section when it has not. *)
Theorem default_section_is_merged (f : file_state) (p : ConfigParser str) :
  plain_file f = true ->
  read f = Ok p ->
  exists d,
    read_ini_file_to_dict f = Ok d
    /\ keys d = sections p
    /\ get DEFAULTSECT d = None
    /\ forall n sec, get n (_sections p) = Some sec ->
         exists sec', get n d = Some sec'
           /\ forall k, get k sec' = match get k sec with
                                     | Some v => Some v
                                     | None => get k (_defaults p)
                                     end.
Proof.
  intros Hp Hr. destruct (read_ini_merged f p Hp Hr) as [Heq Hv].
  destruct (read_parser_valid f p Hp Hr) as (Hnd & Hall & Hdf).
  exists (merged p). split; [exact Heq|]. split.
  - unfold merged, keys, sections. rewrite map_map. reflexivity.
  - split; [now apply valid_dict_no_default|].
    intros n sec Hg. exists (update (_defaults p) sec). split.
    + unfold merged. rewrite (get_map (update (_defaults p))). now rewrite Hg.
    + intros k. apply get_update.
      apply InvariantFacts.get_In in Hg. rewrite Forall_forall in Hall.
      destruct (Hall _ Hg) as [_ Hs]. now apply SectionFacts.valid_section_spec in Hs.
Qed.

Lemma default_section_is_merged_witness :
  exists d,
    read_ini_file_to_dict (Present true true with_defaults) = Ok d
    /\ keys d = sections with_defaults_parser
    /\ get DEFAULTSECT d = None
    /\ forall n sec, get n (_sections with_defaults_parser) = Some sec ->
         exists sec', get n d = Some sec'
           /\ forall k, get k sec' = match get k sec with
                                     | Some v => Some v
                                     | None => get k (_defaults with_defaults_parser)
                                     end.
Proof.
  apply (default_section_is_merged (Present true true with_defaults) with_defaults_parser).
  - vm_compute. reflexivity.
  - vm_compute. reflexivity.
Defined.

(** X21: persisting removes the [DEFAULT] section.  For a credentials file
    without [%] that the parser reads as [p], a valid profile name and a
    credential with valid values, [save_session_credentials] succeeds and
    the file it leaves is read by the parser with no defaults at all: the
    keys of the former [DEFAULT] section are now written in every
    section. *)
Theorem save_flattens_defaults (w : world) (c : Credentials) (P : str)
        (p : ConfigParser str) (text : str) :
  credentials w = Present true true text ->
  contains "%" text = false ->
  read (credentials w) = Ok p ->
  valid_name P = true ->
  valid_credentials c = true ->
  exists w',
    save_session_credentials c P w = (Ok tt, w')
    /\ read (credentials w') = Ok (mkParser (set P (session_section c) (merged p)) []).
Proof.
  intros Hf Hp Hr HP Hc.
  assert (Hpl : plain_file (credentials w) = true)
    by (rewrite Hf; cbn [plain_file]; now rewrite Hp).
  destruct (read_ini_merged (credentials w) p Hpl Hr) as [Heq _].
  destruct (save_plain w c P (merged p) text Hf Hp Heq HP Hc) as (Hrun & _ & Hv).
  eexists. split; [exact Hrun|].
  cbn [credentials logged with_credentials read open_read].
  now apply WriteFacts.read_string_write.
Qed.

Lemma save_flattens_defaults_witness :
  exists w',
    save_session_credentials session_creds (L "default") (world_of with_defaults) = (Ok tt, w')
    /\ read (credentials w')
       = Ok (mkParser (set (L "default") (session_section session_creds)
                           (merged with_defaults_parser)) []).
Proof.
  apply (save_flattens_defaults (world_of with_defaults) session_creds (L "default")
                                with_defaults_parser with_defaults).
  - reflexivity.
  - vm_compute. reflexivity.
  - vm_compute. reflexivity.
  - vm_compute. reflexivity.
  - vm_compute. reflexivity.
Defined.

(** X22: what is read is normalised.  In the mapping read from a credentials
    file without [%], section names are distinct, not empty and never
    [DEFAULT]; in every section the keys are distinct, not empty, in lower
    case and without white space at either end, and no value ends with
    white space. *)
Theorem read_normalises_names (f : file_state) (d : dict (dict str)) :
  plain_file f = true ->
  read_ini_file_to_dict f = Ok d ->
  NoDup (keys d)
  /\ forall n sec, In (n, sec) d ->
       n <> [] /\ n <> DEFAULTSECT /\ NoDup (keys sec)
       /\ forall k v, In (k, v) sec ->
            k <> [] /\ lower k = k /\ strip k = k /\ rstrip v = v.
Proof.
  intros Hp Hr. pose proof (read_valid f d Hp Hr) as Hv.
  split; [now apply ParserFacts.valid_dict_spec in Hv|].
  intros n sec Hin. destruct (valid_dict_names d n sec Hv Hin) as [Hn Hs].
  apply ReaderFacts.valid_name_spec in Hn as (Hne & _ & _ & Hd).
  apply SectionFacts.valid_section_spec in Hs as [Hnd Hitems].
  split; [exact Hne|]. split; [now apply str_eqb_neq|]. split; [exact Hnd|].
  intros k v Hkv. rewrite forallb_forall in Hitems. specialize (Hitems _ Hkv).
  apply SectionFacts.valid_item_spec in Hitems as (Hk & Hval & _).
  apply SectionFacts.valid_value_spec in Hval as (_ & _ & _ & _ & Hrs).
  apply ClassifyFacts.valid_key_spec in Hk as (Hk1 & Hl & Hrk & Hlow & _).
  repeat split; try assumption. now apply strip_id.
Qed.

Lemma read_normalises_names_witness :
  NoDup (keys (merged with_defaults_parser))
  /\ forall n sec, In (n, sec) (merged with_defaults_parser) ->
       n <> [] /\ n <> DEFAULTSECT /\ NoDup (keys sec)
       /\ forall k v, In (k, v) sec ->
            k <> [] /\ lower k = k /\ strip k = k /\ rstrip v = v.
Proof.
  apply (read_normalises_names (Present true true with_defaults)
                               (merged with_defaults_parser)).
  - vm_compute. reflexivity.
  - vm_compute. reflexivity.
Defined.

(** X23: what [write_dict_to_ini_file] writes, [read_ini_file_to_dict] reads
    back.  For a mapping with valid section names, keys and values (values
    may run over several lines) and a file that can be written, the text
    of the file becomes [write] of the parser holding the mapping, and the
    file reads back as the mapping itself. *)
Theorem written_mapping_reads_back (d : dict (dict str)) (f : file_state) (text : str) :
  valid_dict d = true ->
  f = Missing true \/ f = Present true true text ->
  write_dict_to_ini_file d f = Ok (Present true true (write (mkParser d [])))
  /\ read_ini_file_to_dict (Present true true (write (mkParser d []))) = Ok d.
Proof.
  intros Hv Hf.
  assert (Hread : read_ini_file_to_dict (Present true true (write (mkParser d []))) = Ok d)
    by (apply read_ini_of_text; [now apply WriteFacts.read_string_write | assumption]).
  split; [|exact Hread].
  unfold write_dict_to_ini_file. rewrite ReadDictFacts.read_dict_valid by assumption.
  cbn [rbind]. destruct Hf as [-> | ->]; reflexivity.
Qed.

Lemma written_mapping_reads_back_witness :
  write_dict_to_ini_file multi_line_dict (Missing true)
  = Ok (Present true true (write (mkParser multi_line_dict [])))
  /\ read_ini_file_to_dict (Present true true (write (mkParser multi_line_dict [])))
     = Ok multi_line_dict.
Proof.
  apply (written_mapping_reads_back multi_line_dict (Missing true) []).
  - vm_compute. reflexivity.
  - now left.
Defined.

Module OptionFacts.
Import ResFacts ClassifyFacts InvariantFacts.

Lemma opt_pair_eqb_refl p : opt_pair_eqb p p = true.
Proof.
  destruct p as [[s|] k]; unfold opt_pair_eqb; cbn [fst snd];
    rewrite ?str_eqb_refl; reflexivity.
Qed.

Lemma opt_match_nonempty x p : opt_match x = Some p -> x <> [].
Proof. intros H ->. discriminate. Qed.

(** A line at the left margin is not a continuation line. *)
Lemma margin_line st l :
  is_comment l = false -> strip l <> [] -> first_nonspace l = 0 ->
  sect_header (strip l) = None ->
  read_line st l
  = if cursor_is_none (cursect st) then Raise MissingSectionHeaderError
    else read_option (set_indent st 0) (strip l).
Proof.
  intros Hc Hne Hi Hh. unfold read_line. rewrite Hc.
  destruct (strip l) as [|a r] eqn:E; [congruence|].
  rewrite Hi, Hh.
  replace (indent_level st <? 0) with false by (symmetry; apply Nat.ltb_ge; lia).
  now rewrite !andb_false_r.
Qed.

Lemma append_value_key k st v st' :
  append_value st v = Ok st' -> key_seen k st -> key_seen k st'.
Proof.
  intros Hrun Hs. unfold append_value in Hrun.
  destruct (cursect_dict st); [|injection Hrun as <-; exact Hs].
  destruct (optname st); [|injection Hrun as <-; exact Hs].
  destruct (get _ _); [|discriminate]. injection Hrun as <-. exact Hs.
Qed.

Lemma read_option_key k st value st' :
  read_option st value = Ok st' -> key_seen k st -> key_seen k st'.
Proof.
  intros Hrun [Hc Hm]. unfold read_option in Hrun.
  destruct (opt_match value) as [[opt optval]|].
  - destruct (mem_pair _ _); [discriminate|].
    destruct (cursect_dict st); [|discriminate]. injection Hrun as <-.
    split; [exact Hc|]. cbn [sectname added_options].
    unfold mem_pair in *. cbn [existsb]. now rewrite Hm, orb_true_r.
  - injection Hrun as <-. now split.
Qed.

(** Away from a header, the key stays met. *)
Lemma read_line_key k st l st' :
  sect_header (strip l) = None ->
  read_line st l = Ok st' -> key_seen k st -> key_seen k st'.
Proof.
  intros Hh Hrun Hs. unfold read_line in Hrun.
  destruct (is_comment l).
  - cbn in Hrun. now injection Hrun as <-.
  - destruct (strip l) as [|a r] eqn:E.
    + destruct (_ && _ && _); [now apply (append_value_key k st []) | now injection Hrun as <-].
    + destruct (_ && _ && _); [eapply append_value_key; eassumption|].
      rewrite Hh in Hrun. destruct (cursor_is_none _); [discriminate|].
      eapply read_option_key; [eassumption | exact Hs].
Qed.

Lemma run_key k lines : forall st st',
  Forall (fun l => sect_header (strip l) = None) lines ->
  rfold read_line lines st = Ok st' -> key_seen k st -> key_seen k st'.
Proof.
  induction lines as [|l r IH]; intros st st' Hall Hrun Hs.
  - now injection Hrun as <-.
  - inversion Hall; subst. cbn [rfold] in Hrun.
    destruct (read_line st l) as [st1|] eqn:E; [|discriminate].
    cbn [rbind] in Hrun. eapply IH; try eassumption. eapply read_line_key; eassumption.
Qed.

Lemma keyed_strip_nonempty k l : keyed_line k l -> strip l <> [].
Proof. intros (_ & _ & _ & opt & val & Hm & _). now apply opt_match_nonempty in Hm. Qed.

(** The first line with key [k]: an error, or the key has been met. *)
Lemma first_keyed st k l :
  keyed_line k l ->
  (exists e, read_line st l = Raise e)
  \/ exists st', read_line st l = Ok st' /\ key_seen k st'.
Proof.
  intros Hk. pose proof (keyed_strip_nonempty k l Hk) as Hne.
  destruct Hk as (Hc & Hi & Hh & opt & val & Hm & Hkey).
  rewrite (margin_line st l Hc Hne Hi Hh).
  destruct (cursor_is_none (cursect st)) eqn:En; [left; now eexists|].
  unfold read_option. rewrite Hm, Hkey. cbn [sectname set_indent added_options].
  destruct (mem_pair _ _); [left; now eexists|].
  destruct (cursect_dict _); [|left; now eexists].
  right. eexists. split; [reflexivity|]. split; [exact En|].
  cbn [sectname added_options]. unfold mem_pair. cbn [existsb].
  now rewrite opt_pair_eqb_refl.
Qed.

(** A second line with key [k] in the same section is refused. *)
Lemma second_keyed st k l :
  keyed_line k l -> key_seen k st ->
  read_line st l
  = Raise (DuplicateOptionError (match sectname st with Some s => s | None => [] end) k).
Proof.
  intros Hk [Hn Hs]. pose proof (keyed_strip_nonempty k l Hk) as Hne.
  destruct Hk as (Hc & Hi & Hh & opt & val & Hm & Hkey).
  rewrite (margin_line st l Hc Hne Hi Hh), Hn.
  unfold read_option. rewrite Hm, Hkey. cbn [sectname set_indent added_options].
  now rewrite Hs.
Qed.

Lemma run_duplicate_key k pre o1 mid o2 post :
  keyed_line k o1 -> keyed_line k o2 ->
  Forall (fun l => sect_header (strip l) = None) mid ->
  exists e,
    rfold read_line (pre ++ o1 :: mid ++ o2 :: post) reader0 = Raise e
    /\ ((exists st, rfold read_line (pre ++ o1 :: mid) reader0 = Ok st)
        -> exists s, e = DuplicateOptionError s k).
Proof.
  intros H1 H2 Hmid. rewrite !rfold_app.
  destruct (rfold read_line pre reader0) as [st1|e1].
  - cbn [rbind rfold].
    destruct (first_keyed st1 k o1 H1) as [[e Hr] | (st2 & Hr & Hs)]; rewrite Hr.
    + eexists. split; [reflexivity|]. intros [st H]. discriminate.
    + cbn [rbind]. rewrite rfold_app.
      destruct (rfold read_line mid st2) as [st3|e3] eqn:E3.
      * cbn [rbind rfold].
        rewrite (second_keyed st3 k o2 H2 (run_key k mid st2 st3 Hmid E3 Hs)).
        eexists. split; [reflexivity|]. intros _. now eexists.
      * eexists. split; [reflexivity|]. intros [st H]. discriminate.
  - eexists. split; [reflexivity|]. intros [st H]. discriminate.
Qed.

(** A stray line makes the whole reading fail. *)
Lemma run_stray pre l post :
  stray l -> exists e, _read (pre ++ l :: post) = Raise e.
Proof.
  intros (Hc & Hne & Hi & Hh & Hm). unfold _read. rewrite rfold_app.
  destruct (rfold read_line pre reader0) as [st1|e1]; [|now eexists].
  cbn [rbind rfold]. rewrite (margin_line st1 l Hc Hne Hi Hh).
  destruct (cursor_is_none (cursect st1)); [now eexists|].
  unfold read_option. rewrite Hm. cbn [rbind].
  match goal with |- context [rfold read_line post ?st2] =>
    destruct (rfold read_line post st2) as [st3|e3] eqn:E3; cbn [rbind];
      [ rewrite (run_pending post st2 st3 E3 eq_refl) | ]; now eexists
  end.
Qed.

(** What the tool does when the file is not read. *)
Lemma unread_tool w e :
  read_ini_file_to_dict (credentials w) = Raise e ->
  (forall c P, save_session_credentials c P w = (Raise e, w))
  /\ (forall s t, copy_profile s t w = (Raise e, w)).
Proof.
  intros Hr. split.
  - intros c P. now apply save_raises_unread.
  - intros s t. unfold copy_profile, bind, read_creds. now rewrite Hr.
Qed.

Lemma read_ini_lines text writable e :
  _read (readlines (universal_newlines text)) = Raise e ->
  read_ini_file_to_dict (Present true writable text) = Raise e.
Proof.
  intros H. unfold read_ini_file_to_dict, read. cbn [open_read].
  unfold read_string. now rewrite H.
Qed.

End OptionFacts.
Import OptionFacts.

(** X24: a key that comes twice in a section.  When two lines at the left
    margin of the credentials file are options whose keys are the same
    once trailing white space is removed and case is lowered, and no line
    between them reads as a section header, the file is not read:
    [read_ini_file_to_dict] raises, with [DuplicateOptionError] for this
    key when the lines before the second option are read without error,
    and [save_session_credentials] and [copy_profile] raise the same
    exception and leave the world as it was. *)
Theorem duplicate_option_is_rejected (w : world) (text : str) (writable : bool)
        (k o1 o2 : str) (pre mid post : list str) :
  credentials w = Present true writable text ->
  readlines (universal_newlines text) = pre ++ o1 :: mid ++ o2 :: post ->
  keyed_line k o1 ->
  keyed_line k o2 ->
  Forall (fun l => sect_header (strip l) = None) mid ->
  exists e,
    read_ini_file_to_dict (credentials w) = Raise e
    /\ ((exists st, rfold read_line (pre ++ o1 :: mid) reader0 = Ok st)
        -> exists s, e = DuplicateOptionError s k)
    /\ (forall c P, save_session_credentials c P w = (Raise e, w))
    /\ (forall s t, copy_profile s t w = (Raise e, w)).
Proof.
  intros Hf Hl H1 H2 Hmid.
  destruct (run_duplicate_key k pre o1 mid o2 post H1 H2 Hmid) as (e & Hrun & He).
  exists e.
  assert (Hr : read_ini_file_to_dict (credentials w) = Raise e).
  { rewrite Hf. apply read_ini_lines. unfold _read. rewrite Hl.
    match goal with |- context [rfold read_line ?ls reader0] =>
      assert (E : rfold read_line ls reader0 = Raise e) by exact Hrun; now rewrite E end. }
  split; [exact Hr|]. split; [exact He|]. now apply unread_tool.
Qed.

Lemma duplicate_option_is_rejected_witness :
  exists e,
    read_ini_file_to_dict (credentials (world_of key_twice)) = Raise e
    /\ ((exists st, rfold read_line ([L "[default]"] ++ L "AWS_ACCESS_KEY_ID = AKIAOLD" :: [L ""])
                          reader0 = Ok st)
        -> exists s, e = DuplicateOptionError s (L "aws_access_key_id"))
    /\ (forall c P, save_session_credentials c P (world_of key_twice)
                    = (Raise e, world_of key_twice))
    /\ (forall s t, copy_profile s t (world_of key_twice) = (Raise e, world_of key_twice)).
Proof.
  apply (duplicate_option_is_rejected (world_of key_twice) key_twice true
           (L "aws_access_key_id") (L "AWS_ACCESS_KEY_ID = AKIAOLD")
           (L "aws_access_key_id = AKIANEW") [L "[default]"] [L ""] []).
  - reflexivity.
  - vm_compute. reflexivity.
  - split; [vm_compute; reflexivity|]. split; [vm_compute; reflexivity|].
    split; [vm_compute; reflexivity|].
    exists (L "AWS_ACCESS_KEY_ID"), (L "AKIAOLD"). split; vm_compute; reflexivity.
  - split; [vm_compute; reflexivity|]. split; [vm_compute; reflexivity|].
    split; [vm_compute; reflexivity|].
    exists (L "aws_access_key_id"), (L "AKIANEW"). split; vm_compute; reflexivity.
  - constructor; [vm_compute; reflexivity | constructor].
Defined.

(** X25: a line that is neither a header nor an option.  When a line at the
    left margin of the credentials file is not a comment, not a section
    header and holds no [=] and no [:], the file is not read, whatever the
    other lines are: [read_ini_file_to_dict] raises, and
    [save_session_credentials] and [copy_profile] raise the same exception
    and leave the world as it was. *)
Theorem stray_line_is_rejected (w : world) (text : str) (writable : bool)
        (l : str) (pre post : list str) :
  credentials w = Present true writable text ->
  readlines (universal_newlines text) = pre ++ l :: post ->
  stray l ->
  exists e,
    read_ini_file_to_dict (credentials w) = Raise e
    /\ (forall c P, save_session_credentials c P w = (Raise e, w))
    /\ (forall s t, copy_profile s t w = (Raise e, w)).
Proof.
  intros Hf Hl Hs. destruct (run_stray pre l post Hs) as [e He]. exists e.
  assert (Hr : read_ini_file_to_dict (credentials w) = Raise e).
  { rewrite Hf. apply read_ini_lines. rewrite Hl. exact He. }
  split; [exact Hr | now apply unread_tool].
Qed.

Lemma stray_line_is_rejected_witness :
  exists e,
    read_ini_file_to_dict (credentials (world_of stray_line)) = Raise e
    /\ (forall c P, save_session_credentials c P (world_of stray_line)
                    = (Raise e, world_of stray_line))
    /\ (forall s t, copy_profile s t (world_of stray_line) = (Raise e, world_of stray_line)).
Proof.
  apply (stray_line_is_rejected (world_of stray_line) stray_line true
           (L "this line has no delimiter")
           [L "[default]"; L "aws_access_key_id = AKIADEFAULT"] [L "[work]"]).
  - reflexivity.
  - vm_compute. reflexivity.
  - split; [vm_compute; reflexivity|]. split; [vm_compute; discriminate|].
    split; [vm_compute; reflexivity|]. split; vm_compute; reflexivity.
Defined.
